(** * pandoc-svg: the SVG document transformation pipeline

    A shallow embedding of [lib/resize.js], [lib/optimize.js],
    [lib/svg2to11.js], [lib/text2foreignObject.js], [lib/utils.js] and
    [lib/filter.js], and the properties of the pipeline established on it.

    Conventions of the embedding:
    - a JavaScript string is a [string]: a sequence of 8-bit code units
      (the Latin-1 part of UTF-16);
    - a JavaScript Number is a binary64 value, [spec_float] with precision 53
      and maximal exponent 1024, and its conversions from and to text
      ([Number], [parseFloat], [toPrecision], [toString]) are computed
      exactly over [Z];
    - the document is the tree under its root [<svg>] element; an element
      carries its attributes in document order and, apart from them, the
      declarations of its inline [style], with the values as the style
      object reports them (the style object of jsdom rewrites some values,
      colours for one, when they are set: this is not part of the model);
    - a loop over the static list of a [querySelectorAll] is a traversal of
      the tree in document order, which hands down what the callback on the
      parent has done to its children;
    - a function that can throw returns in the error monad [exc];
    - the passes of [filter] run in a state monad on the shared tree, which
      also records each call of a pass with the tree it is given;
    - the collaborators of the pipeline (file system, parser, serializer,
      SVGO, pandoc) are the fields of a record [Env]; what the code prints
      on the console is left out, but for [validInkscapeVersion], whose
      messages and whose flag are a state that is passed along. *)

From Stdlib Require Import ZArith List String Ascii Bool.
From Stdlib Require Import DecimalString.
From Stdlib Require Import Floats.SpecFloat.
Import ListNotations.

#[global] Set Warnings "-register-all".

Local Open Scope list_scope.
Local Open Scope string_scope.

(* ================================================================== *)
(** * Strings *)
(* ================================================================== *)

Module JSString.

Definition code (c : ascii) : N := N_of_ascii c.

Definition in_range (lo hi : ascii) (c : ascii) : bool :=
  (code lo <=? code c)%N && (code c <=? code hi)%N.

(** [\d] *)
Definition is_digit (c : ascii) : bool := in_range "0" "9" c.

(** [[\d\.]] *)
Definition is_digit_or_dot (c : ascii) : bool :=
  is_digit c || Ascii.eqb c ".".

(** [[-\d\.]] *)
Definition is_minus_digit_or_dot (c : ascii) : bool :=
  Ascii.eqb c "-" || is_digit_or_dot c.

(** [[a-zA-Z%]] *)
Definition is_alpha_or_percent (c : ascii) : bool :=
  in_range "a" "z" c || in_range "A" "Z" c || Ascii.eqb c "%".

(** LineTerminator: LF and CR (U+2028 and U+2029 are outside Latin-1). *)
Definition is_line_terminator (c : ascii) : bool :=
  (code c =? 10)%N || (code c =? 13)%N.

(** [\s], and the white space StringToNumber and parseFloat strip: TAB, LF,
    VT, FF, CR, SP and NBSP. *)
Definition is_space (c : ascii) : bool :=
  ((9 <=? code c)%N && (code c <=? 13)%N)
  || (code c =? 32)%N || (code c =? 160)%N.

(** The longest prefix of [s] whose characters satisfy [p], and the rest. *)
Fixpoint span (p : ascii -> bool) (s : string) : string * string :=
  match s with
  | EmptyString => (EmptyString, EmptyString)
  | String c s' =>
      if p c
      then let (a, b) := span p s' in (String c a, b)
      else (EmptyString, s)
  end.

Fixpoint forallb (p : ascii -> bool) (s : string) : bool :=
  match s with
  | EmptyString => true
  | String c s' => p c && forallb p s'
  end.

(** The double quote. *)
Definition dquote_char : ascii := ascii_of_nat 34.
Definition dquote : string := String dquote_char EmptyString.

Definition is_empty (s : string) : bool :=
  match s with EmptyString => true | _ => false end.

(** [s.startsWith(p)] with the remainder: [Some r] when [s = p ++ r]. *)
Fixpoint strip_prefix (p s : string) : option string :=
  match p, s with
  | EmptyString, _ => Some s
  | String a p', String b s' =>
      if Ascii.eqb a b then strip_prefix p' s' else None
  | String _ _, EmptyString => None
  end.

Definition startsWith (s p : string) : bool :=
  match strip_prefix p s with Some _ => true | None => false end.

(** [s.replace(pat, by)] for a string pattern: the first occurrence only. *)
Fixpoint replace_first (pat by_ s : string) : string :=
  match strip_prefix pat s with
  | Some r => by_ ++ r
  | None =>
      match s with
      | EmptyString => EmptyString
      | String c s' => String c (replace_first pat by_ s')
      end
  end.

(** [xs.join(sep)] *)
Definition join (sep : string) (xs : list string) : string :=
  String.concat sep xs.

(** [xs.includes(x)] on an array of strings. *)
Definition includes (xs : list string) (x : string) : bool :=
  existsb (String.eqb x) xs.

(** [xs.splice(xs.indexOf(x), 1)] when [x] occurs in [xs]: the first
    occurrence is removed. *)
Fixpoint remove_first (x : string) (xs : list string) : list string :=
  match xs with
  | [] => []
  | y :: ys => if String.eqb x y then ys else y :: remove_first x ys
  end.

Fixpoint repeat_char (c : ascii) (n : nat) : string :=
  match n with
  | O => EmptyString
  | S n' => String c (repeat_char c n')
  end.

(** The first [n] characters, and the rest. *)
Fixpoint split_at (n : nat) (s : string) : string * string :=
  match n, s with
  | O, _ => (EmptyString, s)
  | S n', String c s' => let (a, b) := split_at n' s' in (String c a, b)
  | S _, EmptyString => (EmptyString, EmptyString)
  end.

Fixpoint rev_append (s acc : string) : string :=
  match s with
  | EmptyString => acc
  | String c s' => rev_append s' (String c acc)
  end.

Definition rev (s : string) : string := rev_append s EmptyString.

(** [s.trim()] restricted to the white space of [is_space]. *)
Definition trim_start (s : string) : string := snd (span is_space s).
Definition trim (s : string) : string :=
  rev (trim_start (rev (trim_start s))).

End JSString.

(* ================================================================== *)
(** * Numbers *)
(* ================================================================== *)

Module JSNumber.

Import JSString.
Local Open Scope Z_scope.

(** A Number is a binary64 value. *)
Definition number : Type := spec_float.

Definition prec : Z := 53.
Definition emax : Z := 1024.

Definition NaN : number := S754_nan.

Definition mul : number -> number -> number := SFmul prec emax.
Definition div : number -> number -> number := SFdiv prec emax.
Definition add : number -> number -> number := SFadd prec emax.

Definition of_Z (z : Z) : number := binary_normalize prec emax z 0 false.

Definition number_eqb (x y : number) : bool :=
  match x, y with
  | S754_zero a, S754_zero b => Bool.eqb a b
  | S754_infinity a, S754_infinity b => Bool.eqb a b
  | S754_finite a m e, S754_finite b n f =>
      Bool.eqb a b && Pos.eqb m n && Z.eqb e f
  | _, _ => false
  end.

(** The Number value of the decimal [(-1)^neg * n * 10^e10]: the nearest
    binary64, ties to even. *)
Definition of_decimal (neg : bool) (n e10 : Z) : number :=
  match n with
  | Zpos p =>
      if 0 <=? e10
      then binary_round prec emax neg (p * Z.to_pos (10 ^ e10)) 0
      else div (S754_finite neg p 0)
               (S754_finite false (Z.to_pos (10 ^ (- e10))) 0)
  | _ => S754_zero neg
  end.

(** ** Reading numeric literals *)

Definition digit_val (c : ascii) : Z := Z.of_N (code c) - 48.

(** A maximal run of decimal digits read after the digits already
    accumulated in [acc]: the value, the number of digits read, the rest. *)
Fixpoint read_digits (s : string) (acc cnt : Z) : Z * Z * string :=
  match s with
  | String c s' =>
      if is_digit c
      then read_digits s' (10 * acc + digit_val c) (cnt + 1)
      else (acc, cnt, s)
  | EmptyString => (acc, cnt, s)
  end.

(** ExponentPart, when one is there: its value and the rest. *)
Definition read_exponent (s : string) : Z * string :=
  match s with
  | String c s1 =>
      if Ascii.eqb c "e" || Ascii.eqb c "E" then
        let '(neg, s2) :=
          match s1 with
          | String "+" r => (false, r)
          | String "-" r => (true, r)
          | _ => (false, s1)
          end in
        let '(v, cnt, rest) := read_digits s2 0 0 in
        if cnt =? 0 then (0, s) else (if neg then - v else v, rest)
      else (0, s)
  | EmptyString => (0, s)
  end.

(** The longest prefix that is a StrUnsignedDecimalLiteral. *)
Definition read_unsigned_decimal (neg : bool) (s : string)
  : option (number * string) :=
  match strip_prefix "Infinity" s with
  | Some r => Some (S754_infinity neg, r)
  | None =>
      let '(ip, ni, s1) := read_digits s 0 0 in
      let '(m, nf, s2) :=
        match s1 with
        | String "." r => read_digits r ip 0
        | _ => (ip, 0, s1)
        end in
      if ni + nf =? 0 then None
      else
        let '(ex, s3) := read_exponent s2 in
        Some (of_decimal neg m (ex - nf), s3)
  end.

(** The longest prefix that is a StrDecimalLiteral. *)
Definition read_decimal (s : string) : option (number * string) :=
  match s with
  | String "+" r => read_unsigned_decimal false r
  | String "-" r => read_unsigned_decimal true r
  | _ => read_unsigned_decimal false s
  end.

Definition radix_digit (radix : Z) (c : ascii) : option Z :=
  let v :=
    if is_digit c then digit_val c
    else if in_range "a" "f" c then Z.of_N (code c) - 87
    else if in_range "A" "F" c then Z.of_N (code c) - 55
    else 99 in
  if v <? radix then Some v else None.

Fixpoint read_radix (radix : Z) (s : string) (acc : Z) : option Z :=
  match s with
  | EmptyString => Some acc
  | String c s' =>
      match radix_digit radix c with
      | Some v => read_radix radix s' (radix * acc + v)
      | None => None
      end
  end.

(** NonDecimalIntegerLiteral: [0x], [0o] and [0b] literals. *)
Definition read_non_decimal (s : string) : option number :=
  match s with
  | String "0" (String c (String d r)) =>
      let radix :=
        if Ascii.eqb c "x" || Ascii.eqb c "X" then 16
        else if Ascii.eqb c "o" || Ascii.eqb c "O" then 8
        else if Ascii.eqb c "b" || Ascii.eqb c "B" then 2
        else 0 in
      if radix =? 0 then None
      else option_map of_Z (read_radix radix (String d r) 0)
  | _ => None
  end.

(** [Number(s)]: StringToNumber. *)
Definition Number (s : string) : number :=
  let t := trim s in
  if is_empty t then S754_zero false
  else
    match read_decimal t with
    | Some (x, EmptyString) => x
    | _ =>
        match read_non_decimal t with
        | Some x => x
        | None => NaN
        end
    end.

(** [parseFloat(s)] *)
Definition parseFloat (s : string) : number :=
  match read_decimal (trim_start s) with
  | Some (x, _) => x
  | None => NaN
  end.

(** ** Writing numbers *)

Definition Z_to_string (z : Z) : string :=
  NilZero.string_of_uint (N.to_uint (Z.to_N z)).

(** A positive finite value as a fraction of two positive integers. *)
Definition fraction (m : positive) (e : Z) : Z * Z :=
  if 0 <=? e then (Zpos m * 2 ^ e, 1) else (Zpos m, 2 ^ (- e)).

(** [floor ((num / den) / 10^j)] *)
Definition scaled_floor (num den j : Z) : Z :=
  if 0 <=? j then num / (den * 10 ^ j) else (num * 10 ^ (- j)) / den.

(** [num / den ?= t * 10^j] *)
Definition scaled_compare (num den t j : Z) : comparison :=
  if 0 <=? j then num ?= t * 10 ^ j * den
  else num * 10 ^ (- j) ?= t * den.

Fixpoint adjust_log10 (fuel : nat) (num den g : Z) : Z :=
  match fuel with
  | O => g
  | S fuel' =>
      let q := scaled_floor num den g in
      if q =? 0 then adjust_log10 fuel' num den (g - 1)
      else if 10 <=? q then adjust_log10 fuel' num den (g + 1)
      else g
  end.

(** The [e] with [10^e <= num / den < 10^(e+1)], found from the estimate
    that the binary logarithms give, which is at most one off. *)
Definition floor_log10 (num den : Z) : Z :=
  adjust_log10 8 num den ((Z.log2 num - Z.log2 den) * 30103 / 100000).

(** The digits [s] and the position [n] of Number::toString: the least
    number [k] of digits such that [s * 10^(n-k)] reads back as [x], and,
    of the two candidates around [x], the nearer one (the even one at a
    tie). *)
Fixpoint shortest_digits (fuel : nat) (k : Z) (x : number)
         (num den e10 : Z) : Z * Z :=
  match fuel with
  | O => (0, 0)
  | S fuel' =>
      let j := e10 - k + 1 in
      let lo := scaled_floor num den j in
      let hi := lo + 1 in
      let ok_lo := number_eqb (of_decimal false lo j) x in
      let ok_hi := number_eqb (of_decimal false hi j) x in
      let out (s : Z) :=
        if s =? 10 ^ k then (10 ^ (k - 1), e10 + 2) else (s, e10 + 1) in
      match ok_lo, ok_hi with
      | true, false => out lo
      | false, true => out hi
      | true, true =>
          match scaled_compare (2 * num) den (2 * lo + 1) j with
          | Lt => out lo
          | Gt => out hi
          | Eq => if Z.even lo then out lo else out hi
          end
      | false, false => shortest_digits fuel' (k + 1) x num den e10
      end
  end.

Definition exponent_suffix (e : Z) : string :=
  "e" ++ (if e <? 0 then "-" else "+") ++ Z_to_string (Z.abs e).

(** Number::toString of a positive finite value. *)
Definition positive_to_string (m : positive) (e : Z) : string :=
  let (num, den) := fraction m e in
  let '(s, n) :=
    shortest_digits 17 1 (S754_finite false m e) num den
                    (floor_log10 num den) in
  let ds := Z_to_string s in
  let k := Z.of_nat (String.length ds) in
  if (k <=? n) && (n <=? 21) then
    ds ++ repeat_char "0" (Z.to_nat (n - k))
  else if (0 <? n) && (n <=? 21) then
    let (a, b) := split_at (Z.to_nat n) ds in a ++ "." ++ b
  else if (-6 <? n) && (n <=? 0) then
    "0." ++ repeat_char "0" (Z.to_nat (- n)) ++ ds
  else if k =? 1 then ds ++ exponent_suffix (n - 1)
  else
    let (a, b) := split_at 1 ds in
    a ++ "." ++ b ++ exponent_suffix (n - 1).

(** [String(x)], [x.toString()], and [x] in a string concatenation. *)
Definition to_string (x : number) : string :=
  match x with
  | S754_nan => "NaN"
  | S754_zero _ => "0"
  | S754_infinity s => if s then "-Infinity" else "Infinity"
  | S754_finite s m e =>
      (if s then "-" else "") ++ positive_to_string m e
  end.

(** The [n] and [e] of [toPrecision(p)]: [10^(p-1) <= n < 10^p] with
    [n * 10^(e-p+1)] nearest to the value; at a tie the larger [n]. *)
Definition precision_digits (p : Z) (m : positive) (ex : Z) : Z * Z :=
  let (num, den) := fraction m ex in
  let e := floor_log10 num den in
  let j := e - p + 1 in
  let lo := scaled_floor num den j in
  let n :=
    match scaled_compare (2 * num) den (2 * lo + 1) j with
    | Lt => lo
    | _ => lo + 1
    end in
  if n =? 10 ^ p then (10 ^ (p - 1), e + 1) else (n, e).

(** [x.toPrecision(p)] for [1 <= p <= 100]. *)
Definition toPrecision (x : number) (p : Z) : string :=
  match x with
  | S754_nan => "NaN"
  | S754_infinity s => if s then "-Infinity" else "Infinity"
  | S754_zero _ =>
      if p =? 1 then "0"
      else "0." ++ repeat_char "0" (Z.to_nat (p - 1))
  | S754_finite s m ex =>
      let sign := if s then "-" else "" in
      let (n, e) := precision_digits p m ex in
      let ds := Z_to_string n in
      if (e <? -6) || (p <=? e) then
        let (a, b) := split_at 1 ds in
        sign ++ a ++ (if p =? 1 then "" else "." ++ b) ++ exponent_suffix e
      else if e =? p - 1 then sign ++ ds
      else if 0 <=? e then
        let (a, b) := split_at (Z.to_nat (e + 1)) ds in
        sign ++ a ++ "." ++ b
      else
        sign ++ "0." ++ repeat_char "0" (Z.to_nat (- (e + 1))) ++ ds
  end.

(** [Math.ceil(x)] *)
Definition ceil (x : number) : number :=
  match x with
  | S754_finite s m e =>
      if 0 <=? e then x
      else
        let q := Zpos m / 2 ^ (- e) in
        let r := Zpos m mod 2 ^ (- e) in
        if s then binary_normalize prec emax (- q) 0 true
        else binary_normalize prec emax (if r =? 0 then q else q + 1) 0 false
  | _ => x
  end.

(** [x >= y] *)
Definition ge (x y : number) : bool :=
  match SFcompare x y with
  | Some Gt | Some Eq => true
  | _ => false
  end.

End JSNumber.


(* ================================================================== *)
(** * Exceptions *)
(* ================================================================== *)

Module Exc.

Inductive error : Type :=
| TypeError (msg : string).

(** A computation that returns a value or throws. *)
Definition exc (A : Type) : Type := (error + A)%type.

Definition ret {A : Type} (a : A) : exc A := inr a.
Definition throw {A : Type} (e : error) : exc A := inl e.

Definition bind {A B : Type} (c : exc A) (k : A -> exc B) : exc B :=
  match c with
  | inl e => inl e
  | inr a => k a
  end.

Definition throws {A : Type} (c : exc A) : Prop :=
  exists e, c = inl e.

(** [match.groups] for the result [match] of an [exec], which is [null]
    when nothing matches. *)
Definition groups {A : Type} (m : option A) : exc A :=
  match m with
  | Some g => ret g
  | None => throw (TypeError "Cannot read properties of null (reading 'groups')")
  end.

(** [xs.forEach(f)] for an [f] that can throw: the first exception ends
    the loop. *)
Fixpoint for_each {A : Type} (f : A -> exc unit) (xs : list A) : exc unit :=
  match xs with
  | [] => ret tt
  | x :: xs' => bind (f x) (fun _ => for_each f xs')
  end.

Fixpoint map_exc {A B : Type} (f : A -> exc B) (xs : list A)
  : exc (list B) :=
  match xs with
  | [] => ret []
  | x :: xs' =>
      bind (f x) (fun y => bind (map_exc f xs') (fun ys => ret (y :: ys)))
  end.

End Exc.

Import Exc.

Declare Scope exc_scope.
Delimit Scope exc_scope with exc.
Notation "x <- c ;; k" := (bind c (fun x => k))
(at level 61, c at next level, right associativity) : exc_scope.
Notation "c ;;; k" := (bind c (fun _ => k))
(at level 61, right associativity) : exc_scope.

(* ================================================================== *)
(** * The document tree *)
(* ================================================================== *)

Module DOM.

Import JSString.

(** One declaration of an inline style: property, value and priority
    (the empty string, or [important]). *)
Record decl : Type := Decl {
  d_property : string;
  d_value : string;
  d_priority : string
}.

(** A CSSStyleDeclaration: its declarations in order. *)
Definition css : Type := list decl.

(** Nodes.  An element has a tag name, its attributes other than [style] in
    order, the inline style when it has a [style] attribute, and its child
    nodes. *)
Inductive node : Type :=
| Text (data : string)
| Comment (data : string)
| Elem (e : element)
with element : Type :=
| El (tag : string) (attrs : list (string * string)) (sty : option css)
     (childNodes : list node).

Definition tagName (e : element) : string :=
  let 'El t _ _ _ := e in t.
Definition attributes (e : element) : list (string * string) :=
  let 'El _ a _ _ := e in a.
Definition style_attr (e : element) : option css :=
  let 'El _ _ s _ := e in s.
Definition childNodes_of (e : element) : list node :=
  let 'El _ _ _ c := e in c.

Definition set_attributes (e : element) (a : list (string * string))
  : element :=
  let 'El t _ s c := e in El t a s c.
Definition set_style_attr (e : element) (s : option css) : element :=
  let 'El t a _ c := e in El t a s c.
Definition set_childNodes (e : element) (c : list node) : element :=
  let 'El t a s _ := e in El t a s c.

(** ** Attributes *)

(** [elt.getAttribute(name)]; [None] is [null]. *)
Fixpoint lookup (name : string) (a : list (string * string))
  : option string :=
  match a with
  | [] => None
  | (k, v) :: a' => if String.eqb k name then Some v else lookup name a'
  end.

Definition getAttribute (e : element) (name : string) : option string :=
  lookup name (attributes e).

Definition hasAttribute (e : element) (name : string) : bool :=
  match getAttribute e name with Some _ => true | None => false end.

(** The value is replaced where the attribute is, or the attribute is
    appended. *)
Fixpoint update (name value : string) (a : list (string * string))
  : list (string * string) :=
  match a with
  | [] => [(name, value)]
  | (k, v) :: a' =>
      if String.eqb k name then (k, value) :: a'
      else (k, v) :: update name value a'
  end.

Definition setAttribute (e : element) (name value : string) : element :=
  set_attributes e (update name value (attributes e)).

Definition removeAttribute (e : element) (name : string) : element :=
  set_attributes e
    (filter (fun kv => negb (String.eqb (fst kv) name)) (attributes e)).

(** [elt.removeAttribute('style')] *)
Definition removeStyleAttribute (e : element) : element :=
  set_style_attr e None.

(** [elt.hasAttributes()] *)
Definition hasAttributes (e : element) : bool :=
  match attributes e, style_attr e with
  | [], None => false
  | _, _ => true
  end.

(** The string that [setAttribute] stores for the result of a
    [getAttribute]: [null] becomes the text [null]. *)
Definition string_of_nullable (v : option string) : string :=
  match v with Some s => s | None => "null" end.

(** ** Inline style *)

Definition declarations (s : option css) : css :=
  match s with Some ds => ds | None => [] end.

Fixpoint find_decl (p : string) (ds : css) : option decl :=
  match ds with
  | [] => None
  | d :: ds' => if String.eqb (d_property d) p then Some d
                else find_decl p ds'
  end.

(** [style.getPropertyValue(p)]: the empty string when [p] is not set. *)
Definition getPropertyValue (s : option css) (p : string) : string :=
  match find_decl p (declarations s) with
  | Some d => d_value d
  | None => ""
  end.

(** [style.getPropertyPriority(p)] *)
Definition getPropertyPriority (s : option css) (p : string) : string :=
  match find_decl p (declarations s) with
  | Some d => d_priority d
  | None => ""
  end.

Definition remove_decl (p : string) (ds : css) : css :=
  filter (fun d => negb (String.eqb (d_property d) p)) ds.

Fixpoint put_decl (p v : string) (ds : css) : css :=
  match ds with
  | [] => [Decl p v ""]
  | d :: ds' =>
      if String.eqb (d_property d) p then Decl p v "" :: ds'
      else d :: put_decl p v ds'
  end.

(** [style.setProperty(p, v)]: no priority is passed, so the declaration
    gets the empty priority; the empty value removes the property.  The
    element has a [style] attribute afterwards. *)
Definition setProperty (s : option css) (p v : string) : option css :=
  if is_empty v then Some (remove_decl p (declarations s))
  else Some (put_decl p v (declarations s)).

(** [style.removeProperty(p)] *)
Definition removeProperty (s : option css) (p : string) : option css :=
  match s with
  | Some ds => Some (remove_decl p ds)
  | None => None
  end.

Definition style_getPropertyValue (e : element) (p : string) : string :=
  getPropertyValue (style_attr e) p.

Definition style_setProperty (e : element) (p v : string) : element :=
  set_style_attr e (setProperty (style_attr e) p v).

(** ** Children *)

(** [elt.children]: the child nodes that are elements. *)
Fixpoint elements (ns : list node) : list element :=
  match ns with
  | [] => []
  | Elem e :: ns' => e :: elements ns'
  | _ :: ns' => elements ns'
  end.

Definition children (e : element) : list element :=
  elements (childNodes_of e).

(** ** Serialization (the HTML fragment serialization that [innerHTML]
    reads) *)

Fixpoint escape_text (s : string) : string :=
  match s with
  | EmptyString => EmptyString
  | String c s' =>
      (if Ascii.eqb c "&" then "&amp;"
       else if Ascii.eqb c "<" then "&lt;"
       else if Ascii.eqb c ">" then "&gt;"
       else if (code c =? 160)%N then "&nbsp;"
       else String c EmptyString) ++ escape_text s'
  end.

Fixpoint escape_attr (s : string) : string :=
  match s with
  | EmptyString => EmptyString
  | String c s' =>
      (if Ascii.eqb c "&" then "&amp;"
       else if Ascii.eqb c dquote_char then "&quot;"
       else if (code c =? 160)%N then "&nbsp;"
       else String c EmptyString) ++ escape_attr s'
  end.

Definition serialize_decl (d : decl) : string :=
  d_property d ++ ": " ++ d_value d
    ++ (if is_empty (d_priority d) then "" else " !" ++ d_priority d)
    ++ ";".

(** [style.cssText] *)
Definition cssText (ds : css) : string :=
  join " " (map serialize_decl ds).

Definition serialize_attr (kv : string * string) : string :=
  " " ++ fst kv ++ "=" ++ dquote ++ escape_attr (snd kv) ++ dquote.

(** The attributes of a start tag.  The [style] attribute is written
    after the others, as the text of its declarations: for an element whose
    [style] attribute has not been touched, jsdom writes it where it stands
    and as it was given, so that the text for a styled element can differ;
    the properties below that depend on this text are stated for content
    without styled elements, or as relations between contents. *)
Definition serialize_attrs (a : list (string * string)) (s : option css)
  : string :=
  String.concat "" (map serialize_attr a)
    ++ match s with
       | Some ds => serialize_attr ("style", cssText ds)
       | None => ""
       end.

Definition void_elements : list string :=
  ["area"; "base"; "basefont"; "bgsound"; "br"; "col"; "embed"; "frame";
   "hr"; "img"; "input"; "keygen"; "link"; "meta"; "param"; "source";
   "track"; "wbr"].

Fixpoint outerHTML_node (n : node) : string :=
  match n with
  | Text d => escape_text d
  | Comment d => "<!--" ++ d ++ "-->"
  | Elem (El t a s cs) =>
      "<" ++ t ++ serialize_attrs a s ++ ">"
        ++ (if includes void_elements t then ""
            else String.concat "" (map outerHTML_node cs)
                   ++ "</" ++ t ++ ">")
  end.

Definition serialize_nodes (ns : list node) : string :=
  String.concat "" (map outerHTML_node ns).

(** [elt.innerHTML] *)
Definition innerHTML (e : element) : string :=
  serialize_nodes (childNodes_of e).

End DOM.

(* ================================================================== *)
(** * The collaborators *)
(* ================================================================== *)

Import JSString JSNumber DOM.
Local Open Scope exc_scope.

(** The line feed. *)
Definition LF : string := String (ascii_of_nat 10) EmptyString.

(** The identifier, the classes and the key/value pairs of a pandoc [Attr]. *)
Definition attr : Type := (string * list string * list (string * string))%type.

(** The [Inline] elements of pandoc's AST that the filter tells apart. *)
Inductive inline : Type :=
| Image (a : attr) (caption : list inline) (target : string * string)
| OtherInline (t : string).

(** The AST elements that the filter tells apart by their key [t]: an
    [Image], a [Para] with its inlines, and the others. *)
Inductive astElement : Type :=
| ImageElement (a : attr) (caption : list inline) (target : string * string)
| ParaElement (content : list inline)
| OtherElement (t : string).

(** What the pipeline calls and does not define: the file system, jsdom's
    parser and XML serializer, SVGO, the pandoc executable, [JSON.stringify]
    and the table [html5attrs.js]. *)
Record Env : Type := {
  (** [fs.readFileSync(path, 'utf8')]; [None] when the file does not exist
      (the other errors of the file system are left out) *)
  readFileSync : string -> option string;
  (** [new JSDOM(svgString).window.document], as the tree under its first
      [<svg>] element *)
  parseDocument : string -> element;
  (** the parser behind the setters of [innerHTML] and [outerHTML] *)
  parseFragment : string -> list node;
  (** [new XMLSerializer().serializeToString(elt)] *)
  serializeToString : element -> string;
  (** [svgoOptimize(svgString, config).data], for the only configuration the
      pipeline uses, by the value of [pretty] *)
  svgoOptimize : string -> bool -> string;
  (** [execSync(command, {input}).toString()] *)
  execSync : string -> string -> string;
  (** [JSON.stringify] of the document that wraps a caption *)
  stringifyCaption : list inline -> string;
  (** [html5attrs.has(key)] *)
  html5attrs_has : string -> bool
}.

(* ================================================================== *)
(** * lib/utils.js *)
(* ================================================================== *)

Module Utils.

(** [compatibleOutputFormat]; the message it prints once is not part of
    the model. *)
Definition compatibleOutputFormat (format : string) : bool :=
  includes ["html"] format.

(** [isImage], on the element that has the key. *)
Definition isImage (elt : astElement) : bool :=
  match elt with
  | ImageElement _ _ _ => true
  | _ => false
  end.

(** [isFigure], on the element that has the key and the value; reading
    [value[0]['t']] of an empty [Para] throws. *)
Definition isFigure (elt : astElement) : exc bool :=
  match elt with
  | ParaElement (Image _ _ (_, title) :: _) => ret (startsWith title "fig:")
  | ParaElement (OtherInline _ :: _) => ret false
  | ParaElement [] =>
      throw (TypeError "Cannot read properties of undefined (reading 't')")
  | _ => ret false
  end.

(** [isSVG]: the name ends in [.svg] or [.SVG]. *)
Definition isSVG (fname : string) : bool :=
  startsWith (rev fname) (rev ".svg") || startsWith (rev fname) (rev ".SVG").

(** [loadSVG] *)
Definition loadSVG (env : Env) (path : string) : option string :=
  readFileSync env path.

(** [createDOM] *)
Definition createDOM (env : Env) (svgString : string) : element :=
  parseDocument env svgString.

(** A pattern of literal characters, compared without regard to case, and
    of wildcards that stand for one character that is no line terminator. *)
Inductive pchar : Type :=
| Lit (c : ascii)
| AnyChar.

Definition lower (c : ascii) : ascii :=
  if in_range "A" "Z" c then ascii_of_N (code c + 32) else c.

Fixpoint match_prefix (pat : list pchar) (s : string) : option string :=
  match pat, s with
  | [], _ => Some s
  | Lit a :: pat', String b s' =>
      if Ascii.eqb (lower a) (lower b) then match_prefix pat' s' else None
  | AnyChar :: pat', String b s' =>
      if is_line_terminator b then None else match_prefix pat' s'
  | _ :: _, EmptyString => None
  end.

(** [s.replaceAll(/pat/ig, '')]: the next [skip] characters belong to a
    match that has been found. *)
Fixpoint remove_all (pat : list pchar) (skip : nat) (s : string) : string :=
  match s with
  | EmptyString => EmptyString
  | String c s' =>
      match skip with
      | S k => remove_all pat k s'
      | O =>
          match match_prefix pat s with
          | Some _ => remove_all pat (Nat.pred (List.length pat)) s'
          | None => String c (remove_all pat O s')
          end
      end
  end.

Fixpoint literal (s : string) : list pchar :=
  match s with
  | EmptyString => []
  | String c s' => Lit c :: literal s'
  end.

(** [/ xmlns="http:\/\/www.w3.org\/1999\/xhtml"/ig]: the dots of the host
    name are not escaped. *)
Definition xhtml_namespace_pattern : list pchar :=
  literal (" xmlns=" ++ dquote ++ "http://www")
    ++ [AnyChar] ++ literal "w3" ++ [AnyChar]
    ++ literal ("org/1999/xhtml" ++ dquote).

(** [serialize] *)
Definition serialize (env : Env) (svgDOM : element) : string :=
  remove_all xhtml_namespace_pattern O (serializeToString env svgDOM).

(** [round]: [parseFloat(number.toPrecision(10))] *)
Definition round (x : number) : number :=
  parseFloat (toPrecision x 10).

(** [flattenTextChildren]: every element child, in order, gives its
    non-empty [font-size] to [textElt] and is replaced by a text node that
    holds its [innerHTML]. *)
Definition flattenTextChildren (textElt : element) : element :=
  let promote (s : option css) (child : element) : option css :=
    let fontSize := style_getPropertyValue child "font-size" in
    if is_empty fontSize then s else setProperty s "font-size" fontSize in
  let replace (n : node) : node :=
    match n with
    | Elem child => Text (innerHTML child)
    | _ => n
    end in
  El (tagName textElt) (attributes textElt)
     (fold_left promote (children textElt) (style_attr textElt))
     (map replace (childNodes_of textElt)).

(** [pandoc] *)
Definition pandoc (env : Env) (from to input options : string) : string :=
  execSync env
    ("pandoc --from=" ++ from ++ " --to=" ++ to ++ " --mathjax " ++ options)
    input.

(** The group [content] of the regular expression of [ast2html]: [html] is
    [<p>], a [content] without line terminators, [</p>] and a line feed. *)
Definition paragraph_content (html : string) : option string :=
  match strip_prefix "<p>" html with
  | Some r =>
      match strip_prefix (rev ("</p>" ++ LF)) (rev r) with
      | Some c =>
          if forallb (fun ch => negb (is_line_terminator ch)) c
          then Some (rev c) else None
      | None => None
      end
  | None => None
  end.

(** [ast2html]; reading [groups] of a failed match throws. *)
Definition ast2html (env : Env) (inlineAST : list inline) : exc string :=
  let html := pandoc env "json" "html" (stringifyCaption env inlineAST) "" in
  groups (paragraph_content html).

(** Is a [$] ahead on this line? *)
Fixpoint closing_dollar_ahead (s : string) : bool :=
  match s with
  | EmptyString => false
  | String c s' =>
      if Ascii.eqb c "$" then true
      else if is_line_terminator c then false
      else closing_dollar_ahead s'
  end.

(** Where the scan of [/\$(.+?)\$/g] is: outside a match, at the first
    character of the group, or further inside the group. *)
Inductive delimiter_state : Type :=
| Outside
| First
| Inside.

Fixpoint convert_from (st : delimiter_state) (s : string) : string :=
  match s with
  | EmptyString => EmptyString
  | String c s' =>
      match st with
      | Outside =>
          if Ascii.eqb c "$"
             && match s' with
                | String c1 r =>
                    negb (is_line_terminator c1) && closing_dollar_ahead r
                | EmptyString => false
                end
          then "\(" ++ convert_from First s'
          else String c (convert_from Outside s')
      | First => String c (convert_from Inside s')
      | Inside =>
          if Ascii.eqb c "$" then "\)" ++ convert_from Outside s'
          else String c (convert_from Inside s')
      end
  end.

(** [convertMathJaxDelimiters]: [text.replace(/\$(.+?)\$/g, '\\($1\\)')] *)
Definition convertMathJaxDelimiters (text : string) : string :=
  convert_from Outside text.

(** [/^\$[^\$]+\$/.exec(markdown)] finds a match. *)
Definition equationRegex_matches (markdown : string) : bool :=
  match markdown with
  | String "$" r =>
      let (body, rest) := span (fun c => negb (Ascii.eqb c "$")) r in
      negb (is_empty body) && startsWith rest "$"
  | _ => false
  end.

(** [md2html] *)
Definition md2html (env : Env) (markdown : string) : string :=
  if equationRegex_matches markdown then
    "<p><span class=" ++ dquote ++ "math inline" ++ dquote ++ ">"
      ++ convertMathJaxDelimiters markdown
      ++ "</span></p>"
  else
    replace_first LF "" (pandoc env "markdown" "html" markdown "--mathjax").

(** [toHTML5keyvals] *)
Definition toHTML5keyvals (env : Env) (keyvals : list (string * string))
  : list (string * string) :=
  map (fun kv : string * string =>
         let (key, val) := kv in
         (if html5attrs_has env key then key else "data-" ++ key, val))
      keyvals.

(** ** [validInkscapeVersion] *)

(** The flag [printedInkscapeVersionErrorMsg] of the module, and what
    [console.error] has printed so far. *)
Record console : Type := {
  printedInkscapeVersionErrorMsg : bool;
  stderr : list string
}.

(** [if (!printedInkscapeVersionErrorMsg) { console.error(msg);
    printedInkscapeVersionErrorMsg = true; }] *)
Definition report (msg : string) (st : console) : console :=
  if printedInkscapeVersionErrorMsg st then st
  else {| printedInkscapeVersionErrorMsg := true;
          stderr := stderr st ++ [msg] |}.

Definition no_inkscape_message : string :=
  "pandoc-svg: No Inkscape installation was found! The command "
  ++ "`inkscape` must be available in the shell. If Inkscape is "
  ++ "installed, make sure it has been added to the PATH." ++ LF
  ++ "Inkscape is needed to convert an SVG to a .pdf_tex file for "
  ++ "LaTeX/PDF output only.".

Definition old_inkscape_message (inkscapeVersion : string) : string :=
  "pandoc-svg: Inkscape version must be at least 0.48. "
  ++ "The installed version is " ++ inkscapeVersion ++ "." ++ LF
  ++ "Inkscape is needed to convert an SVG to a .pdf_tex file for "
  ++ "LaTeX/PDF output only.".

(** The group [version] of the expression for the output of Inkscape: after
    [Inkscape ] at the start, one or more digits and dots. *)
Definition version_exec (stdout : string) : option string :=
  match strip_prefix "Inkscape " stdout with
  | Some r =>
      let (version, _) := span is_digit_or_dot r in
      if is_empty version then None else Some version
  | None => None
  end.

(** The groups [major] and [minor] of the expression for the version: at the
    start, one or more digits, a dot, and one or more digits. *)
Definition major_minor_exec (version : string) : option (string * string) :=
  let (major, r) := span is_digit version in
  if is_empty major then None
  else
    match r with
    | String "." r' =>
        let (minor, _) := span is_digit r' in
        if is_empty minor then None else Some (major, minor)
    | _ => None
    end.

(** [validInkscapeVersion], with [commandExists] of the package
    [command-exists]; the command runs without input. *)
Definition validInkscapeVersion (commandExists : string -> bool) (env : Env)
  (st : console) : exc (bool * console) :=
  if negb (commandExists "inkscape") then
    ret (false, report no_inkscape_message st)
  else
    let stdout := execSync env "inkscape --version" "" in
    inkscapeVersion <- groups (version_exec stdout) ;;
    m <- groups (major_minor_exec inkscapeVersion) ;;
    let (major, minor) := m : string * string in
    if String.eqb major "0" then
      if negb (ge (Number minor) (of_Z 49)) then
        ret (false, report (old_inkscape_message inkscapeVersion) st)
      else ret (true, st)
    else ret (true, st).

End Utils.

(* ================================================================== *)
(** * lib/resize.js *)
(* ================================================================== *)

Module Resize.

(** A value of [dimObj.scaleFactor]: a number, or the string of a
    [scale-factor] attribute. *)
Inductive jsvalue : Type :=
| VNumber (x : number)
| VString (s : string).

Definition ToNumber (v : jsvalue) : number :=
  match v with
  | VNumber x => x
  | VString s => Number s
  end.

(** [dimObj]; [None] is [undefined]. *)
Record dimObj : Type := {
  scaleFactor : option jsvalue;
  width : option string;
  height : option string
}.

(** [dimRegex.exec(dim)]: the group [val], one or more digits and dots, and
    the group [unit], the rest of the string, which holds no digit and no
    dot. *)
Definition dimRegex_exec (dim : string) : option (string * string) :=
  let (val, unit) := span is_digit_or_dot dim in
  if negb (is_empty val)
     && forallb (fun c => negb (is_digit_or_dot c)) unit
  then Some (val, unit)
  else None.

(** The number that a decimal literal of the source denotes. *)
Definition literal (digits exponent : Z) : number :=
  of_decimal false digits exponent.

Definition abs2PX : list (string * number) :=
  [ ("", literal 1 0);
    ("px", literal 1 0);
    ("cm", literal 378 (-1));
    ("mm", mul (literal 1 (-1)) (literal 378 (-1)));
    ("in", literal 96 0);
    ("pt", mul (div (literal 1 0) (literal 72 0)) (literal 96 0));
    ("pc", mul (div (literal 1 0) (literal 6 0)) (literal 96 0));
    ("Q", mul (div (literal 1 0) (literal 40 0)) (literal 378 (-1))) ].

(** The properties that an object literal inherits from
    [Object.prototype]. *)
Definition object_prototype_keys : list string :=
  [ "constructor"; "__defineGetter__"; "__defineSetter__"; "hasOwnProperty";
    "__lookupGetter__"; "__lookupSetter__"; "isPrototypeOf";
    "propertyIsEnumerable"; "toString"; "valueOf"; "__proto__";
    "toLocaleString" ].

Fixpoint own_property (unit : string) (o : list (string * number))
  : option number :=
  match o with
  | [] => None
  | (k, v) :: o' => if String.eqb k unit then Some v else own_property unit o'
  end.

(** [unit in abs2PX]: the operator [in] finds inherited properties too. *)
Definition in_abs2PX (unit : string) : bool :=
  match own_property unit abs2PX with
  | Some _ => true
  | None => includes object_prototype_keys unit
  end.

(** [abs2PX[unit]] as a factor of a product: an own property is its number;
    an inherited one is a function or an object, and a missing one is
    [undefined], which are [NaN] as numbers. *)
Definition abs2PX_factor (unit : string) : number :=
  match own_property unit abs2PX with
  | Some x => x
  | None => NaN
  end.

Definition relUnits : list string :=
  [ "em"; "ex"; "ch"; "rem"; "lh"; "rlh"; "vw"; "vh"; "vmin"; "vmax"; "vb";
    "vi"; "svw"; "svh"; "lvw"; "lvh"; "dvw"; "dvh" ].

Definition relUnits_has (unit : string) : bool := includes relUnits unit.

(** [dimValid(dim)], on the string that [exec] makes of its argument. *)
Definition dimValid (dim : string) : bool :=
  match dimRegex_exec dim with
  | Some (_, unit) => in_abs2PX unit || relUnits_has unit
  | None => false
  end.

(** [pandocDimValid(dim)] *)
Definition pandocDimValid (dim : string) : bool :=
  match dimRegex_exec dim with
  | Some (_, unit) => includes ["px"; "cm"; "mm"; "in"; "inch"; "%"] unit
  | None => false
  end.

(** [applyWidthHeight] *)
Definition applyWidthHeight (svgDOM : element) (width height : string)
  : element :=
  setAttribute (setAttribute svgDOM "width" width) "height" height.

(** The factor that [resize] multiplies by: [1] when [scaleFactor] is
    [undefined]. *)
Definition effective_scaleFactor (d : dimObj) : number :=
  match scaleFactor d with
  | None => literal 1 0
  | Some v => ToNumber v
  end.

(** [resize]; the result is the tree under [svgDOM.querySelector('svg')]
    after the call. *)
Definition resize (svgDOM : element) (d : dimObj) : exc element :=
  let scaleFactor := effective_scaleFactor d in
  let svgWidthStr := string_of_nullable (getAttribute svgDOM "width") in
  let svgHeightStr := string_of_nullable (getAttribute svgDOM "height") in
  if negb (dimValid svgWidthStr) || negb (dimValid svgHeightStr) then
    ret svgDOM
  else
    w <- groups (dimRegex_exec svgWidthStr) ;;
    h <- groups (dimRegex_exec svgHeightStr) ;;
    let svgWidthUnit := snd w in
    let svgWidthVal := Number (fst w) in
    let svgHeightUnit := snd h in
    let svgHeightVal := Number (fst h) in
    if relUnits_has svgWidthUnit || relUnits_has svgHeightUnit then
      let newSVGwidthStr :=
        to_string (Utils.round (mul scaleFactor svgWidthVal))
          ++ svgWidthUnit in
      let newSVGheightStr :=
        to_string (Utils.round (mul scaleFactor svgHeightVal))
          ++ svgHeightUnit in
      ret (applyWidthHeight svgDOM newSVGwidthStr newSVGheightStr)
    else
      let svgWidthInPX :=
        Utils.round (mul svgWidthVal (abs2PX_factor svgWidthUnit)) in
      let svgHeightInPX :=
        Utils.round (mul svgHeightVal (abs2PX_factor svgHeightUnit)) in
      let aspectRatio := div svgWidthInPX svgHeightInPX in
      match width d, height d with
      | None, None =>
          let newSVGwidthStr :=
            to_string
              (Utils.round (div (mul scaleFactor svgWidthInPX) (literal 16 0)))
              ++ "em" in
          let newSVGheightStr :=
            to_string
              (Utils.round (div (mul scaleFactor svgHeightInPX) (literal 16 0)))
              ++ "em" in
          ret (applyWidthHeight svgDOM newSVGwidthStr newSVGheightStr)
      | None, Some height =>
          if negb (pandocDimValid height) then ret svgDOM
          else
            let height := replace_first "inch" "in" height in
            let newSVGheightStr := height in
            heightMatch <- groups (dimRegex_exec height) ;;
            let newSVGwidthStr :=
              to_string
                (Utils.round (mul (Number (fst heightMatch)) aspectRatio))
                ++ snd heightMatch in
            ret (applyWidthHeight svgDOM newSVGwidthStr newSVGheightStr)
      | Some width, None =>
          if negb (pandocDimValid width) then ret svgDOM
          else
            let width := replace_first "inch" "in" width in
            let newSVGwidthStr := width in
            widthMatch <- groups (dimRegex_exec width) ;;
            let newSVGheightStr :=
              to_string
                (Utils.round (div (Number (fst widthMatch)) aspectRatio))
                ++ snd widthMatch in
            ret (applyWidthHeight svgDOM newSVGwidthStr newSVGheightStr)
      | Some width, Some height =>
          if negb (pandocDimValid width) || negb (pandocDimValid height) then
            ret svgDOM
          else
            let width := replace_first "inch" "in" width in
            let height := replace_first "inch" "in" height in
            ret (applyWidthHeight svgDOM width height)
      end.

End Resize.

(* ================================================================== *)
(** * The passes over the shared tree *)
(* ================================================================== *)

Module Pipeline.

(** The passes of the pipeline and the stages of the optimizer. *)
Inductive pass : Type :=
| Resizer
| Minification
| TranslationFolding
| RunFolding
| TextConverter
| CompatibilityRewrite.

Definition pass_eqb (p q : pass) : bool :=
  match p, q with
  | Resizer, Resizer
  | Minification, Minification
  | TranslationFolding, TranslationFolding
  | RunFolding, RunFolding
  | TextConverter, TextConverter
  | CompatibilityRewrite, CompatibilityRewrite => true
  | _, _ => false
  end.

(** The tree that the passes mutate, and the record of the calls made so
    far: each pass with the tree it was given. *)
Record state : Type := {
  svgDOM : element;
  calls : list (pass * element)
}.

(** A computation on the shared tree that can throw. *)
Definition pipeline (A : Type) : Type := state -> exc A * state.

Definition ret {A : Type} (a : A) : pipeline A := fun st => (inr a, st).

Definition bind {A B : Type} (c : pipeline A) (k : A -> pipeline B)
  : pipeline B :=
  fun st =>
    match c st with
    | (inl e, st') => (inl e, st')
    | (inr a, st') => k a st'
    end.

(** The call of the pass [p], which leaves the tree [f t] for the tree [t],
    or throws. *)
Definition call (p : pass) (f : element -> exc element) : pipeline unit :=
  fun st =>
    let st' := {| svgDOM := svgDOM st;
                  calls := calls st ++ [(p, svgDOM st)] |} in
    match f (svgDOM st) with
    | inl e => (inl e, st')
    | inr t => (inr tt, {| svgDOM := t; calls := calls st' |})
    end.

(** The tree at this point. *)
Definition get : pipeline element := fun st => (inr (svgDOM st), st).

(** A mutation of the tree by the code between the passes. *)
Definition modify (f : element -> element) : pipeline unit :=
  fun st => (inr tt, {| svgDOM := f (svgDOM st); calls := calls st |}).

(** An exception of the code between the passes. *)
Definition lift {A : Type} (c : exc A) : pipeline A := fun st => (c, st).

Definition run {A : Type} (c : pipeline A) (t : element) : exc A * state :=
  c {| svgDOM := t; calls := [] |}.

(** The passes called, in order. *)
Definition passes (st : state) : list pass := map fst (calls st).

(** The tree that the first call of [p] was given. *)
Fixpoint consumed_by (p : pass) (cs : list (pass * element))
  : option element :=
  match cs with
  | [] => None
  | (q, t) :: cs' => if pass_eqb p q then Some t else consumed_by p cs'
  end.

End Pipeline.

Declare Scope pipe_scope.
Delimit Scope pipe_scope with pipe.
Notation "x <- c ;; k" := (Pipeline.bind c (fun x => k))
  (at level 61, c at next level, right associativity) : pipe_scope.
Notation "c ;;; k" := (Pipeline.bind c (fun _ => k))
  (at level 61, right associativity) : pipe_scope.

(* ================================================================== *)
(** * lib/optimize.js *)
(* ================================================================== *)

Module Optimize.

(** [svgo] *)
Definition svgo (env : Env) (svgString : string) (pretty : bool) : string :=
  svgoOptimize env svgString pretty.

(** [translateRegex] matched at the start of [s]: the groups [x] and [y],
    and what follows the match.  The classes of the expression exclude one
    another, so each of its parts takes the longest run it can. *)
Definition translateRegex_here (s : string)
  : option (string * string * string) :=
  match strip_prefix "translate(" (trim_start s) with
  | Some r =>
      let (x, r1) := span is_minus_digit_or_dot r in
      let (ws, r2) := span is_space r1 in
      if is_empty ws then None
      else
        let (y, r3) := span is_minus_digit_or_dot r2 in
        match r3 with
        | String ")" r4 => Some (x, y, trim_start r4)
        | _ => None
        end
  | None => None
  end.

(** [translateRegex.exec(s)]: the leftmost match; what precedes it, the
    groups [x] and [y], and what follows it. *)
Fixpoint translateRegex_exec (s : string)
  : option (string * string * string * string) :=
  match translateRegex_here s with
  | Some (x, y, after) => Some (EmptyString, x, y, after)
  | None =>
      match s with
      | EmptyString => None
      | String c s' =>
          match translateRegex_exec s' with
          | Some (before, x, y, after) => Some (String c before, x, y, after)
          | None => None
          end
      end
  end.

(** [hasXY] *)
Definition hasXY (elt : element) : bool :=
  hasAttribute elt "x" && hasAttribute elt "y".

(** [allChildrenHaveXY] *)
Definition allChildrenHaveXY (children : list element) : bool :=
  List.forallb hasXY children.

(** [Number(elt.getAttribute(name))]; [Number(null)] is [0]. *)
Definition Number_of_attribute (elt : element) (name : string) : number :=
  match getAttribute elt name with
  | Some v => Number v
  | None => S754_zero false
  end.

(** [applyTranslation] *)
Definition applyTranslation (deltaX deltaY : number) (elt : element)
  : element :=
  let x := Number_of_attribute elt "x" in
  let y := Number_of_attribute elt "y" in
  let newX := add x deltaX in
  let newY := add y deltaY in
  setAttribute
    (setAttribute elt "x" (to_string (Utils.round newX)))
    "y" (to_string (Utils.round newY)).

(** The translation that the callback of [removeTranslations] folds into
    [elt]: [deltaX], [deltaY] and [newTransform]; [None] when [elt] is left
    as it is. *)
Definition translation_of (elt : element)
  : option (number * number * string) :=
  match getAttribute elt "transform" with
  | Some transform =>
      match translateRegex_exec transform with
      | Some (before, x, y, after) =>
          if hasXY elt && allChildrenHaveXY (children elt)
          then Some (Number x, Number y, before ++ after)
          else None
      | None => None
      end
  | None => None
  end.

Definition apply_pending (pending : option (number * number))
           (elt : element) : element :=
  match pending with
  | Some (deltaX, deltaY) => applyTranslation deltaX deltaY elt
  | None => elt
  end.

Definition set_transform (elt : element) (newTransform : string) : element :=
  if (String.length newTransform =? 0)%nat
  then removeAttribute elt "transform"
  else setAttribute elt "transform" newTransform.

(** The callback of [removeTranslations] on [elt], after the callback on the
    parent has applied the translation [pending] to its children, when it
    has: the element as it is left, and the translation that is applied to
    its children, when one is. *)
Definition fold_translation (pending : option (number * number))
           (elt : element) : element * option (number * number) :=
  let elt := apply_pending pending elt in
  match translation_of elt with
  | Some (deltaX, deltaY, newTransform) =>
      (set_transform (applyTranslation deltaX deltaY elt) newTransform,
       Some (deltaX, deltaY))
  | None => (elt, None)
  end.

(** The loop of [removeTranslations] over the elements with a [transform],
    in document order: an element is reached after its parent. *)
Fixpoint removeTranslations_node (pending : option (number * number))
         (n : node) : node :=
  match n with
  | Elem (El t a s cs) =>
      let (elt, delta) := fold_translation pending (El t a s cs) in
      Elem (set_childNodes elt (map (removeTranslations_node delta) cs))
  | _ => n
  end.

(** [removeTranslations] *)
Definition removeTranslations (svgDOM : element) : element :=
  match removeTranslations_node None (Elem svgDOM) with
  | Elem e => e
  | _ => svgDOM
  end.

Definition nullable_eqb (a b : option string) : bool :=
  match a, b with
  | Some x, Some y => String.eqb x y
  | None, None => true
  | _, _ => false
  end.

(** The callback of [optimizeTspan] on the attributes and the style of
    [node], whose parent is [parentNode]. *)
Definition strip_tspan (parentNode node : element) : element :=
  let node :=
    if nullable_eqb (getAttribute node "x") (getAttribute parentNode "x")
       && nullable_eqb (getAttribute node "y") (getAttribute parentNode "y")
    then removeAttribute (removeAttribute node "x") "y"
    else node in
  let stylesToBeRemoved :=
    filter
      (fun prop =>
         String.eqb (getPropertyValue (style_attr node) prop)
                    (getPropertyValue (style_attr parentNode) prop)
         && String.eqb (getPropertyPriority (style_attr node) prop)
                       (getPropertyPriority (style_attr parentNode) prop))
      (map d_property (declarations (style_attr node))) in
  let node :=
    fold_left
      (fun n prop => set_style_attr n (removeProperty (style_attr n) prop))
      stylesToBeRemoved node in
  if (List.length (declarations (style_attr node)) =? 0)%nat
  then removeStyleAttribute node
  else node.

(** The loop of [optimizeTspan] over the [tspan] elements, in document
    order.  [parentNode] is the parent as the callback has left it.  The
    descendants of a [tspan] that has been replaced by its content are no
    longer in the document. *)
Fixpoint optimizeTspan_node (parentNode : element) (n : node) : node :=
  match n with
  | Elem (El t a s cs) =>
      if String.eqb t "tspan" then
        let node := strip_tspan parentNode (El t a s cs) in
        if negb (hasAttributes node) then Text (innerHTML node)
        else Elem (set_childNodes node (map (optimizeTspan_node node) cs))
      else
        Elem (El t a s (map (optimizeTspan_node (El t a s cs)) cs))
  | _ => n
  end.

(** [optimizeTspan] *)
Definition optimizeTspan (svgDOM : element) : element :=
  set_childNodes svgDOM
    (map (optimizeTspan_node svgDOM) (childNodes_of svgDOM)).

(** The assignment to [outerHTML] in [main], and the tree under
    [svgDOM.querySelector('svg')] after it. *)
Definition minify (env : Env) (pretty : bool) (svgDOM : element) : element :=
  let svgString := svgo env (Utils.serialize env svgDOM) pretty in
  parseDocument env svgString.

(** [main] *)
Definition main (env : Env) (pretty : bool) : Pipeline.pipeline unit :=
  (Pipeline.call Pipeline.Minification
     (fun svgDOM => Exc.ret (minify env pretty svgDOM)) ;;;
   Pipeline.call Pipeline.TranslationFolding
     (fun svgDOM => Exc.ret (removeTranslations svgDOM)) ;;;
   Pipeline.call Pipeline.RunFolding
     (fun svgDOM => Exc.ret (optimizeTspan svgDOM)))%pipe.

End Optimize.

(* ================================================================== *)
(** * lib/svg2to11.js *)
(* ================================================================== *)

Module Svg2to11.

(** The callback of [svg2to11] on the style of an element. *)
Definition rewrite_context_stroke (s : option css) : option css :=
  let s :=
    if String.eqb (getPropertyValue s "fill") "context-stroke"
    then setProperty s "fill" "#000" else s in
  if String.eqb (getPropertyValue s "stroke") "context-stroke"
  then setProperty s "stroke" "#000" else s.

(** The loop of [svg2to11] over the elements that [marker [style]] selects:
    those with a [style] attribute below a [marker] element. *)
Fixpoint svg2to11_node (in_marker : bool) (n : node) : node :=
  match n with
  | Elem (El t a s cs) =>
      let s' :=
        match s with
        | Some _ => if in_marker then rewrite_context_stroke s else s
        | None => None
        end in
      Elem (El t a s'
              (map (svg2to11_node (in_marker || String.eqb t "marker")) cs))
  | _ => n
  end.

(** [svg2to11] *)
Definition svg2to11 (svgDOM : element) : element :=
  match svg2to11_node false (Elem svgDOM) with
  | Elem e => e
  | _ => svgDOM
  end.

End Svg2to11.

(* ================================================================== *)
(** * lib/text2foreignObject.js *)
(* ================================================================== *)

Module Text2ForeignObject.

(** The group [size] of the first match of a run of digits and dots that
    [px] follows. *)
Fixpoint size_exec (fontSize : string) : option string :=
  match fontSize with
  | EmptyString => None
  | String _ s' =>
      let (size, rest) := span is_digit_or_dot fontSize in
      if negb (is_empty size) && startsWith rest "px" then Some size
      else size_exec s'
  end.

(** [f] applied to the first element of a list of nodes. *)
Fixpoint on_first_element (f : element -> element) (ns : list node)
  : list node :=
  match ns with
  | [] => []
  | Elem e :: ns' => Elem (f e) :: ns'
  | n :: ns' => n :: on_first_element f ns'
  end.

Definition on_elements (f : element -> element) (ns : list node)
  : list node :=
  map (fun n => match n with Elem e => Elem (f e) | _ => n end) ns.

(** [value && elt.style.setProperty(prop, value)] *)
Definition setProperty_if (elt : element) (prop value : string) : element :=
  if is_empty value then elt else style_setProperty elt prop value.

(** The [font-size] that the block gets: [16px] when the text has none. *)
Definition fontSize_of (textElt : element) : string :=
  let fontSize := style_getPropertyValue textElt "font-size" in
  if is_empty fontSize then "16px" else fontSize.

(** The [<foreignObject>] with the attributes and the style that the
    callback gives it from [textElt], before it gets its content.  The
    [color] is kept as the [fill] was given: what the style object makes of
    a colour when it is set is not part of the model, and no property below
    is about the value of [color]. *)
Definition new_foreignObject (textElt : element) : element :=
  let foreignObject := El "foreignObject" [] None [] in
  let foreignObject :=
    setAttribute foreignObject "x"
      (string_of_nullable (getAttribute textElt "x")) in
  let foreignObject :=
    setAttribute foreignObject "y"
      (string_of_nullable (getAttribute textElt "y")) in
  let textWidth := style_getPropertyValue textElt "inline-size" in
  let foreignObjectWidth :=
    if is_empty textWidth then "1000" else textWidth in
  let foreignObject :=
    setAttribute foreignObject "width" foreignObjectWidth in
  let foreignObject := setAttribute foreignObject "height" "1" in
  let foreignObject := setAttribute foreignObject "overflow" "visible" in
  let foreignObject :=
    match getAttribute textElt "transform" with
    | Some transform =>
        if is_empty transform then foreignObject
        else setAttribute foreignObject "transform" transform
    | None => foreignObject
    end in
  let foreignObject :=
    style_setProperty foreignObject "font-size" (fontSize_of textElt) in
  let foreignObject :=
    setProperty_if foreignObject "font-family"
      (style_getPropertyValue textElt "font-family") in
  let foreignObject :=
    setProperty_if foreignObject "color"
      (style_getPropertyValue textElt "fill") in
  setProperty_if foreignObject "opacity"
    (style_getPropertyValue textElt "opacity").

(** [xTimesFontSize]: 20 times the size, rounded up, in [px]; reading
    [groups] throws when the font size has no size in [px]. *)
Definition xTimesFontSize_of (fontSize : string) : exc string :=
  let multFactor := of_Z 20 in
  size <- groups (size_exec fontSize) ;;
  ret (to_string (ceil (mul multFactor (Number size))) ++ "px").

(** The empty [<span>] of the baseline compensation. *)
Definition baseline_span (xTimesFontSize : string) : element :=
  let span := El "span" [] None [] in
  let span := style_setProperty span "height" xTimesFontSize in
  style_setProperty span "display" "inline-block".

(** The baseline compensation on the first child of the block. *)
Definition compensate_baseline (xTimesFontSize : string) (child : element)
  : element :=
  style_setProperty
    (set_childNodes child
       (Elem (baseline_span xTimesFontSize) :: childNodes_of child))
    "margin-top" ("-" ++ xTimesFontSize).

(** [translateX] and [textAlign] for a [text-anchor]. *)
Definition anchor_shift (textAnchor : string) : Z * string :=
  if String.eqb textAnchor "middle" then ((-50)%Z, "center")
  else if String.eqb textAnchor "end" then ((-100)%Z, "end")
  else (0%Z, "start").

(** The shift of one child of the block. *)
Definition translate_child (translateX : Z) (child : element) : element :=
  style_setProperty child "transform"
    ("translateX(" ++ to_string (of_Z translateX) ++ "%)").

(** The anchor compensation: the loop over the children of the block. *)
Definition compensate_anchor (textElt foreignObject : element) : element :=
  let '(translateX, textAlign) :=
    anchor_shift (style_getPropertyValue textElt "text-anchor") in
  if (translateX =? 0)%Z then foreignObject
  else
    match children foreignObject with
    | [] => foreignObject
    | _ :: _ =>
        style_setProperty
          (set_childNodes foreignObject
             (on_elements (translate_child translateX)
                          (childNodes_of foreignObject)))
          "text-align" textAlign
    end.

(** The callback of [text2foreignObject] on one [<text>] element: [None]
    when the element is removed, the [<foreignObject>] that replaces it
    otherwise. *)
Definition convert (env : Env) (textElt : element) : exc (option element) :=
  let textElt := Utils.flattenTextChildren textElt in
  let markdown := innerHTML textElt in
  if (String.length markdown =? 0)%nat then ret None
  else
    let html := Utils.md2html env markdown in
    let foreignObject :=
      set_childNodes (new_foreignObject textElt) (parseFragment env html) in
    xTimesFontSize <- xTimesFontSize_of (fontSize_of textElt) ;;
    match children foreignObject with
    | [] =>
        throw (TypeError "Cannot read properties of undefined (reading 'prepend')")
    | _ :: _ =>
        let foreignObject :=
          set_childNodes foreignObject
            (on_first_element (compensate_baseline xTimesFontSize)
                              (childNodes_of foreignObject)) in
        ret (Some (compensate_anchor textElt foreignObject))
    end.

(** The callback on the [<text>] elements of a subtree that is no longer
    part of the document, where it can only throw: the elements that were
    below a [<text>] element when the loop started. *)
Fixpoint detached (env : Env) (n : node) : exc unit :=
  match n with
  | Elem (El t a s cs) =>
      (if String.eqb t "text"
       then convert env (El t a s cs) ;;; ret tt
       else ret tt) ;;;
      for_each (detached env) cs
  | _ => ret tt
  end.

(** The loop of [text2foreignObject] over the [<text>] elements, in
    document order: the nodes that take the place of [n]. *)
Fixpoint text2foreignObject_node (env : Env) (n : node) : exc (list node) :=
  match n with
  | Elem (El t a s cs) =>
      if String.eqb t "text" then
        r <- convert env (El t a s cs) ;;
        for_each (detached env) cs ;;;
        ret (match r with
             | Some foreignObject => [Elem foreignObject]
             | None => []
             end)
      else
        cs' <- map_exc (text2foreignObject_node env) cs ;;
        ret [Elem (El t a s (List.concat cs'))]
  | _ => ret [n]
  end.

(** [text2foreignObject] *)
Definition text2foreignObject (env : Env) (svgDOM : element) : exc element :=
  cs' <- map_exc (text2foreignObject_node env) (childNodes_of svgDOM) ;;
  ret (set_childNodes svgDOM (List.concat cs')).

End Text2ForeignObject.

(* ================================================================== *)
(** * lib/filter.js *)
(* ================================================================== *)

Module Filter.

Import Pipeline Resize.
Local Open Scope pipe_scope.

(** What the filter returns: [undefined], an AST element, or a raw element
    with its format and its text. *)
Inductive result : Type :=
| Undefined
| Element (elt : astElement)
| RawBlock (format text : string)
| RawInline (format text : string).

(** The value that [Object.fromEntries] gives the key [key]: the one of
    its last entry. *)
Definition fromEntries_get (key : string) (entries : list (string * string))
  : option string :=
  fold_left
    (fun acc (kv : string * string) =>
       if String.eqb (fst kv) key then Some (snd kv) else acc)
    entries None.

Definition is_dim_key (kv : string * string) : bool :=
  String.eqb (fst kv) "width" || String.eqb (fst kv) "height".

Definition is_scale_factor_key (kv : string * string) : bool :=
  String.eqb (fst kv) "scale-factor".

(** The part [Resize SVG?] of [filter]: the classes and the key/value pairs
    that are left. *)
Definition resize_svg (classes : list string)
           (keyvals : list (string * string))
  : pipeline (list string * list (string * string)) :=
  let dimKeyvals := List.filter is_dim_key keyvals in
  let keyvals := List.filter (fun kv => negb (is_dim_key kv)) keyvals in
  if negb (List.length dimKeyvals =? 0)%nat then
    let dimObj :=
      {| scaleFactor := None;
         width := fromEntries_get "width" dimKeyvals;
         height := fromEntries_get "height" dimKeyvals |} in
    call Resizer (fun svgDOM => resize svgDOM dimObj) ;;;
    ret (classes, keyvals)
  else if negb (includes classes "keep-size") then
    let scaleFactor := fromEntries_get "scale-factor" keyvals in
    let keyvals :=
      List.filter (fun kv => negb (is_scale_factor_key kv)) keyvals in
    call Resizer
      (fun svgDOM =>
         resize svgDOM
           {| scaleFactor := option_map VString scaleFactor;
              width := None; height := None |}) ;;;
    ret (classes, keyvals)
  else
    ret (remove_first "keep-size" classes, keyvals).

(** The passes of [filter] for the format [html]. *)
Definition html_passes (env : Env) : pipeline unit :=
  Optimize.main env false ;;;
  call TextConverter (Text2ForeignObject.text2foreignObject env) ;;;
  call CompatibilityRewrite
    (fun svgDOM => Exc.ret (Svg2to11.svg2to11 svgDOM)).

(** The opening tag of the [<figure>] and the line feed after it. *)
Definition figure_open (id : string) (classes : list string)
           (html5Keyvals : list (string * string)) : string :=
  let kvStr :=
    map (fun kv : string * string =>
           fst kv ++ "=" ++ dquote ++ snd kv ++ dquote)
        html5Keyvals in
  "<figure id=" ++ id ++ " class=" ++ dquote ++ join " " classes ++ dquote
    ++ " " ++ join " " kvStr ++ ">" ++ LF.

(** [filter] from [Resize SVG?] on, for an image that is loaded.  The
    assignment to [svgDOM.className] sets a property of the document, which
    is no part of the tree; the keys of the pairs are taken to be names
    that [setAttribute] accepts. *)
Definition process (env : Env) (format : string) (figure : bool) (a : attr)
           (caption : list inline) : pipeline result :=
  let '(id, classes, keyvals) := a in
  ck <- resize_svg classes keyvals ;;
  let '(classes, keyvals) := ck in
  if String.eqb format "html" then
    html_passes env ;;;
    let html5Keyvals := Utils.toHTML5keyvals env keyvals in
    if figure then
      svgDOM <- get ;;
      let svgString := Utils.serialize env svgDOM in
      captionHTML <- lift (Utils.ast2html env caption) ;;
      let svgString :=
        figure_open id classes html5Keyvals
          ++ "  " ++ svgString ++ LF
          ++ "  <figcaption aria-hidden=" ++ dquote ++ "true" ++ dquote ++ ">"
          ++ captionHTML ++ "</figcaption>" ++ LF
          ++ "</figure>" in
      ret (RawBlock "html" svgString)
    else
      (if negb (String.length id =? 0)%nat
       then modify (fun svgDOM => setAttribute svgDOM "id" id)
       else ret tt) ;;;
      modify
        (fun svgDOM =>
           fold_left
             (fun elt (kv : string * string) =>
                setAttribute elt (fst kv) (snd kv))
             html5Keyvals svgDOM) ;;;
      svgDOM <- get ;;
      ret (RawInline "html" (Utils.serialize env svgDOM))
  else ret Undefined.

(** What [filter] does before it loads the tree: it returns, or it goes on
    with the image of the element. *)
Inductive prelude : Type :=
| Return (r : result)
| Load (figure : bool) (a : attr) (caption : list inline)
       (target : string * string).

Definition filter_prelude (elt : astElement) (format : string)
  : exc prelude :=
  (if negb (Utils.compatibleOutputFormat format) then Exc.ret (Return Undefined)
   else
     let format := if String.eqb format "pdf" then "latex" else format in
     validASTElement <-
       (if String.eqb format "html"
        then if Utils.isImage elt then Exc.ret true else Utils.isFigure elt
        else Exc.ret (Utils.isImage elt)) ;;
     if negb validASTElement then Exc.ret (Return Undefined)
     else
       figure <- Utils.isFigure elt ;;
       match elt, figure with
       | ImageElement a caption target, _ =>
           Exc.ret (Load figure a caption target)
       | ParaElement (Image a caption target :: _), true =>
           Exc.ret (Load figure a caption target)
       | _, _ => Exc.ret (Return Undefined)
       end)%exc.

(** [filter]: what it returns or throws, and the passes it has called. *)
Definition filter (env : Env) (elt : astElement) (format : string)
  : exc result * list (pass * element) :=
  match filter_prelude elt format with
  | inl e => (inl e, [])
  | inr (Return r) => (inr r, [])
  | inr (Load figure a caption (fname, title)) =>
      let '(id, classes, keyvals) := a in
      if negb (Utils.isSVG fname) then (inr Undefined, [])
      else if includes classes "ignore" then
        let classes := remove_first "ignore" classes in
        let image := Image (id, classes, keyvals) caption (fname, title) in
        (inr (Element
                (if figure then ParaElement [image]
                 else ImageElement (id, classes, keyvals) caption
                                   (fname, title))),
         [])
      else
        match Utils.loadSVG env fname with
        | None => (inr Undefined, [])
        | Some svgString =>
            if is_empty svgString then (inr Undefined, [])
            else
              let format := if String.eqb format "pdf" then "latex" else format in
              let (r, st) :=
                run (process env format figure a caption)
                    (Utils.createDOM env svgString) in
              (r, calls st)
        end
  end.

End Filter.

(* ================================================================== *)
(** * The validity of the specification *)
(* ================================================================== *)

Import Resize Optimize Svg2to11 Text2ForeignObject Filter.

Module Spec.

(** The units of section 3 of the specification that have a fixed factor to
    pixels; they are the own keys of [abs2PX]. *)
Definition absolute_units : list string := map fst abs2PX.

(** The grammar that section 4.1 of the specification gives for a valid
    value: one or more digits, then possibly a dot and one or more digits,
    then a unit of letters and percent signs up to the end. *)
Definition spec_dimRegex_exec (s : string) : option (string * string) :=
  let (int_part, r) := span is_digit s in
  if is_empty int_part then None
  else
    let '(val, unit) :=
      match r with
      | String "." r' =>
          let (frac_part, u) := span is_digit r' in
          if is_empty frac_part then (int_part, r)
          else (int_part ++ "." ++ frac_part, u)
      | _ => (int_part, r)
      end in
    if forallb is_alpha_or_percent unit then Some (val, unit) else None.

(** The validity of section 4.1: the grammar, and a unit that is a
    recognized absolute or relative unit. *)
Definition spec_dimValid (s : string) : bool :=
  match spec_dimRegex_exec s with
  | Some (_, unit) => includes absolute_units unit || includes relUnits unit
  | None => false
  end.

End Spec.

(* ================================================================== *)
(** * Notions of the statements *)
(* ================================================================== *)

(** The unit that [dimRegex] reads in a dimension. *)
Definition unit_of (dim : string) : string :=
  match dimRegex_exec dim with
  | Some (_, unit) => unit
  | None => ""
  end.

(** The root has a valid [width] and a valid [height], and neither of them
    has a relative unit: [resize] gets past its first two returns. *)
Definition sized_in_absolute_units (svgDOM : element) : bool :=
  let w := string_of_nullable (getAttribute svgDOM "width") in
  let h := string_of_nullable (getAttribute svgDOM "height") in
  dimValid w && dimValid h
  && negb (relUnits_has (unit_of w)) && negb (relUnits_has (unit_of h)).

(** The content is exactly one equation: a [$], one or more characters
    that are no [$], and a [$]. *)
Definition single_equation (s : string) : Prop :=
  exists body,
    s = "$" ++ body ++ "$" /\ body <> ""
    /\ forallb (fun c => negb (Ascii.eqb c "$")) body = true.

(** The [font-size] of the last of the elements [cs] that has one, and
    [own] when none of them has. *)
Definition last_font_size (cs : list element) (own : string) : string :=
  fold_left
    (fun acc child =>
       let fontSize := style_getPropertyValue child "font-size" in
       if is_empty fontSize then acc else fontSize)
    cs own.

(** The step of the loop of [flattenTextChildren] on the style. *)
Definition promote (s : option css) (child : element) : option css :=
  let fontSize := style_getPropertyValue child "font-size" in
  if is_empty fontSize then s else setProperty s "font-size" fontSize.

(** The string holds a number that [px] follows at once: a run of digits
    and dots, and [px]. *)
Definition has_px_size (s : string) : Prop :=
  exists a run b,
    s = a ++ run ++ "px" ++ b /\ run <> ""
    /\ forallb is_digit_or_dot run = true.

(** [e] is the element of [n], or an element below it. *)
Inductive occurs (e : element) : node -> Prop :=
| occurs_here : occurs e (Elem e)
| occurs_below t a s cs c :
    In c cs -> occurs e c -> occurs e (Elem (El t a s cs)).

(** [e] is an element below the root [svgDOM]. *)
Definition occurs_below_root (e svgDOM : element) : Prop :=
  exists c, In c (childNodes_of svgDOM) /\ occurs e c.

(** Collaborators for the examples: every file holds a document that is
    parsed to [root], every markup is parsed to [fragment], SVGO returns
    what it is given, and pandoc prints nothing. *)
Definition fixture (root : element) (fragment : list node) : Env :=
  {| readFileSync := fun _ => Some "<svg></svg>";
     parseDocument := fun _ => root;
     parseFragment := fun _ => fragment;
     serializeToString := fun e => outerHTML_node (Elem e);
     svgoOptimize := fun svgString _ => svgString;
     execSync := fun _ _ => "";
     stringifyCaption := fun _ => "";
     html5attrs_has := fun _ => false |}.

(** A computation that calls no pass. *)
Definition no_calls {A : Type} (c : Pipeline.pipeline A) : Prop :=
  forall st, Pipeline.calls (snd (c st)) = Pipeline.calls st.

(** A decimal number among the runs of digits and dots, as [Number] reads
    one: digits with one dot at most among them, before, between or after
    them, and one digit at least. *)
Definition decimal_number (val : string) : bool :=
  let (int_part, r) := span is_digit val in
  match r with
  | EmptyString => negb (is_empty int_part)
  | String c frac_part =>
      Ascii.eqb c "." && forallb is_digit frac_part
      && (negb (is_empty int_part) || negb (is_empty frac_part))
  end.

(** The string holds no [$]. *)
Definition no_dollar (s : string) : bool :=
  forallb (fun c => negb (Ascii.eqb c "$")) s.

(** The string holds no line terminator. *)
Definition one_line (s : string) : bool :=
  forallb (fun c => negb (is_line_terminator c)) s.

(** What [md2html] puts before and after an equation. *)
Definition math_span_open : string :=
  "<p><span class=" ++ dquote ++ "math inline" ++ dquote ++ ">".
Definition math_span_close : string := "</span></p>".

(** What a child node of a [<text>] gives to the content of the element
    after the flattening: the content of an element, as text, and the node
    itself otherwise. *)
Definition flattened_content (n : node) : string :=
  match n with
  | Elem child => escape_text (innerHTML child)
  | _ => outerHTML_node n
  end.

(** The number of a dimension: its group [val] as a number. *)
Definition value_of (dim : string) : number :=
  match dimRegex_exec dim with
  | Some (val, _) => Number val
  | None => NaN
  end.

(** A dimension in pixels, as [resize] computes [svgWidthInPX] and
    [svgHeightInPX]. *)
Definition in_px (dim : string) : number :=
  match dimRegex_exec dim with
  | Some (val, unit) => Utils.round (mul (Number val) (abs2PX_factor unit))
  | None => NaN
  end.

(** [aspectRatio] in [resize]. *)
Definition aspectRatio_of (svgDOM : element) : number :=
  div (in_px (string_of_nullable (getAttribute svgDOM "width")))
      (in_px (string_of_nullable (getAttribute svgDOM "height"))).

(** Every element of the tree of [n], [n] included, satisfies [p]. *)
Fixpoint every_element (p : element -> bool) (n : node) : bool :=
  match n with
  | Elem (El t a s cs) =>
      p (El t a s cs) && List.forallb (every_element p) cs
  | _ => true
  end.

Definition has_tag (t : string) (e : element) : bool :=
  String.eqb (tagName e) t.

(** The callback of [removeTranslations] folds a translation into [e]. *)
Definition folds (e : element) : bool :=
  match translation_of e with
  | Some _ => true
  | None => false
  end.

Definition is_position_attribute (kv : string * string) : bool :=
  String.eqb (fst kv) "x" || String.eqb (fst kv) "y"
  || String.eqb (fst kv) "transform".

(** [e'] is [e] but for its attributes [x], [y] and [transform]. *)
Definition same_but_position (e e' : element) : Prop :=
  tagName e' = tagName e /\ style_attr e' = style_attr e
  /\ childNodes_of e' = childNodes_of e
  /\ List.filter (fun kv => negb (is_position_attribute kv)) (attributes e')
     = List.filter (fun kv => negb (is_position_attribute kv)) (attributes e).

(** The tree without the attributes [x], [y] and [transform] of its
    elements. *)
Fixpoint without_position (n : node) : node :=
  match n with
  | Elem (El t a s cs) =>
      Elem (El t (List.filter (fun kv => negb (is_position_attribute kv)) a) s
               (map without_position cs))
  | _ => n
  end.

(** No element with a [style] attribute below a [marker] element has the
    [fill] or the [stroke] [context-stroke]; [in_marker] tells whether [n]
    is below a [marker]. *)
Fixpoint no_context_stroke (in_marker : bool) (n : node) : bool :=
  match n with
  | Elem (El t a s cs) =>
      match s with
      | Some _ =>
          negb in_marker
          || negb (String.eqb (getPropertyValue s "fill") "context-stroke")
             && negb (String.eqb (getPropertyValue s "stroke")
                                 "context-stroke")
      | None => true
      end
      && List.forallb
           (no_context_stroke (in_marker || String.eqb t "marker")) cs
  | _ => true
  end.

(** The attributes of the [<foreignObject>] that replaces [textElt]. *)
Definition block_attributes (textElt : element) : list (string * string) :=
  [ ("x", string_of_nullable (getAttribute textElt "x"));
    ("y", string_of_nullable (getAttribute textElt "y"));
    ("width",
     if is_empty (style_getPropertyValue textElt "inline-size") then "1000"
     else style_getPropertyValue textElt "inline-size");
    ("height", "1");
    ("overflow", "visible") ]
  ++ match getAttribute textElt "transform" with
     | Some transform =>
         if is_empty transform then [] else [("transform", transform)]
     | None => []
     end.

(** The string holds no white space. *)
Definition no_space (s : string) : bool :=
  forallb (fun c => negb (is_space c)) s.

(** The element has no [transform], or one without white space. *)
Definition transform_without_space (e : element) : bool :=
  match getAttribute e "transform" with
  | Some transform => no_space transform
  | None => true
  end.

(** [e] is the element of [n] or an element below it, and neither [e] nor
    an element above it in [n] has the tag [tag]. *)
Inductive occurs_outside (tag : string) (e : element) : node -> Prop :=
| outside_here : tagName e <> tag -> occurs_outside tag e (Elem e)
| outside_below t a s cs c :
    t <> tag -> In c cs -> occurs_outside tag e c ->
    occurs_outside tag e (Elem (El t a s cs)).

(** The element has no [style] attribute. *)
Definition unstyled (e : element) : bool :=
  match style_attr e with
  | None => true
  | Some _ => false
  end.

(** Collaborators for the examples with a caption: as [fixture], with a
    pandoc that prints [stdout]. *)
Definition fixture_printing (root : element) (stdout : string) : Env :=
  {| readFileSync := fun _ => Some "<svg></svg>";
     parseDocument := fun _ => root;
     parseFragment := fun _ => [];
     serializeToString := fun e => outerHTML_node (Elem e);
     svgoOptimize := fun svgString _ => svgString;
     execSync := fun _ _ => stdout;
     stringifyCaption := fun _ => "";
     html5attrs_has := fun _ => false |}.

(** An environment in which [inkscape --version] prints [stdout]. *)
Definition inkscape_prints (stdout : string) : Env :=
  {| readFileSync := fun _ => None;
     parseDocument := fun _ => El "svg" [] None [];
     parseFragment := fun _ => [];
     serializeToString := fun e => outerHTML_node (Elem e);
     svgoOptimize := fun svgString _ => svgString;
     execSync := fun _ _ => stdout;
     stringifyCaption := fun _ => "";
     html5attrs_has := fun _ => false |}.

(** The string does not start with a character that [p] accepts. *)
Definition stops (p : ascii -> bool) (s : string) : Prop :=
  match s with
  | String c _ => p c = false
  | EmptyString => True
  end.

(* ================================================================== *)
(** * Properties: strings *)
(* ================================================================== *)

Section StringFacts.

Variable p : ascii -> bool.

Lemma span_app (s : string) : fst (span p s) ++ snd (span p s) = s.
Proof.
  induction s as [|c s IH]; simpl; [reflexivity|].
  destruct (p c); [|reflexivity].
  destruct (span p s) as [a b]; simpl in *. now rewrite IH.
Qed.

Lemma span_forallb (s : string) : forallb p (fst (span p s)) = true.
Proof.
  induction s as [|c s IH]; simpl; [reflexivity|].
  destruct (p c) eqn:E; [|reflexivity].
  destruct (span p s) as [a b]; simpl in *. now rewrite E.
Qed.

(** A run of [p] followed by a string that does not start with [p] is what
    [span] cuts. *)
Lemma span_stop (a b : string) :
  forallb p a = true ->
  match b with String c _ => p c = false | EmptyString => True end ->
  span p (a ++ b) = (a, b).
Proof.
  induction a as [|c a IH]; simpl; intros Ha Hb.
  - destruct b as [|c b]; simpl; [reflexivity|]. now rewrite Hb.
  - apply andb_true_iff in Ha as [Hc Ha]. rewrite Hc.
    now rewrite (IH Ha Hb).
Qed.

End StringFacts.

Lemma forallb_append (p : ascii -> bool) (a b : string) :
  forallb p (a ++ b) = forallb p a && forallb p b.
Proof.
  induction a as [|c a IH]; simpl; [reflexivity|].
  now rewrite IH, andb_assoc.
Qed.

Lemma digits_or_dots (s : string) :
  forallb is_digit s = true -> forallb is_digit_or_dot s = true.
Proof.
  induction s as [|c s IH]; simpl; [trivial|]. intros H.
  apply andb_true_iff in H as [Hc H]. rewrite (IH H).
  unfold is_digit_or_dot. now rewrite Hc.
Qed.

Lemma is_empty_false (s : string) : is_empty s = false <-> s <> "".
Proof. destruct s; simpl; split; congruence. Qed.

Lemma includes_In (xs : list string) (x : string) :
  includes xs x = true <-> In x xs.
Proof.
  unfold includes. rewrite existsb_exists. split.
  - intros [y [Hy E]]. apply String.eqb_eq in E. now subst.
  - intros H. exists x. split; [assumption|apply String.eqb_refl].
Qed.

Lemma strip_prefix_app (pre s r : string) :
  strip_prefix pre s = Some r <-> s = pre ++ r.
Proof.
  revert s. induction pre as [|a pre IH]; intros s; simpl.
  - split; congruence.
  - destruct s as [|b s]; [split; discriminate|].
    destruct (Ascii.eqb_spec a b) as [->|N].
    + rewrite IH. split; congruence.
    + split; [discriminate|]. intros E. injection E. congruence.
Qed.

(* ================================================================== *)
(** * Properties: the Dimension Model (resize.js) *)
(* ================================================================== *)

Lemma own_property_In (unit : string) (o : list (string * number)) (x : number) :
  own_property unit o = Some x -> In unit (map fst o).
Proof.
  induction o as [|[k v] o IH]; simpl; [discriminate|].
  destruct (String.eqb_spec k unit) as [->|N]; intros H.
  - now left.
  - right. now apply IH.
Qed.

(** What [dimRegex] accepts. *)
Lemma dimRegex_exec_Some (s val unit : string) :
  dimRegex_exec s = Some (val, unit) <->
  s = val ++ unit /\ val <> ""
  /\ forallb is_digit_or_dot val = true
  /\ forallb (fun c => negb (is_digit_or_dot c)) unit = true.
Proof.
  unfold dimRegex_exec. split.
  - pose proof (span_app is_digit_or_dot s) as A.
    pose proof (span_forallb is_digit_or_dot s) as F.
    destruct (span is_digit_or_dot s) as [v u]; simpl in *.
    destruct (is_empty v) eqn:E; simpl; [discriminate|].
    destruct (forallb _ u) eqn:U; [|discriminate].
    intros H; injection H as <- <-.
    apply is_empty_false in E. auto.
  - intros (-> & N & F & U).
    rewrite span_stop; [| assumption |].
    + apply is_empty_false in N. now rewrite N, U.
    + destruct unit as [|c u]; [exact I|].
      simpl in U. apply andb_true_iff in U as [U _].
      now apply negb_true_iff in U.
Qed.

(** The recognized units hold no digit and no dot. *)
Lemma recognized_unit_shape (unit : string) :
  In unit Spec.absolute_units \/ In unit relUnits ->
  forallb (fun c => negb (is_digit_or_dot c)) unit = true
  /\ (in_abs2PX unit || relUnits_has unit) = true.
Proof.
  cbv [Spec.absolute_units abs2PX relUnits map fst].
  intros [H|H]; simpl in H;
    repeat (destruct H as [<-|H]; [split; vm_compute; reflexivity|]);
    contradiction.
Qed.

(** C4, as the claim states it, fails: [.5mm] has no digit before its dot,
    so the grammar of the specification rejects it, and the Dimension
    Model accepts it. *)
Lemma C4_counterexample :
  dimValid ".5mm" = true /\ Spec.spec_dimValid ".5mm" = false.
Proof. split; vm_compute; reflexivity. Qed.

Lemma decimal_number_shape (val : string) :
  decimal_number val = true ->
  val <> "" /\ forallb is_digit_or_dot val = true.
Proof.
  unfold decimal_number.
  pose proof (span_app is_digit val) as A.
  pose proof (span_forallb is_digit val) as F.
  destruct (span is_digit val) as [int_part r]; cbn [fst snd] in A, F.
  subst val. apply digits_or_dots in F. rewrite forallb_append, F.
  destruct r as [|c frac_part].
  - intros H. apply negb_true_iff, is_empty_false in H.
    split; [|reflexivity]. now destruct int_part.
  - intros H. apply andb_true_iff in H as [H _].
    apply andb_true_iff in H as [C D]. apply Ascii.eqb_eq in C. subst c.
    split; [now destruct int_part|].
    cbn [forallb andb]. now rewrite (digits_or_dots _ D).
Qed.

(** C4, amended: a dimension string whose leading run of digits and dots
    is a decimal number or is empty, and whose part after this run is not
    the name of a property that an object inherits, is accepted by the
    Dimension Model if and only if it is a decimal number, whose integer
    part may be missing, followed by a recognized absolute unit (none, px,
    cm, mm, in, pt, pc, Q) or relative unit (em, ex, ch, rem, lh, rlh, vw,
    vh, vmin, vmax, vb, vi, svw, svh, lvw, lvh, dvw, dvh).  The runs that
    are no number, with two dots or without a digit, are left out like the
    inherited names: the Dimension Model lets them through
    ([dimValid_malformed_number]). *)
Theorem C4_dimValid_grammar (s : string) :
  is_empty (fst (span is_digit_or_dot s))
  || decimal_number (fst (span is_digit_or_dot s)) = true ->
  ~ In (snd (span is_digit_or_dot s)) object_prototype_keys ->
  (dimValid s = true <->
   exists val unit,
     s = val ++ unit /\ decimal_number val = true
     /\ (In unit Spec.absolute_units \/ In unit relUnits)).
Proof.
  intros WF NP. unfold dimValid. split.
  - destruct (dimRegex_exec s) as [[val unit]|] eqn:E; [|discriminate].
    intros V. apply dimRegex_exec_Some in E as (-> & N & F & U).
    exists val, unit.
    assert (S : span is_digit_or_dot (val ++ unit) = (val, unit)).
    { apply span_stop; [assumption|].
      destruct unit as [|c u]; [exact I|].
      simpl in U. apply andb_true_iff in U as [U _].
      now apply negb_true_iff in U. }
    rewrite S in WF, NP. cbn [fst snd] in WF, NP.
    apply is_empty_false in N. rewrite N in WF. cbn [orb] in WF.
    repeat split; try assumption.
    apply orb_true_iff in V as [V|V].
    + unfold in_abs2PX in V.
      destruct (own_property unit abs2PX) eqn:O.
      * left. eapply own_property_In; eassumption.
      * apply includes_In in V. contradiction.
    + right. now apply includes_In.
  - intros (val & unit & -> & D & R).
    destruct (decimal_number_shape val D) as [N F].
    destruct (recognized_unit_shape unit R) as [U V].
    assert (E : dimRegex_exec (val ++ unit) = Some (val, unit))
      by (apply dimRegex_exec_Some; auto).
    now rewrite E.
Qed.

Lemma C4_dimValid_grammar_witness :
  dimValid "210mm" = true <->
  exists val unit,
    "210mm" = val ++ unit /\ decimal_number val = true
    /\ (In unit Spec.absolute_units \/ In unit relUnits).
Proof.
  apply (C4_dimValid_grammar "210mm").
  - reflexivity.
  - vm_compute. intros H.
    repeat (destruct H as [H|H]; [discriminate|]). exact H.
Defined.

(** The Dimension Model accepts a run of digits and dots that is no
    number, which the amended claim C4 leaves out: [resize] then writes
    [NaN]. *)
Lemma dimValid_malformed_number :
  decimal_number "1.2.3" = false
  /\ dimValid "1.2.3mm" = true /\ dimValid "..mm" = true
  /\ dimValid "." = true
  /\ resize (El "svg" [("width", "1.2.3mm"); ("height", "5mm")] None [])
            {| scaleFactor := None; width := None; height := None |}
     = inr (El "svg" [("width", "NaNem"); ("height", "1.18125em")] None []).
Proof. repeat split; vm_compute; reflexivity. Qed.

(** The suffixes that the amended claim C4 leaves out: [dimValid] accepts
    them. *)
Lemma dimValid_inherited_property : dimValid "5toString" = true.
Proof. vm_compute. reflexivity. Qed.

(* ================================================================== *)
(** * Properties: the conversion of the content (utils.js) *)
(* ================================================================== *)

(** The test of [md2html] looks at the start of the content only. *)
Lemma equationRegex_matches_prefix (s : string) :
  Utils.equationRegex_matches s = true <->
  exists body rest,
    s = "$" ++ body ++ "$" ++ rest /\ body <> ""
    /\ forallb (fun c => negb (Ascii.eqb c "$")) body = true.
Proof.
  unfold Utils.equationRegex_matches. split.
  - destruct s as [|c r]; [discriminate|].
    destruct (Ascii.eqb_spec c "$") as [->|N].
    + pose proof (span_app (fun c => negb (Ascii.eqb c "$")) r) as A.
      pose proof (span_forallb (fun c => negb (Ascii.eqb c "$")) r) as F.
      destruct (span _ r) as [body rest]; simpl in A, F.
      intros H. apply andb_true_iff in H as [B S].
      apply negb_true_iff, is_empty_false in B.
      unfold startsWith in S.
      destruct (strip_prefix "$" rest) as [r'|] eqn:P; [|discriminate].
      apply strip_prefix_app in P. subst rest.
      exists body, r'. subst r. auto.
    + destruct c as [[] [] [] [] [] [] [] []]; try discriminate.
      now contradiction N.
  - intros (body & rest & -> & N & F). simpl.
    rewrite span_stop; [| assumption | simpl; reflexivity].
    apply is_empty_false in N. now rewrite N.
Qed.

Lemma single_equation_not_followed (body rest : string) :
  forallb (fun c => negb (Ascii.eqb c "$")) body = true ->
  single_equation ("$" ++ body ++ "$" ++ rest) -> rest = "".
Proof.
  intros F (b & E & _ & Fb). simpl in E. injection E as E.
  revert b E Fb. induction body as [|c body IH]; intros b E Fb; simpl in *.
  - destruct b as [|d b]; simpl in E.
    + now injection E.
    + injection E as <- E. simpl in Fb. discriminate.
  - apply andb_true_iff in F as [Fc F].
    destruct b as [|d b]; simpl in E.
    + injection E as -> _. discriminate.
    + injection E as <- E. simpl in Fb.
      apply andb_true_iff in Fb as [_ Fb]. eauto.
Qed.

(** C3, at the content [$E=mc^2$ is **famous**]: it is not exactly one
    equation, and [md2html] takes the direct substitution, whatever the
    converter would return: the markdown after the equation is not
    converted. *)
Theorem C3_fast_path_on_trailing_text :
  ~ single_equation "$E=mc^2$ is **famous**"
  /\ forall env : Env,
       Utils.md2html env "$E=mc^2$ is **famous**"
       = "<p><span class=" ++ dquote ++ "math inline" ++ dquote ++ ">"
           ++ "\(E=mc^2\) is **famous**" ++ "</span></p>".
Proof.
  split.
  - intros H.
    apply (single_equation_not_followed "E=mc^2" " is **famous**") in H;
      [discriminate|reflexivity].
  - intros env. vm_compute. reflexivity.
Qed.

(* ================================================================== *)
(** * Properties: attributes *)
(* ================================================================== *)

Lemma lookup_update_same (k v : string) (a : list (string * string)) :
  lookup k (update k v a) = Some v.
Proof.
  induction a as [|[k' v'] a IH]; simpl.
  - now rewrite String.eqb_refl.
  - destruct (String.eqb k' k) eqn:E; simpl; now rewrite E.
Qed.

Lemma lookup_update_other (k k' v : string) (a : list (string * string)) :
  k <> k' -> lookup k' (update k v a) = lookup k' a.
Proof.
  intros N. induction a as [|[k0 v0] a IH]; simpl.
  - apply String.eqb_neq in N. now rewrite N.
  - destruct (String.eqb_spec k0 k) as [->|N0]; simpl.
    + apply String.eqb_neq in N. now rewrite N.
    + now rewrite IH.
Qed.

Lemma getAttribute_setAttribute_same (e : element) (k v : string) :
  getAttribute (setAttribute e k v) k = Some v.
Proof. destruct e; apply lookup_update_same. Qed.

Lemma getAttribute_setAttribute_other (e : element) (k k' v : string) :
  k <> k' -> getAttribute (setAttribute e k v) k' = getAttribute e k'.
Proof. destruct e; apply lookup_update_other. Qed.

Lemma getAttribute_applyWidthHeight (e : element) (w h : string) :
  getAttribute (applyWidthHeight e w h) "width" = Some w
  /\ getAttribute (applyWidthHeight e w h) "height" = Some h.
Proof.
  unfold applyWidthHeight. split.
  - rewrite getAttribute_setAttribute_other by discriminate.
    apply getAttribute_setAttribute_same.
  - apply getAttribute_setAttribute_same.
Qed.

(* ================================================================== *)
(** * Properties: the Resizer (resize.js) *)
(* ================================================================== *)

Lemma dimValid_exec (dim : string) :
  dimValid dim = true -> exists val unit, dimRegex_exec dim = Some (val, unit).
Proof.
  unfold dimValid. destruct (dimRegex_exec dim) as [[v u]|]; [|discriminate].
  intros _. now exists v, u.
Qed.

(** A root whose [width] or [height] the Dimension Model rejects is left as
    it is, and nothing is thrown. *)
Lemma resize_invalid_source (svgDOM : element) (d : dimObj) :
  dimValid (string_of_nullable (getAttribute svgDOM "width")) = false
  \/ dimValid (string_of_nullable (getAttribute svgDOM "height")) = false ->
  resize svgDOM d = inr svgDOM.
Proof.
  intros H. unfold resize.
  destruct H as [H|H]; rewrite H; simpl; [reflexivity|].
  now rewrite orb_true_r.
Qed.

(** C2, as the claim states it, fails: the height that the default resize
    writes for [297mm] is [70.16625em], not [70.175em]. *)
Lemma C2_counterexample :
  resize (El "svg" [("width", "210mm"); ("height", "297mm")] None [])
         {| scaleFactor := None; width := None; height := None |}
  = inr (El "svg" [("width", "49.6125em"); ("height", "70.16625em")] None [])
  /\ "70.16625em" <> "70.175em".
Proof. split; [vm_compute; reflexivity|discriminate]. Qed.

(** C2, amended: for a tree whose root has [width="210mm"] and
    [height="297mm"], resize with no requested width or height and a scale
    factor of 1 sets the [width] of the root to exactly [49.6125em] and its
    [height] to exactly [70.16625em], and changes nothing else. *)
Theorem C2_default_resize_A4 (svgDOM : element) (d : dimObj) :
  getAttribute svgDOM "width" = Some "210mm" ->
  getAttribute svgDOM "height" = Some "297mm" ->
  width d = None -> height d = None ->
  effective_scaleFactor d = literal 1 0 ->
  resize svgDOM d = inr (applyWidthHeight svgDOM "49.6125em" "70.16625em")
  /\ getAttribute (applyWidthHeight svgDOM "49.6125em" "70.16625em") "width"
     = Some "49.6125em"
  /\ getAttribute (applyWidthHeight svgDOM "49.6125em" "70.16625em") "height"
     = Some "70.16625em".
Proof.
  intros HW HH Hw Hh Hs. split; [|apply getAttribute_applyWidthHeight].
  unfold resize. rewrite HW, HH, Hw, Hh, Hs.
  vm_compute. reflexivity.
Qed.

Lemma C2_default_resize_A4_witness :
  let svgDOM := El "svg" [("width", "210mm"); ("height", "297mm")] None [] in
  let d := {| scaleFactor := None; width := None; height := None |} in
  resize svgDOM d = inr (applyWidthHeight svgDOM "49.6125em" "70.16625em")
  /\ getAttribute (applyWidthHeight svgDOM "49.6125em" "70.16625em") "width"
     = Some "49.6125em"
  /\ getAttribute (applyWidthHeight svgDOM "49.6125em" "70.16625em") "height"
     = Some "70.16625em".
Proof.
  intros svgDOM d.
  apply (C2_default_resize_A4 svgDOM d); reflexivity.
Defined.

Lemma digit_or_dot_not_i (c : ascii) :
  is_digit_or_dot c = true -> Ascii.eqb "i" c = false.
Proof.
  destruct (Ascii.eqb_spec "i" c) as [<-|N]; [|reflexivity].
  vm_compute. discriminate.
Qed.

(** [inch] becomes [in] in a dimension that [pandocDimValid] accepts, and
    nothing else changes. *)
Lemma replace_inch (val unit : string) :
  forallb is_digit_or_dot val = true ->
  In unit ["px"; "cm"; "mm"; "in"; "inch"; "%"] ->
  replace_first "inch" "in" (val ++ unit)
  = val ++ (if String.eqb unit "inch" then "in" else unit).
Proof.
  intros F U. induction val as [|c val IH].
  - simpl in U.
    repeat (destruct U as [<-|U]; [vm_compute; reflexivity|]).
    contradiction.
  - simpl in F. apply andb_true_iff in F as [Fc F].
    cbn [append replace_first strip_prefix].
    rewrite (digit_or_dot_not_i c Fc). now rewrite (IH F).
Qed.

Lemma pandocDimValid_shape (dim : string) :
  pandocDimValid dim = true ->
  exists val unit,
    dim = val ++ unit /\ val <> ""
    /\ forallb is_digit_or_dot val = true
    /\ In unit ["px"; "cm"; "mm"; "in"; "inch"; "%"].
Proof.
  unfold pandocDimValid.
  destruct (dimRegex_exec dim) as [[val unit]|] eqn:E; [|discriminate].
  intros U. apply includes_In in U.
  apply dimRegex_exec_Some in E as (-> & N & F & _).
  now exists val, unit.
Qed.

Lemma pandocDimValid_exec_normalized (dim : string) :
  pandocDimValid dim = true ->
  exists val unit,
    dimRegex_exec (replace_first "inch" "in" dim) = Some (val, unit).
Proof.
  intros V. destruct (pandocDimValid_shape dim V) as (val & unit & -> & N & F & U).
  rewrite (replace_inch val unit F U).
  exists val, (if String.eqb unit "inch" then "in" else unit).
  apply dimRegex_exec_Some. repeat split; try assumption.
  simpl in U.
  repeat (destruct U as [<-|U]; [vm_compute; reflexivity|]).
  contradiction.
Qed.

(** [resize] never throws. *)
Lemma resize_total (svgDOM : element) (d : dimObj) :
  exists svgDOM', resize svgDOM d = inr svgDOM'.
Proof.
  unfold resize.
  destruct (dimValid (string_of_nullable (getAttribute svgDOM "width"))) eqn:VW;
    [|simpl; eauto].
  destruct (dimValid (string_of_nullable (getAttribute svgDOM "height"))) eqn:VH;
    [|simpl; eauto].
  destruct (dimValid_exec _ VW) as (wv & wu & EW).
  destruct (dimValid_exec _ VH) as (hv & hu & EH).
  rewrite EW, EH. cbn [negb orb groups bind Exc.ret fst snd].
  destruct (relUnits_has wu || relUnits_has hu); [eauto|].
  destruct (width d) as [w|], (height d) as [h|].
  - destruct (negb (pandocDimValid w) || negb (pandocDimValid h)); eauto.
  - destruct (pandocDimValid w) eqn:V; cbn [negb]; [|eauto].
    destruct (pandocDimValid_exec_normalized w V) as (v & u & E).
    rewrite E. cbn [groups bind Exc.ret]. eauto.
  - destruct (pandocDimValid h) eqn:V; cbn [negb]; [|eauto].
    destruct (pandocDimValid_exec_normalized h V) as (v & u & E).
    rewrite E. cbn [groups bind Exc.ret]. eauto.
  - eauto.
Qed.

(** C6, as the claim states it, fails: the root is sized in [em], the
    requested width is invalid, and resize rewrites the [width] of the root
    from [1.50em] to [1.5em]. *)
Lemma C6_counterexample :
  pandocDimValid "5ducks" = false
  /\ resize (El "svg" [("width", "1.50em"); ("height", "1em")] None [])
            {| scaleFactor := None;
               width := Some "5ducks"; height := Some "3in" |}
     = inr (El "svg" [("width", "1.5em"); ("height", "1em")] None []).
Proof. split; vm_compute; reflexivity. Qed.

(** C6, amended: when the root has a valid width and a valid height, none
    of them in a relative unit, and resize is called with both a target
    width and a target height: if either target fails the validation
    against the units px, cm, mm, in, inch and %, neither attribute of
    the root is changed; when both pass, both are written, with [inch]
    written as [in], whatever the aspect ratio of the source. *)
Theorem C6_both_targets (svgDOM : element) (d : dimObj) (w h : string) :
  sized_in_absolute_units svgDOM = true ->
  width d = Some w -> height d = Some h ->
  (pandocDimValid w = false \/ pandocDimValid h = false ->
   resize svgDOM d = inr svgDOM)
  /\ (pandocDimValid w = true -> pandocDimValid h = true ->
      let w' := replace_first "inch" "in" w in
      let h' := replace_first "inch" "in" h in
      resize svgDOM d = inr (applyWidthHeight svgDOM w' h')
      /\ getAttribute (applyWidthHeight svgDOM w' h') "width" = Some w'
      /\ getAttribute (applyWidthHeight svgDOM w' h') "height" = Some h').
Proof.
  unfold sized_in_absolute_units, unit_of. intros S Hw Hh.
  apply andb_true_iff in S as [S RH]. apply andb_true_iff in S as [S RW].
  apply andb_true_iff in S as [VW VH].
  destruct (dimValid_exec _ VW) as (wv & wu & EW).
  destruct (dimValid_exec _ VH) as (hv & hu & EH).
  rewrite EW in RW. rewrite EH in RH.
  apply negb_true_iff in RW, RH.
  assert (R : resize svgDOM d
             = (if negb (pandocDimValid w) || negb (pandocDimValid h)
                then inr svgDOM
                else inr (applyWidthHeight svgDOM
                            (replace_first "inch" "in" w)
                            (replace_first "inch" "in" h)))).
  { unfold resize. rewrite VW, VH, EW, EH, Hw, Hh.
    cbn [negb orb groups bind Exc.ret fst snd]. rewrite RW, RH.
    reflexivity. }
  split.
  - intros [V|V]; rewrite R, V; simpl; [reflexivity|].
    now rewrite orb_true_r.
  - intros V1 V2. cbv zeta. rewrite R, V1, V2. simpl.
    split; [reflexivity|apply getAttribute_applyWidthHeight].
Qed.

Lemma C6_both_targets_witness :
  let svgDOM := El "svg" [("width", "210mm"); ("height", "297mm")] None [] in
  let d := {| scaleFactor := None;
              width := Some "1inch"; height := Some "2inch" |} in
  (pandocDimValid "1inch" = false \/ pandocDimValid "2inch" = false ->
   resize svgDOM d = inr svgDOM)
  /\ (pandocDimValid "1inch" = true -> pandocDimValid "2inch" = true ->
      let w' := replace_first "inch" "in" "1inch" in
      let h' := replace_first "inch" "in" "2inch" in
      resize svgDOM d = inr (applyWidthHeight svgDOM w' h')
      /\ getAttribute (applyWidthHeight svgDOM w' h') "width" = Some w'
      /\ getAttribute (applyWidthHeight svgDOM w' h') "height" = Some h').
Proof.
  intros svgDOM d.
  apply (C6_both_targets svgDOM d "1inch" "2inch"); reflexivity.
Defined.

(** C7, at a root with [width="5toString"] and [height="5mm"]: [toString]
    is no unit, but the operator [in] finds it in [abs2PX], the width counts
    as valid, and the default resize writes [NaNem] for it. *)
Theorem C7_inherited_unit_is_resized :
  includes Spec.absolute_units "toString" = false
  /\ includes relUnits "toString" = false
  /\ resize (El "svg" [("width", "5toString"); ("height", "5mm")] None [])
            {| scaleFactor := None; width := None; height := None |}
     = inr (El "svg" [("width", "NaNem"); ("height", "1.18125em")] None []).
Proof. repeat split; vm_compute; reflexivity. Qed.

(* ================================================================== *)
(** * Properties: translation folding (optimize.js) *)
(* ================================================================== *)

Lemma elements_app (ns ms : list node) :
  elements (ns ++ ms) = (elements ns ++ elements ms)%list.
Proof.
  induction ns as [|[d|d|e] ns IH]; simpl; [reflexivity| | |]; now rewrite ?IH.
Qed.

(** The loop leaves the nodes that are no elements as they are. *)
Lemma removeTranslations_non_elements
      (pending : option (number * number)) (ns : list node) :
  elements ns = [] -> map (removeTranslations_node pending) ns = ns.
Proof.
  induction ns as [|[d|d|e] ns IH]; simpl; intros H;
    [reflexivity| | | discriminate]; now rewrite IH.
Qed.

(** An element without a [transform] is not selected by the loop: it is
    left as it is, and nothing is pending for its children. *)
Lemma fold_translation_no_transform (elt : element) :
  getAttribute elt "transform" = None ->
  fold_translation None elt = (elt, None).
Proof.
  intros H. unfold fold_translation, translation_of. cbn [apply_pending].
  now rewrite H.
Qed.

(** C8: for [<text x="1" y="2" transform="translate(-1 -2) scale(1 0.5)">]
    whose only element child is [<tspan x="1" y="2">], translation folding
    leaves the parent with the transform [scale(1 0.5)] exactly, and the
    parent and the child with [x="0"] and [y="0"]: in the loop, and in a
    document whose root has no transform. *)
Theorem C8_translation_folding
        (s s' : option css) (before after cs : list node)
        (t : string) (a : list (string * string)) (sr : option css)
        (pre post : list node) :
  elements before = [] -> elements after = [] ->
  lookup "transform" a = None ->
  let text :=
    El "text"
       [("x", "1"); ("y", "2");
        ("transform", "translate(-1 -2) scale(1 0.5)")] s
       (before ++ Elem (El "tspan" [("x", "1"); ("y", "2")] s' cs)
               :: after) in
  let folded :=
    El "text"
       [("x", "0"); ("y", "0"); ("transform", "scale(1 0.5)")] s
       (before
          ++ Elem (El "tspan" [("x", "0"); ("y", "0")] s'
                     (map (removeTranslations_node None) cs))
          :: after) in
  removeTranslations_node None (Elem text) = Elem folded
  /\ removeTranslations (El t a sr (pre ++ Elem text :: post))
     = El t a sr
          (map (removeTranslations_node None) pre
             ++ Elem folded :: map (removeTranslations_node None) post).
Proof.
  intros Hb Ha Hr text folded.
  set (tspan := El "tspan" [("x", "1"); ("y", "2")] s' cs).
  set (ns := (before ++ Elem tspan :: after)%list).
  set (attrs := [("x", "1"); ("y", "2");
                 ("transform", "translate(-1 -2) scale(1 0.5)")]).
  assert (C : children (El "text" attrs s ns) = [tspan]).
  { unfold children, ns. simpl childNodes_of.
    rewrite elements_app. simpl. now rewrite Hb, Ha. }
  assert (F : fold_translation None (El "text" attrs s ns)
              = (El "text" [("x", "0"); ("y", "0");
                            ("transform", "scale(1 0.5)")] s ns,
                 Some (Number "-1", Number "-2"))).
  { unfold fold_translation, translation_of.
    cbn [apply_pending]. rewrite C.
    vm_compute. reflexivity. }
  assert (T : fold_translation (Some (Number "-1", Number "-2")) tspan
              = (El "tspan" [("x", "0"); ("y", "0")] s' cs, None))
    by (vm_compute; reflexivity).
  assert (E : removeTranslations_node None (Elem text) = Elem folded).
  { unfold text, folded. fold tspan. fold ns. fold attrs.
    cbn [removeTranslations_node]. rewrite F. cbn [set_childNodes].
    unfold ns. rewrite map_app. cbn [map].
    rewrite !removeTranslations_non_elements by assumption.
    unfold tspan in *. cbn [removeTranslations_node]. rewrite T.
    reflexivity. }
  split; [exact E|].
  unfold removeTranslations. cbn [removeTranslations_node].
  rewrite (fold_translation_no_transform (El t a sr _)) by exact Hr.
  cbn [set_childNodes]. rewrite map_app. cbn [map]. now rewrite E.
Qed.

Lemma C8_translation_folding_witness :
  let text :=
    El "text"
       [("x", "1"); ("y", "2");
        ("transform", "translate(-1 -2) scale(1 0.5)")] None
       ([Text "Text."]
          ++ Elem (El "tspan" [("x", "1"); ("y", "2")] None
                     [Text "Text in tspan."])
          :: []) in
  let folded :=
    El "text"
       [("x", "0"); ("y", "0"); ("transform", "scale(1 0.5)")] None
       ([Text "Text."]
          ++ Elem (El "tspan" [("x", "0"); ("y", "0")] None
                     (map (removeTranslations_node None)
                          [Text "Text in tspan."]))
          :: []) in
  removeTranslations_node None (Elem text) = Elem folded
  /\ removeTranslations (El "svg" [] None ([] ++ Elem text :: []))
     = El "svg" [] None
          (map (removeTranslations_node None) []
             ++ Elem folded :: map (removeTranslations_node None) []).
Proof.
  apply (C8_translation_folding None None [Text "Text."] []
                                [Text "Text in tspan."] "svg" [] None [] []);
    reflexivity.
Defined.

(* ================================================================== *)
(** * Properties: inline styles *)
(* ================================================================== *)

Lemma find_decl_put_same (p v : string) (ds : css) :
  find_decl p (put_decl p v ds) = Some (Decl p v "").
Proof.
  induction ds as [|d ds IH]; simpl.
  - now rewrite String.eqb_refl.
  - destruct (String.eqb (d_property d) p) eqn:E; simpl.
    + now rewrite String.eqb_refl.
    + now rewrite E.
Qed.

Lemma find_decl_put_other (p q v : string) (ds : css) :
  p <> q -> find_decl q (put_decl p v ds) = find_decl q ds.
Proof.
  intros N. apply String.eqb_neq in N.
  induction ds as [|d ds IH]; simpl.
  - now rewrite N.
  - destruct (String.eqb_spec (d_property d) p) as [E|E]; simpl.
    + rewrite N, E. now rewrite N.
    + now rewrite IH.
Qed.

(** A property that is set to a value that is not empty has this value. *)
Lemma getPropertyValue_setProperty_same (s : option css) (p v : string) :
  v <> "" -> getPropertyValue (setProperty s p v) p = v.
Proof.
  intros N. apply is_empty_false in N.
  unfold getPropertyValue, setProperty. rewrite N. simpl.
  now rewrite find_decl_put_same.
Qed.

(** The other properties keep their values. *)
Lemma getPropertyValue_setProperty_other (s : option css) (p q v : string) :
  v <> "" -> p <> q ->
  getPropertyValue (setProperty s p v) q = getPropertyValue s q.
Proof.
  intros N D. apply is_empty_false in N.
  unfold getPropertyValue, setProperty. rewrite N. simpl.
  now rewrite find_decl_put_other.
Qed.

(* ================================================================== *)
(** * Properties: flattening (utils.js) *)
(* ================================================================== *)

Lemma flattenTextChildren_style (textElt : element) :
  style_attr (Utils.flattenTextChildren textElt)
  = fold_left promote (children textElt) (style_attr textElt).
Proof. reflexivity. Qed.

Lemma promote_font_size (cs : list element) (s : option css) :
  getPropertyValue (fold_left promote cs s) "font-size"
  = last_font_size cs (getPropertyValue s "font-size").
Proof.
  unfold last_font_size. revert s.
  induction cs as [|c cs IH]; intros s; simpl; [reflexivity|].
  rewrite IH. f_equal. unfold promote.
  destruct (is_empty (style_getPropertyValue c "font-size")) eqn:E;
    [reflexivity|].
  apply getPropertyValue_setProperty_same. now apply is_empty_false.
Qed.

Lemma promote_other_property (cs : list element) (s : option css) (q : string) :
  q <> "font-size" ->
  getPropertyValue (fold_left promote cs s) q = getPropertyValue s q.
Proof.
  intros N. revert s.
  induction cs as [|c cs IH]; intros s; simpl; [reflexivity|].
  rewrite IH. unfold promote.
  destruct (is_empty (style_getPropertyValue c "font-size")) eqn:E;
    [reflexivity|].
  apply getPropertyValue_setProperty_other; [now apply is_empty_false|].
  congruence.
Qed.

Lemma last_font_size_app (cs : list element) (c : element) (own : string) :
  last_font_size (cs ++ [c]) own
  = if is_empty (style_getPropertyValue c "font-size")
    then last_font_size cs own
    else style_getPropertyValue c "font-size".
Proof. unfold last_font_size. now rewrite fold_left_app. Qed.

Lemma last_font_size_none (cs : list element) (own : string) :
  Forall (fun c => style_getPropertyValue c "font-size" = "") cs ->
  last_font_size cs own = own.
Proof.
  unfold last_font_size. intros H. revert own.
  induction H as [|c cs Hc _ IH]; intros own; simpl; [reflexivity|].
  rewrite Hc. simpl. apply IH.
Qed.

(** C5, as the claim states it, fails: the parent has the font size [4px],
    its child has [10px], and after the flattening the parent has [10px]. *)
Lemma C5_counterexample :
  let child :=
    El "tspan" [] (Some [Decl "font-size" "10px" ""]) [Text "Text."] in
  let parent :=
    El "text" [] (Some [Decl "font-size" "4px" ""]) [Elem child] in
  style_getPropertyValue parent "font-size" = "4px"
  /\ style_getPropertyValue (Utils.flattenTextChildren parent) "font-size"
     = "10px".
Proof. split; vm_compute; reflexivity. Qed.

(** C5, amended: during the flattening the font size of every child that
    has one is written to the style of the parent, whether the parent has
    one of its own or not: after all the children are merged the parent has
    the font size of the last child that has one, and its original one when
    no child has one.  Its other properties and its attributes are as they
    were. *)
Theorem C5_font_size_after_flattening (textElt : element) :
  style_getPropertyValue (Utils.flattenTextChildren textElt) "font-size"
  = last_font_size (children textElt)
                   (style_getPropertyValue textElt "font-size")
  /\ (Forall (fun c => style_getPropertyValue c "font-size" = "")
             (children textElt) ->
      style_getPropertyValue (Utils.flattenTextChildren textElt) "font-size"
      = style_getPropertyValue textElt "font-size")
  /\ (forall q, q <> "font-size" ->
      style_getPropertyValue (Utils.flattenTextChildren textElt) q
      = style_getPropertyValue textElt q)
  /\ attributes (Utils.flattenTextChildren textElt) = attributes textElt.
Proof.
  unfold style_getPropertyValue.
  rewrite flattenTextChildren_style, promote_font_size.
  repeat split.
  - apply last_font_size_none.
  - intros q N. now apply promote_other_property.
Qed.

Lemma C5_font_size_after_flattening_witness :
  let textElt :=
    El "text" [] (Some [Decl "font-size" "4px" ""])
       [Elem (El "tspan" [] (Some [Decl "fill" "red" ""]) [Text "Text."])] in
  style_getPropertyValue (Utils.flattenTextChildren textElt) "font-size"
  = "4px".
Proof.
  intros textElt.
  destruct (C5_font_size_after_flattening textElt) as (_ & H & _).
  rewrite H; [reflexivity|].
  repeat constructor.
Defined.

(* ================================================================== *)
(** * Properties: the Text Converter (text2foreignObject.js) *)
(* ================================================================== *)

Lemma size_exec_eq (c : ascii) (s : string) :
  size_exec (String c s)
  = let (size, rest) := span is_digit_or_dot (String c s) in
    if negb (is_empty size) && startsWith rest "px" then Some size
    else size_exec s.
Proof. reflexivity. Qed.

Lemma size_exec_finds (s : string) :
  has_px_size s -> size_exec s <> None.
Proof.
  intros (a & run & b & -> & N & F).
  induction a as [|c a IH].
  - destruct run as [|c run]; [congruence|].
    change (size_exec (String c (run ++ "px" ++ b)) <> None).
    rewrite size_exec_eq.
    change (String c (run ++ "px" ++ b)) with (String c run ++ ("px" ++ b)).
    rewrite span_stop; [| assumption | reflexivity].
    cbn. discriminate.
  - change (size_exec (String c (a ++ run ++ "px" ++ b)) <> None).
    rewrite size_exec_eq.
    destruct (span is_digit_or_dot _) as [size rest].
    destruct (negb (is_empty size) && startsWith rest "px");
      [discriminate|exact IH].
Qed.

Lemma size_exec_found (s size : string) :
  size_exec s = Some size -> has_px_size s.
Proof.
  induction s as [|c s IH]; [discriminate|].
  rewrite size_exec_eq.
  pose proof (span_app is_digit_or_dot (String c s)) as A.
  pose proof (span_forallb is_digit_or_dot (String c s)) as F.
  destruct (span is_digit_or_dot (String c s)) as [run rest].
  cbn [fst snd] in A, F.
  destruct (negb (is_empty run) && startsWith rest "px") eqn:E.
  - intros _. apply andb_true_iff in E as [E P].
    apply negb_true_iff, is_empty_false in E.
    unfold startsWith in P.
    destruct (strip_prefix "px" rest) as [b|] eqn:S; [|discriminate].
    apply strip_prefix_app in S. subst rest.
    exists "", run, b. auto.
  - intros H. destruct (IH H) as (a & r & b & -> & N & Fr).
    exists (String c a), r, b. auto.
Qed.

(** The font sizes on which the baseline compensation finds no size. *)
Lemma size_exec_None (s : string) :
  size_exec s = None <-> ~ has_px_size s.
Proof.
  split.
  - intros E H. now apply size_exec_finds in H.
  - intros H. destruct (size_exec s) as [size|] eqn:E; [|reflexivity].
    contradiction H. eapply size_exec_found; eassumption.
Qed.

Lemma length_not_zero (s : string) :
  (String.length s =? 0)%nat = false <-> s <> "".
Proof.
  destruct s; simpl; split; congruence.
Qed.

Lemma fontSize_of_own (textElt : element) :
  style_getPropertyValue textElt "font-size" <> "" ->
  fontSize_of textElt = style_getPropertyValue textElt "font-size".
Proof.
  intros N. unfold fontSize_of. apply is_empty_false in N. now rewrite N.
Qed.

Lemma fontSize_of_default (textElt : element) :
  style_getPropertyValue textElt "font-size" = "" ->
  fontSize_of textElt = "16px".
Proof. intros E. unfold fontSize_of. now rewrite E. Qed.

(** A text with content whose font size has no size in [px] makes the
    callback throw. *)
Lemma convert_throws (env : Env) (textElt : element) :
  innerHTML (Utils.flattenTextChildren textElt) <> "" ->
  style_getPropertyValue (Utils.flattenTextChildren textElt) "font-size" <> "" ->
  ~ has_px_size
      (style_getPropertyValue (Utils.flattenTextChildren textElt) "font-size") ->
  throws (convert env textElt).
Proof.
  intros M N P. unfold convert. cbv zeta.
  apply length_not_zero in M. rewrite M.
  rewrite (fontSize_of_own _ N).
  apply size_exec_None in P.
  unfold xTimesFontSize_of. rewrite P. cbn [groups bind throw].
  eexists. reflexivity.
Qed.

(** An empty text is removed, whatever its font size. *)
Lemma convert_empty (env : Env) (textElt : element) :
  innerHTML (Utils.flattenTextChildren textElt) = "" ->
  convert env textElt = inr None.
Proof. intros E. unfold convert. cbv zeta. now rewrite E. Qed.

Lemma for_each_throws {A : Type} (f : A -> exc unit) (xs : list A) (x : A) :
  In x xs -> throws (f x) -> throws (for_each f xs).
Proof.
  induction xs as [|y xs IH]; simpl; [contradiction|].
  intros [->|H] T.
  - destruct T as [e ->]. now exists e.
  - destruct (f y) as [e|[]]; [now exists e|]. simpl. now apply IH.
Qed.

Lemma map_exc_throws {A B : Type} (f : A -> exc B) (xs : list A) (x : A) :
  In x xs -> throws (f x) -> throws (map_exc f xs).
Proof.
  induction xs as [|y xs IH]; simpl; [contradiction|].
  intros [->|H] T.
  - destruct T as [e ->]. now exists e.
  - destruct (f y) as [e|b]; [now exists e|]. simpl.
    destruct (IH H T) as [e ->]. now exists e.
Qed.

Lemma detached_throws (env : Env) (textElt : element) (n : node) :
  occurs textElt n -> tagName textElt = "text" ->
  throws (convert env textElt) -> throws (detached env n).
Proof.
  intros O T C. induction O as [|t a s cs c I O IH].
  - destruct textElt as [t a s cs]. simpl in T. subst t.
    cbn [detached]. rewrite String.eqb_refl.
    destruct C as [e ->]. now exists e.
  - cbn [detached].
    destruct (if String.eqb t "text"
              then bind (convert env (El t a s cs)) (fun _ => Exc.ret tt)
              else Exc.ret tt) as [e|[]]; [now exists e|].
    cbn [bind]. eapply for_each_throws; eassumption.
Qed.

(** The loop throws when the callback throws on one of the [<text>]
    elements of the tree. *)
Lemma text2foreignObject_node_throws (env : Env) (textElt : element) (n : node) :
  occurs textElt n -> tagName textElt = "text" ->
  throws (convert env textElt) -> throws (text2foreignObject_node env n).
Proof.
  intros O T C. induction O as [|t a s cs c I O IH].
  - destruct textElt as [t a s cs]. simpl in T. subst t.
    cbn [text2foreignObject_node]. rewrite String.eqb_refl.
    destruct C as [e ->]. now exists e.
  - cbn [text2foreignObject_node].
    destruct (String.eqb t "text").
    + destruct (convert env (El t a s cs)) as [e|r]; [now exists e|].
      cbn [bind].
      destruct (for_each_throws (detached env) cs c I
                  (detached_throws env textElt c O T C)) as [e ->].
      now exists e.
    + destruct (map_exc_throws (text2foreignObject_node env) cs c I IH)
        as [e ->].
      now exists e.
Qed.

Lemma text2foreignObject_throws (env : Env) (textElt svgDOM : element) :
  occurs_below_root textElt svgDOM -> tagName textElt = "text" ->
  throws (convert env textElt) -> throws (text2foreignObject env svgDOM).
Proof.
  intros (c & I & O) T C. unfold text2foreignObject.
  destruct (map_exc_throws (text2foreignObject_node env) _ c I
              (text2foreignObject_node_throws env textElt c O T C))
    as [e ->].
  now exists e.
Qed.

Lemma style_attr_setAttribute (e : element) (k v : string) :
  style_attr (setAttribute e k v) = style_attr e.
Proof. now destruct e. Qed.

Lemma style_attr_set_childNodes (e : element) (ns : list node) :
  style_attr (set_childNodes e ns) = style_attr e.
Proof. now destruct e. Qed.

Lemma childNodes_of_set_childNodes (e : element) (ns : list node) :
  childNodes_of (set_childNodes e ns) = ns.
Proof. now destruct e. Qed.

Lemma childNodes_of_style_setProperty (e : element) (p v : string) :
  childNodes_of (style_setProperty e p v) = childNodes_of e.
Proof. now destruct e. Qed.

Lemma style_setProperty_same (e : element) (p v : string) :
  v <> "" -> style_getPropertyValue (style_setProperty e p v) p = v.
Proof.
  intros N. destruct e. now apply getPropertyValue_setProperty_same.
Qed.

Lemma style_setProperty_other (e : element) (p q v : string) :
  v <> "" -> p <> q ->
  style_getPropertyValue (style_setProperty e p v) q
  = style_getPropertyValue e q.
Proof.
  intros N D. destruct e. now apply getPropertyValue_setProperty_other.
Qed.

Lemma setProperty_if_other (e : element) (p q v : string) :
  p <> q ->
  style_getPropertyValue (setProperty_if e p v) q
  = style_getPropertyValue e q.
Proof.
  intros D. unfold setProperty_if.
  destruct (is_empty v) eqn:E; [reflexivity|].
  apply style_setProperty_other; [now apply is_empty_false|assumption].
Qed.

Lemma fontSize_of_not_empty (textElt : element) : fontSize_of textElt <> "".
Proof.
  unfold fontSize_of.
  destruct (is_empty (style_getPropertyValue textElt "font-size")) eqn:E;
    [discriminate|now apply is_empty_false].
Qed.

(** The block has the font size of the text, or [16px]. *)
Lemma new_foreignObject_font_size (textElt : element) :
  style_getPropertyValue (new_foreignObject textElt) "font-size"
  = fontSize_of textElt.
Proof.
  unfold new_foreignObject. cbv zeta.
  rewrite !setProperty_if_other by discriminate.
  apply style_setProperty_same, fontSize_of_not_empty.
Qed.

Lemma elements_on_first_element (f : element -> element) (ns : list node) :
  elements (on_first_element f ns)
  = match elements ns with
    | [] => []
    | c :: cs => f c :: cs
    end.
Proof.
  induction ns as [|[d|d|e] ns IH]; simpl; try assumption; reflexivity.
Qed.

Lemma elements_on_elements (g : element -> element) (ns : list node) :
  elements (on_elements g ns) = map g (elements ns).
Proof.
  induction ns as [|[d|d|e] ns IH]; simpl; try assumption;
    [reflexivity|now rewrite <- IH].
Qed.

(** What the anchor compensation leaves of a block with a child: the block,
    or the block with its children shifted and its text aligned. *)
Lemma compensate_anchor_cases (textElt foreignObject : element) :
  children foreignObject <> [] ->
  compensate_anchor textElt foreignObject = foreignObject
  \/ exists translateX textAlign,
       textAlign <> ""
       /\ compensate_anchor textElt foreignObject
          = style_setProperty
              (set_childNodes foreignObject
                 (on_elements (translate_child translateX)
                              (childNodes_of foreignObject)))
              "text-align" textAlign.
Proof.
  intros C. unfold compensate_anchor, anchor_shift.
  destruct (children foreignObject) as [|c cs] eqn:E; [congruence|].
  destruct (String.eqb _ "middle").
  - right. exists (-50)%Z, "center". split; [discriminate|reflexivity].
  - destruct (String.eqb _ "end").
    + right. exists (-100)%Z, "end". split; [discriminate|reflexivity].
    + now left.
Qed.

Lemma translate_child_keeps (translateX : Z) (child : element) (q : string) :
  q <> "transform" ->
  style_getPropertyValue (translate_child translateX child) q
  = style_getPropertyValue child q
  /\ childNodes_of (translate_child translateX child) = childNodes_of child.
Proof.
  intros N. unfold translate_child. split.
  - apply style_setProperty_other; [|congruence].
    destruct translateX; discriminate.
  - apply childNodes_of_style_setProperty.
Qed.

(** A text with content and no font size is converted with the size
    [16px]: the marker is [320px] high, and the callback returns a block
    when the converted content has an element, and throws when it has
    none. *)
Lemma convert_default_font_size (env : Env) (textElt : element) :
  let flat := Utils.flattenTextChildren textElt in
  let content := parseFragment env (Utils.md2html env (innerHTML flat)) in
  innerHTML flat <> "" ->
  style_getPropertyValue flat "font-size" = "" ->
  xTimesFontSize_of (fontSize_of flat) = inr "320px"
  /\ (elements content = [] -> throws (convert env textElt))
  /\ (elements content <> [] ->
      exists foreignObject first rest,
        convert env textElt = inr (Some foreignObject)
        /\ style_getPropertyValue foreignObject "font-size" = "16px"
        /\ children foreignObject = first :: rest
        /\ style_getPropertyValue first "margin-top" = "-320px"
        /\ hd_error (childNodes_of first)
           = Some (Elem (baseline_span "320px"))).
Proof.
  intros flat content M F.
  assert (X : xTimesFontSize_of (fontSize_of flat) = inr "320px").
  { rewrite (fontSize_of_default _ F). vm_compute. reflexivity. }
  split; [exact X|].
  assert (U : convert env textElt
              = match elements content with
                | [] => throw (TypeError "Cannot read properties of undefined (reading 'prepend')")
                | _ :: _ =>
                    inr (Some (compensate_anchor flat
                                 (set_childNodes
                                    (set_childNodes (new_foreignObject flat) content)
                                    (on_first_element (compensate_baseline "320px")
                                                      content))))
                end).
  { unfold convert. cbv zeta. fold flat.
    apply length_not_zero in M. rewrite M. fold content. rewrite X.
    cbn [bind]. unfold children.
    rewrite !childNodes_of_set_childNodes. reflexivity. }
  rewrite U. split.
  - intros E. rewrite E. eexists. reflexivity.
  - intros N. destruct (elements content) as [|c cs] eqn:E; [congruence|].
    set (fo := set_childNodes (set_childNodes (new_foreignObject flat) content)
                              (on_first_element (compensate_baseline "320px")
                                                content)).
    assert (S : style_getPropertyValue fo "font-size" = "16px").
    { unfold fo, style_getPropertyValue.
      rewrite !style_attr_set_childNodes.
      change (style_getPropertyValue (new_foreignObject flat) "font-size" = "16px").
      rewrite new_foreignObject_font_size. now apply fontSize_of_default. }
    assert (C : children fo = compensate_baseline "320px" c :: cs).
    { unfold fo, children. rewrite childNodes_of_set_childNodes.
      rewrite elements_on_first_element. now rewrite E. }
    assert (B : style_getPropertyValue (compensate_baseline "320px" c) "margin-top"
                = "-320px"
                /\ hd_error (childNodes_of (compensate_baseline "320px" c))
                   = Some (Elem (baseline_span "320px"))).
    { unfold compensate_baseline. split.
      - apply style_setProperty_same. discriminate.
      - rewrite childNodes_of_style_setProperty.
        now rewrite childNodes_of_set_childNodes. }
    destruct B as [B1 B2].
    destruct (compensate_anchor_cases flat fo) as [A|(tx & ta & Hta & A)].
    + rewrite C. discriminate.
    + exists fo, (compensate_baseline "320px" c), cs.
      rewrite A. auto.
    + exists (compensate_anchor flat fo),
             (translate_child tx (compensate_baseline "320px" c)),
             (map (translate_child tx) cs).
      destruct (translate_child_keeps tx (compensate_baseline "320px" c)
                                      "margin-top") as [K1 K2];
        [discriminate|].
      rewrite A. repeat split.
      * rewrite style_setProperty_other by (assumption || discriminate).
        unfold style_getPropertyValue. rewrite style_attr_set_childNodes.
        exact S.
      * unfold children. rewrite childNodes_of_style_setProperty.
        rewrite childNodes_of_set_childNodes, elements_on_elements.
        fold (children fo). now rewrite C.
      * now rewrite K1.
      * now rewrite K2.
Qed.

(** C10, as the claim states it, fails: the font size [12pt] of an empty
    [<text>] has no size in [px], and the element is removed before the
    baseline compensation is reached: nothing is thrown. *)
Lemma C10_counterexample :
  let textElt := El "text" [] (Some [Decl "font-size" "12pt" ""]) [] in
  size_exec
    (style_getPropertyValue (Utils.flattenTextChildren textElt) "font-size")
  = None
  /\ convert (fixture (El "svg" [] None []) []) textElt = inr None.
Proof. split; vm_compute; reflexivity. Qed.

(** C10, amended: for every [<text>] element with content (after the
    flattening) whose font size is set and holds no number that [px]
    follows at once (as in [12pt] and [1.2em]), the baseline compensation
    throws instead of producing a replacement block, and so does the Text
    Converter on every tree that holds the element; with no font size the
    size is [16px], the compensation is computed without error as [320px],
    and the element is converted to a block with this size when its
    converted content has an element. *)
Theorem C10_px_font_sizes (env : Env) (svgDOM textElt : element) :
  let flat := Utils.flattenTextChildren textElt in
  let fontSize := style_getPropertyValue flat "font-size" in
  let content := parseFragment env (Utils.md2html env (innerHTML flat)) in
  tagName textElt = "text" ->
  innerHTML flat <> "" ->
  (fontSize <> "" -> ~ has_px_size fontSize ->
   throws (convert env textElt)
   /\ (occurs_below_root textElt svgDOM ->
       throws (text2foreignObject env svgDOM)))
  /\ (fontSize = "" ->
      fontSize_of flat = "16px"
      /\ xTimesFontSize_of (fontSize_of flat) = inr "320px"
      /\ (elements content <> [] ->
          exists foreignObject first rest,
            convert env textElt = inr (Some foreignObject)
            /\ style_getPropertyValue foreignObject "font-size" = "16px"
            /\ children foreignObject = first :: rest
            /\ style_getPropertyValue first "margin-top" = "-320px"
            /\ hd_error (childNodes_of first)
               = Some (Elem (baseline_span "320px")))).
Proof.
  intros flat fontSize content T M. split.
  - intros N P.
    assert (C : throws (convert env textElt)) by now apply convert_throws.
    split; [exact C|].
    intros O. eapply text2foreignObject_throws; eassumption.
  - intros E. split; [now apply fontSize_of_default|].
    destruct (convert_default_font_size env textElt M E) as (X & _ & D).
    split; [exact X|exact D].
Qed.

Lemma C10_px_font_sizes_witness :
  let textElt :=
    El "text" [("x", "1"); ("y", "2")] (Some [Decl "font-size" "12pt" ""])
       [Text "Text."] in
  let svgDOM := El "svg" [] None [Elem (El "g" [] None [Elem textElt])] in
  let env := fixture svgDOM [Elem (El "p" [] None [Text "Text."])] in
  throws (convert env textElt) /\ throws (text2foreignObject env svgDOM).
Proof.
  intros textElt svgDOM env.
  destruct (C10_px_font_sizes env svgDOM textElt) as [H _].
  - reflexivity.
  - vm_compute. discriminate.
  - destruct H as [C L].
    + vm_compute. discriminate.
    + apply size_exec_None. vm_compute. reflexivity.
    + split; [exact C|]. apply L.
      exists (Elem (El "g" [] None [Elem textElt])). split.
      * now left.
      * eapply occurs_below; [now left|constructor].
Defined.

(* ================================================================== *)
(** * Properties: the order of the passes (filter.js) *)
(* ================================================================== *)

Lemma no_calls_ret {A : Type} (a : A) : no_calls (Pipeline.ret a).
Proof. intros st. reflexivity. Qed.

Lemma no_calls_get : no_calls Pipeline.get.
Proof. intros st. reflexivity. Qed.

Lemma no_calls_lift {A : Type} (c : exc A) : no_calls (Pipeline.lift c).
Proof. intros st. reflexivity. Qed.

Lemma no_calls_modify (f : element -> element) : no_calls (Pipeline.modify f).
Proof. intros st. reflexivity. Qed.

Lemma no_calls_bind {A B : Type} (c : Pipeline.pipeline A)
      (k : A -> Pipeline.pipeline B) :
  no_calls c -> (forall a, no_calls (k a)) -> no_calls (Pipeline.bind c k).
Proof.
  intros Hc Hk st. unfold Pipeline.bind. specialize (Hc st).
  destruct (c st) as [[e|a] st']; simpl in *; [assumption|].
  now rewrite Hk.
Qed.

(** The calls of a computation that is followed by one that calls no
    pass. *)
Lemma calls_bind_no_calls {A B : Type} (c : Pipeline.pipeline A)
      (k : A -> Pipeline.pipeline B) (st : Pipeline.state) :
  (forall a, no_calls (k a)) ->
  Pipeline.calls (snd (Pipeline.bind c k st)) = Pipeline.calls (snd (c st)).
Proof.
  intros Hk. unfold Pipeline.bind.
  destruct (c st) as [[e|a] st']; simpl; [reflexivity|apply Hk].
Qed.

(** The passes for the format [html], from the tree [t]: the three stages
    of the optimizer, the Text Converter on what the optimizer leaves, and
    the compatibility rewrite on what the Text Converter leaves, when it
    does not throw. *)
Lemma html_passes_run (env : Env) (t : element)
      (cs : list (Pipeline.pass * element)) :
  let t1 := Optimize.minify env false t in
  let t2 := removeTranslations t1 in
  let t3 := optimizeTspan t2 in
  let optimizer :=
    [(Pipeline.Minification, t); (Pipeline.TranslationFolding, t1);
     (Pipeline.RunFolding, t2)] in
  html_passes env {| Pipeline.svgDOM := t; Pipeline.calls := cs |}
  = match text2foreignObject env t3 with
    | inr t4 =>
        (inr tt,
         {| Pipeline.svgDOM := svg2to11 t4;
            Pipeline.calls :=
              (cs ++ optimizer
                  ++ [(Pipeline.TextConverter, t3);
                      (Pipeline.CompatibilityRewrite, t4)])%list |})
    | inl e =>
        (inl e,
         {| Pipeline.svgDOM := t3;
            Pipeline.calls :=
              (cs ++ optimizer ++ [(Pipeline.TextConverter, t3)])%list |})
    end.
Proof.
  intros t1 t2 t3 optimizer.
  unfold html_passes, Optimize.main, Pipeline.bind, Pipeline.call.
  cbn [Pipeline.svgDOM Pipeline.calls Exc.ret].
  fold t1. fold t2. fold t3.
  destruct (text2foreignObject env t3) as [e|t4];
    cbn [Pipeline.svgDOM Pipeline.calls]; unfold optimizer;
    rewrite <- !app_assoc; reflexivity.
Qed.

Lemma filter_dim_keys_none (keyvals : list (string * string)) :
  List.filter is_dim_key keyvals = [] ->
  List.filter (fun kv => negb (is_dim_key kv)) keyvals = keyvals.
Proof.
  induction keyvals as [|kv kvs IH]; simpl; [reflexivity|].
  destruct (is_dim_key kv); simpl; [discriminate|].
  intros H. now rewrite IH.
Qed.

(** The part [Resize SVG?] calls the Resizer once, or not at all, and does
    not throw. *)
Lemma resize_svg_run (classes : list string)
      (keyvals : list (string * string)) (st : Pipeline.state) :
  exists ck t0,
    resize_svg classes keyvals st
    = (inr ck,
       {| Pipeline.svgDOM := t0;
          Pipeline.calls :=
            (Pipeline.calls st
               ++ (if (List.length (List.filter is_dim_key keyvals) =? 0)%nat
                      && includes classes "keep-size"
                   then []
                   else [(Pipeline.Resizer, Pipeline.svgDOM st)]))%list |})
    /\ ((List.length (List.filter is_dim_key keyvals) =? 0)%nat
        && includes classes "keep-size" = true ->
        t0 = Pipeline.svgDOM st
        /\ ck = (remove_first "keep-size" classes,
                 List.filter (fun kv => negb (is_dim_key kv)) keyvals))
    /\ ((List.length (List.filter is_dim_key keyvals) =? 0)%nat
        && includes classes "keep-size" = false ->
        exists d, resize (Pipeline.svgDOM st) d = inr t0).
Proof.
  unfold resize_svg.
  destruct (List.length (List.filter is_dim_key keyvals) =? 0)%nat eqn:D;
    cbn [negb andb].
  - destruct (includes classes "keep-size") eqn:K; cbn [negb].
    + destruct st as [t cs]. eexists _, t. split.
      * unfold Pipeline.ret. cbn. now rewrite app_nil_r.
      * split; [auto|discriminate].
    + unfold Pipeline.bind, Pipeline.call, Pipeline.ret. cbv beta.
      match goal with
      | |- context [resize ?t ?d] => destruct (resize_total t d) as [t0 R]
      end.
      eexists _, t0. split; [|split; [discriminate|eauto]].
      rewrite R. reflexivity.
  - unfold Pipeline.bind, Pipeline.call, Pipeline.ret. cbv beta.
    match goal with
    | |- context [resize ?t ?d] => destruct (resize_total t d) as [t0 R]
    end.
    eexists _, t0. split; [|split; [discriminate|eauto]].
    rewrite R. reflexivity.
Qed.

(** What follows the passes in [process] calls no pass. *)
Lemma process_tail_no_calls (env : Env) (figure : bool) (id : string)
      (classes : list string) (keyvals : list (string * string))
      (caption : list inline) :
  no_calls
    (let html5Keyvals := Utils.toHTML5keyvals env keyvals in
     if figure then
       Pipeline.bind Pipeline.get (fun svgDOM =>
       let svgString := Utils.serialize env svgDOM in
       Pipeline.bind (Pipeline.lift (Utils.ast2html env caption))
         (fun captionHTML =>
       let svgString :=
         figure_open id classes html5Keyvals
           ++ "  " ++ svgString ++ LF
           ++ "  <figcaption aria-hidden=" ++ dquote ++ "true" ++ dquote ++ ">"
           ++ captionHTML ++ "</figcaption>" ++ LF
           ++ "</figure>" in
       Pipeline.ret (RawBlock "html" svgString)))
     else
       Pipeline.bind
         (if negb (String.length id =? 0)%nat
          then Pipeline.modify (fun svgDOM => setAttribute svgDOM "id" id)
          else Pipeline.ret tt) (fun _ =>
       Pipeline.bind
         (Pipeline.modify
            (fun svgDOM =>
               fold_left
                 (fun elt (kv : string * string) =>
                    setAttribute elt (fst kv) (snd kv))
                 html5Keyvals svgDOM)) (fun _ =>
       Pipeline.bind Pipeline.get (fun svgDOM =>
       Pipeline.ret (RawInline "html" (Utils.serialize env svgDOM)))))).
Proof.
  cbv zeta. destruct figure.
  - apply no_calls_bind; [apply no_calls_get|]. intros svgDOM.
    apply no_calls_bind; [apply no_calls_lift|]. intros c.
    apply no_calls_ret.
  - apply no_calls_bind.
    { destruct (negb _); [apply no_calls_modify|apply no_calls_ret]. }
    intros _. apply no_calls_bind; [apply no_calls_modify|].
    intros _. apply no_calls_bind; [apply no_calls_get|].
    intros svgDOM. apply no_calls_ret.
Qed.

(** The calls of [process] for the format [html] are those of the part
    [Resize SVG?] and of the passes. *)
Lemma process_calls (env : Env) (figure : bool) (id : string)
      (classes : list string) (keyvals : list (string * string))
      (caption : list inline) (st st1 : Pipeline.state)
      (ck : list string * list (string * string)) :
  resize_svg classes keyvals st = (inr ck, st1) ->
  Pipeline.calls
    (snd (process env "html" figure (id, classes, keyvals) caption st))
  = Pipeline.calls (snd (html_passes env st1)).
Proof.
  intros R. unfold process. unfold Pipeline.bind at 1. rewrite R.
  destruct ck as [classes' keyvals'].
  cbn [String.eqb Ascii.eqb Bool.eqb].
  apply calls_bind_no_calls. intros _.
  apply process_tail_no_calls.
Qed.

(** C1, as the claim states it, fails: the passes are called in the order
    Resizer, the three stages of the optimizer, Text Converter,
    compatibility rewrite, and the tree that the Text Converter is given
    has a marker whose [fill] is still [context-stroke]. *)
Lemma C1_counterexample :
  let t :=
    El "svg" [] None
       [Elem (El "defs" [] None
                [Elem (El "marker" [("id", "marker1")] None
                         [Elem (El "path" [("d", "M0 0h1")]
                                   (Some [Decl "fill" "context-stroke" ""])
                                   [])])]);
        Elem (El "text" [("x", "1"); ("y", "2")] None [Text "$a$"])] in
  let env :=
    fixture t
      [Elem (El "p" [] None
               [Elem (El "span" [("class", "math inline")] None
                        [Text "\(a\)"])])] in
  let st := snd (Pipeline.run (process env "html" false ("", [], []) []) t) in
  Pipeline.passes st
  = [Pipeline.Resizer; Pipeline.Minification; Pipeline.TranslationFolding;
     Pipeline.RunFolding; Pipeline.TextConverter;
     Pipeline.CompatibilityRewrite]
  /\ Pipeline.consumed_by Pipeline.TextConverter (Pipeline.calls st) = Some t
  /\ svg2to11 t <> t.
Proof.
  repeat split; try (vm_compute; reflexivity).
  intros H. vm_compute in H. discriminate H.
Qed.

(** C1, amended: the pipeline calls its passes in the fixed order Resizer
    (when it is called), Optimizer (minification, translation folding, run
    folding), Text Converter, and then the compatibility rewrite, as a pass
    of its own after the Text Converter: the Text Converter is given the
    tree that run folding leaves, before the rewrite, and the rewrite is
    given what the Text Converter leaves, when it does not throw. *)
Theorem C1_pass_order (env : Env) (figure : bool) (a : attr)
        (caption : list inline) (t : element) :
  exists resized t0,
    (resized = [] /\ t0 = t
     \/ resized = [(Pipeline.Resizer, t)] /\ exists d, resize t d = inr t0)
    /\ let t1 := Optimize.minify env false t0 in
       let t2 := removeTranslations t1 in
       let t3 := optimizeTspan t2 in
       Pipeline.calls
         (snd (Pipeline.run (process env "html" figure a caption) t))
       = (resized
            ++ [(Pipeline.Minification, t0);
                (Pipeline.TranslationFolding, t1);
                (Pipeline.RunFolding, t2);
                (Pipeline.TextConverter, t3)]
            ++ match text2foreignObject env t3 with
               | inr t4 => [(Pipeline.CompatibilityRewrite, t4)]
               | inl _ => []
               end)%list.
Proof.
  destruct a as [[id classes] keyvals]. unfold Pipeline.run.
  set (st := {| Pipeline.svgDOM := t; Pipeline.calls := [] |}).
  destruct (resize_svg_run classes keyvals st) as (ck & t0 & R & K & D).
  rewrite (process_calls env figure id classes keyvals caption st _ ck R).
  rewrite html_passes_run. cbv zeta.
  destruct ((List.length (List.filter is_dim_key keyvals) =? 0)%nat
            && includes classes "keep-size").
  - destruct (K eq_refl) as [-> _]. exists [], t. split; [now left|].
    cbn [Pipeline.svgDOM Pipeline.calls app].
    destruct (text2foreignObject env _); reflexivity.
  - exists [(Pipeline.Resizer, t)], t0. split; [right; auto|].
    cbn [Pipeline.svgDOM Pipeline.calls app].
    destruct (text2foreignObject env _); reflexivity.
Qed.

Lemma remove_first_once (x : string) (xs : list string) :
  count_occ string_dec xs x = 1%nat -> ~ In x (remove_first x xs).
Proof.
  induction xs as [|y xs IH]; simpl; [discriminate|].
  destruct (string_dec y x) as [->|N].
  - rewrite String.eqb_refl. intros H. injection H as H.
    now apply count_occ_not_In in H.
  - destruct (String.eqb_spec x y) as [->|_]; [congruence|].
    intros H [E|I]; [congruence|]. now apply IH.
Qed.

(** C9, as the claim states it, fails: the image has the class [keep-size]
    and a [width], the Resizer is called, and the class is not stripped. *)
Lemma C9_counterexample :
  let t := El "svg" [("width", "210mm"); ("height", "297mm")] None [] in
  Pipeline.run (resize_svg ["keep-size"] [("width", "50%")]) t
  = (inr (["keep-size"], []),
     {| Pipeline.svgDOM :=
          El "svg" [("width", "50%"); ("height", "70.71428571%")] None [];
        Pipeline.calls := [(Pipeline.Resizer, t)] |}).
Proof. vm_compute. reflexivity. Qed.

(** C9, amended: for every processed image whose class list holds
    [keep-size] and whose key/value pairs hold no [width] and no [height],
    the Resizer is not called and the first [keep-size] is stripped from
    the classes that the filter goes on with and writes into the figure,
    whatever the other key/value pairs are, [scale-factor] among them,
    which stay as they are. *)
Theorem C9_keep_size (env : Env) (format : string) (figure : bool)
        (id : string) (classes : list string)
        (keyvals : list (string * string)) (caption : list inline)
        (t : element) :
  includes classes "keep-size" = true ->
  List.filter is_dim_key keyvals = [] ->
  let kept := remove_first "keep-size" classes in
  let r :=
    Pipeline.run (process env format figure (id, classes, keyvals) caption)
                 t in
  Pipeline.run (resize_svg classes keyvals) t
  = (inr (kept, keyvals), {| Pipeline.svgDOM := t; Pipeline.calls := [] |})
  /\ ~ In Pipeline.Resizer (Pipeline.passes (snd r))
  /\ (count_occ string_dec classes "keep-size" = 1%nat ->
      ~ In "keep-size" kept)
  /\ (forall text,
        fst r = inr (RawBlock "html" text) ->
        exists rest,
          text = figure_open id kept (Utils.toHTML5keyvals env keyvals)
                   ++ rest).
Proof.
  intros K D kept r.
  assert (R : Pipeline.run (resize_svg classes keyvals) t
              = (inr (kept, keyvals),
                 {| Pipeline.svgDOM := t; Pipeline.calls := [] |})).
  { unfold Pipeline.run, resize_svg. rewrite D, K.
    rewrite (filter_dim_keys_none keyvals D). reflexivity. }
  split; [exact R|]. split; [|split].
  - unfold r, Pipeline.run, process.
    unfold Pipeline.run in R. unfold Pipeline.bind at 1. rewrite R.
    destruct (String.eqb format "html"); [|simpl; tauto].
    unfold Pipeline.passes.
    rewrite calls_bind_no_calls by (intros _; apply process_tail_no_calls).
    rewrite html_passes_run. cbv zeta.
    destruct (text2foreignObject env _); cbn;
      intros H; repeat (destruct H as [H|H]; [discriminate|]); exact H.
  - apply remove_first_once.
  - intros text. unfold r, Pipeline.run, process.
    unfold Pipeline.run in R. unfold Pipeline.bind at 1. rewrite R.
    destruct (String.eqb format "html"); [|discriminate].
    unfold Pipeline.bind at 1.
    destruct (html_passes env _) as [[e|[]] st2]; [discriminate|].
    destruct figure.
    + unfold Pipeline.bind, Pipeline.get, Pipeline.lift, Pipeline.ret.
      destruct (Utils.ast2html env caption) as [e|c]; [discriminate|].
      cbn [fst]. intros H. injection H as <-. eexists. reflexivity.
    + unfold Pipeline.bind, Pipeline.get, Pipeline.modify, Pipeline.ret.
      destruct (negb _); discriminate.
Qed.

Lemma C9_keep_size_witness :
  let t := El "svg" [("width", "42mm"); ("height", "42mm")] None [] in
  let env := fixture t [] in
  Pipeline.run
    (resize_svg ["class1"; "keep-size"] [("scale-factor", "2")]) t
  = (inr (["class1"], [("scale-factor", "2")]),
     {| Pipeline.svgDOM := t; Pipeline.calls := [] |}).
Proof.
  intros t env.
  destruct (C9_keep_size env "html" true "fig1" ["class1"; "keep-size"]
                         [("scale-factor", "2")] [] t) as [H _];
    [reflexivity|reflexivity|exact H].
Defined.

(** [filter] on an image for the format [html]: when the file is an SVG
    that loads and the image has no class [ignore], it is processed. *)
Lemma filter_processes_image (env : Env) (id : string) (classes : list string)
      (keyvals : list (string * string)) (caption : list inline)
      (fname title svgString : string) :
  Utils.isSVG fname = true ->
  includes classes "ignore" = false ->
  Utils.loadSVG env fname = Some svgString ->
  svgString <> "" ->
  filter env (ImageElement (id, classes, keyvals) caption (fname, title)) "html"
  = (fst (Pipeline.run (process env "html" false (id, classes, keyvals) caption)
                       (Utils.createDOM env svgString)),
     Pipeline.calls
       (snd (Pipeline.run
               (process env "html" false (id, classes, keyvals) caption)
               (Utils.createDOM env svgString)))).
Proof.
  intros S I L N. unfold filter. cbn. rewrite S, I, L. cbn.
  apply is_empty_false in N. rewrite N.
  match goal with
  | |- (let (_, _) := ?x in _) = _ => destruct x
  end.
  reflexivity.
Qed.

(** [filter] on a figure, in the same way. *)
Lemma filter_processes_figure (env : Env) (id : string) (classes : list string)
      (keyvals : list (string * string)) (caption rest : list inline)
      (fname title svgString : string) :
  startsWith title "fig:" = true ->
  Utils.isSVG fname = true ->
  includes classes "ignore" = false ->
  Utils.loadSVG env fname = Some svgString ->
  svgString <> "" ->
  filter env
         (ParaElement
            (Image (id, classes, keyvals) caption (fname, title) :: rest))
         "html"
  = (fst (Pipeline.run (process env "html" true (id, classes, keyvals) caption)
                       (Utils.createDOM env svgString)),
     Pipeline.calls
       (snd (Pipeline.run
               (process env "html" true (id, classes, keyvals) caption)
               (Utils.createDOM env svgString)))).
Proof.
  intros F S I L N. unfold filter, filter_prelude.
  cbn [Utils.compatibleOutputFormat includes existsb String.eqb Ascii.eqb
       Bool.eqb orb negb Utils.isImage Utils.isFigure bind Exc.ret].
  rewrite F. cbn [negb bind Exc.ret]. rewrite S, I, L.
  cbn [negb]. apply is_empty_false in N. rewrite N.
  cbn [String.eqb Ascii.eqb Bool.eqb].
  match goal with
  | |- (let (_, _) := ?x in _) = _ => destruct x
  end.
  reflexivity.
Qed.

(* ================================================================== *)
(** * Further properties: strings *)
(* ================================================================== *)

Lemma append_assoc (a b c : string) : (a ++ b) ++ c = a ++ (b ++ c).
Proof. induction a as [|x a IH]; simpl; [reflexivity|now rewrite IH]. Qed.

Lemma append_empty_r (a : string) : a ++ "" = a.
Proof. induction a as [|x a IH]; simpl; [reflexivity|now rewrite IH]. Qed.

Lemma rev_append_rev (s acc : string) : rev_append s acc = rev s ++ acc.
Proof.
  unfold rev. revert acc.
  induction s as [|c s IH]; intros acc; simpl; [reflexivity|].
  rewrite IH, (IH (String c "")), append_assoc. reflexivity.
Qed.

Lemma rev_app (a b : string) : rev (a ++ b) = rev b ++ rev a.
Proof.
  induction a as [|c a IH]; simpl.
  - now rewrite append_empty_r.
  - unfold rev in *. simpl.
    rewrite (rev_append_rev (a ++ b)), (rev_append_rev a).
    unfold rev in *. now rewrite IH, append_assoc.
Qed.

Lemma rev_involutive (a : string) : rev (rev a) = a.
Proof.
  induction a as [|c a IH]; [reflexivity|].
  change (String c a) with (String c "" ++ a) at 1.
  rewrite rev_app, rev_app. now rewrite IH.
Qed.

Lemma forallb_rev (p : ascii -> bool) (a : string) :
  forallb p (rev a) = forallb p a.
Proof.
  induction a as [|c a IH]; [reflexivity|].
  change (String c a) with (String c "" ++ a) at 1.
  rewrite rev_app, forallb_append, IH. simpl.
  now rewrite andb_true_r, andb_comm.
Qed.

Lemma startsWith_app (s pre : string) :
  startsWith s pre = true <-> exists r, s = pre ++ r.
Proof.
  unfold startsWith. split.
  - destruct (strip_prefix pre s) as [r|] eqn:E; [|discriminate].
    intros _. exists r. now apply strip_prefix_app.
  - intros [r E]. apply strip_prefix_app in E. now rewrite E.
Qed.

Lemma ends_with (s suffix : string) :
  startsWith (rev s) (rev suffix) = true <-> exists stem, s = stem ++ suffix.
Proof.
  rewrite startsWith_app. split.
  - intros [r E]. exists (rev r).
    rewrite <- (rev_involutive s), E, rev_app. now rewrite rev_involutive.
  - intros [stem ->]. exists (rev stem). apply rev_app.
Qed.

(* ================================================================== *)
(** * Further properties: utils.js *)
(* ================================================================== *)

(** X1: [isSVG] accepts exactly the names that end in [.svg] or in [.SVG];
    no other spelling of the extension is accepted. *)
Theorem X1_isSVG_extension (fname : string) :
  Utils.isSVG fname = true
  <-> exists stem, fname = stem ++ ".svg" \/ fname = stem ++ ".SVG".
Proof.
  unfold Utils.isSVG. rewrite orb_true_iff, !ends_with. split.
  - intros [[stem E]|[stem E]]; exists stem; auto.
  - intros [stem [E|E]]; [left|right]; now exists stem.
Qed.

Lemma convert_outside_no_dollar (pre rest : string) :
  no_dollar pre = true ->
  Utils.convert_from Utils.Outside (pre ++ rest)
  = pre ++ Utils.convert_from Utils.Outside rest.
Proof.
  unfold no_dollar. induction pre as [|c pre IH]; intros H; [reflexivity|].
  simpl in H. apply andb_true_iff in H as [Hc H].
  apply negb_true_iff in Hc.
  cbn [append Utils.convert_from]. rewrite Hc. cbn [andb].
  now rewrite IH.
Qed.

Lemma convert_inside_no_dollar (body rest : string) :
  no_dollar body = true ->
  Utils.convert_from Utils.Inside (body ++ String "$" rest)
  = body ++ "\)" ++ Utils.convert_from Utils.Outside rest.
Proof.
  unfold no_dollar. induction body as [|c body IH]; intros H.
  - reflexivity.
  - simpl in H. apply andb_true_iff in H as [Hc H].
    apply negb_true_iff in Hc.
    cbn [append Utils.convert_from]. rewrite Hc. now rewrite IH.
Qed.

Lemma closing_dollar_on_line (body rest : string) :
  one_line body = true ->
  Utils.closing_dollar_ahead (body ++ String "$" rest) = true.
Proof.
  unfold one_line. induction body as [|c body IH]; intros H; [reflexivity|].
  simpl in H. apply andb_true_iff in H as [Hc H].
  apply negb_true_iff in Hc.
  cbn [append Utils.closing_dollar_ahead]. rewrite Hc.
  destruct (Ascii.eqb c "$"); [reflexivity|now apply IH].
Qed.

Lemma no_closing_dollar_on_line (body rest : string) :
  no_dollar body = true -> one_line body = false ->
  Utils.closing_dollar_ahead (body ++ rest) = false.
Proof.
  unfold no_dollar, one_line.
  induction body as [|c body IH]; intros D L; [discriminate|].
  simpl in D, L. apply andb_true_iff in D as [Dc D].
  apply negb_true_iff in Dc.
  cbn [append Utils.closing_dollar_ahead]. rewrite Dc.
  destruct (is_line_terminator c); [reflexivity|]. now apply IH.
Qed.

Lemma convert_first_equation (pre body post : string) :
  no_dollar pre = true ->
  body <> "" -> no_dollar body = true -> one_line body = true ->
  Utils.convertMathJaxDelimiters (pre ++ "$" ++ body ++ "$" ++ post)
  = pre ++ "\(" ++ body ++ "\)" ++ Utils.convertMathJaxDelimiters post.
Proof.
  intros P N D L. unfold Utils.convertMathJaxDelimiters.
  rewrite convert_outside_no_dollar by assumption. f_equal.
  destruct body as [|c body]; [congruence|].
  unfold no_dollar, one_line in D, L. simpl in D, L.
  apply andb_true_iff in D as [Dc D]. apply andb_true_iff in L as [Lc L].
  cbn [append Utils.convert_from Ascii.eqb Bool.eqb andb].
  rewrite Lc, (closing_dollar_on_line body post L).
  cbn [andb append]. do 3 f_equal.
  now apply convert_inside_no_dollar.
Qed.

(** X2: in a text that starts with characters other than [$], then a
    [$], an equation on one line without [$], and a [$],
    [convertMathJaxDelimiters] keeps the start, writes the equation between
    [\(] and [\)], and converts the rest of the text in the same way. *)
Theorem X2_convertMathJaxDelimiters_equation (pre body post : string) :
  no_dollar pre = true ->
  body <> "" -> no_dollar body = true -> one_line body = true ->
  Utils.convertMathJaxDelimiters (pre ++ "$" ++ body ++ "$" ++ post)
  = pre ++ "\(" ++ body ++ "\)" ++ Utils.convertMathJaxDelimiters post.
Proof. exact (convert_first_equation pre body post). Qed.

Lemma X2_convertMathJaxDelimiters_equation_witness :
  Utils.convertMathJaxDelimiters ("Text. " ++ "$" ++ "E=mc^2" ++ "$" ++ ", $")
  = "Text. " ++ "\(" ++ "E=mc^2" ++ "\)"
      ++ Utils.convertMathJaxDelimiters ", $".
Proof.
  apply (X2_convertMathJaxDelimiters_equation "Text. " "E=mc^2" ", $");
    (reflexivity || discriminate).
Defined.

(** [convertMathJaxDelimiters] returns a text without [$] as it is. *)
Lemma convertMathJaxDelimiters_no_dollar (text : string) :
  no_dollar text = true -> Utils.convertMathJaxDelimiters text = text.
Proof.
  intros H. unfold Utils.convertMathJaxDelimiters.
  rewrite <- (append_empty_r text) at 1.
  rewrite convert_outside_no_dollar by assumption.
  now rewrite append_empty_r.
Qed.

Lemma equation_matches (body : string) :
  body <> "" -> no_dollar body = true ->
  Utils.equationRegex_matches ("$" ++ body ++ "$") = true.
Proof.
  intros N D. apply equationRegex_matches_prefix.
  exists body, "". auto.
Qed.

(** X4: for a content that is exactly one equation on one line, [md2html]
    returns the equation between [\(] and [\)] in a math span, and does not
    depend on pandoc. *)
Theorem X4_md2html_equation (env : Env) (body : string) :
  body <> "" -> no_dollar body = true -> one_line body = true ->
  Utils.md2html env ("$" ++ body ++ "$")
  = math_span_open ++ "\(" ++ body ++ "\)" ++ math_span_close.
Proof.
  intros N D L. unfold Utils.md2html.
  rewrite (equation_matches body N D).
  assert (E : Utils.convertMathJaxDelimiters ("$" ++ body ++ "$")
              = "\(" ++ body ++ "\)")
    by exact (convert_first_equation "" body "" eq_refl N D L).
  rewrite E. unfold math_span_open, math_span_close.
  rewrite !append_assoc. reflexivity.
Qed.

Lemma X4_md2html_equation_witness :
  Utils.md2html (fixture (El "svg" [] None []) []) ("$" ++ "E=mc^2" ++ "$")
  = math_span_open ++ "\(" ++ "E=mc^2" ++ "\)" ++ math_span_close.
Proof.
  apply (X4_md2html_equation _ "E=mc^2"); (reflexivity || discriminate).
Defined.

(** X5: for a content that is one equation with a line terminator in it,
    [md2html] still takes the direct path, and the equation keeps its [$]
    delimiters: the dot of the expression of [convertMathJaxDelimiters]
    matches no line terminator. *)
Theorem X5_md2html_equation_over_lines (env : Env) (body : string) :
  no_dollar body = true -> one_line body = false ->
  Utils.md2html env ("$" ++ body ++ "$")
  = math_span_open ++ "$" ++ body ++ "$" ++ math_span_close.
Proof.
  intros D L. unfold Utils.md2html.
  assert (N : body <> "") by (intros ->; discriminate).
  rewrite (equation_matches body N D).
  assert (E : Utils.convertMathJaxDelimiters ("$" ++ body ++ "$")
              = "$" ++ body ++ "$").
  { unfold Utils.convertMathJaxDelimiters.
    destruct body as [|c body]; [congruence|].
    cbn [append Utils.convert_from Ascii.eqb Bool.eqb andb].
    assert (C : negb (is_line_terminator c)
                && Utils.closing_dollar_ahead (body ++ "$") = false).
    { unfold no_dollar, one_line in D, L. simpl in D, L.
      apply andb_true_iff in D as [_ D].
      destruct (is_line_terminator c); [reflexivity|]. simpl in L |- *.
      now apply no_closing_dollar_on_line. }
    rewrite C. f_equal.
    exact (convert_outside_no_dollar (String c body) "$" D). }
  rewrite E. unfold math_span_open, math_span_close.
  rewrite !append_assoc. reflexivity.
Qed.

Lemma X5_md2html_equation_over_lines_witness :
  Utils.md2html (fixture (El "svg" [] None []) [])
                ("$" ++ ("a" ++ LF ++ "b") ++ "$")
  = math_span_open ++ "$" ++ ("a" ++ LF ++ "b") ++ "$" ++ math_span_close.
Proof.
  apply (X5_md2html_equation_over_lines _ ("a" ++ LF ++ "b")); reflexivity.
Defined.

(** What [paragraph_content] accepts. *)
Lemma paragraph_content_Some (html content : string) :
  Utils.paragraph_content html = Some content
  <-> html = "<p>" ++ content ++ "</p>" ++ LF /\ one_line content = true.
Proof.
  unfold Utils.paragraph_content, one_line. split.
  - destruct (strip_prefix "<p>" html) as [r|] eqn:P; [|discriminate].
    apply strip_prefix_app in P. subst html.
    destruct (strip_prefix (rev ("</p>" ++ LF)) (rev r)) as [c|] eqn:S;
      [|discriminate].
    apply strip_prefix_app in S.
    destruct (forallb _ c) eqn:F; [|discriminate].
    intros H. injection H as <-.
    rewrite forallb_rev. split; [|exact F].
    rewrite <- (rev_involutive r), S, rev_app, rev_involutive.
    reflexivity.
  - intros [-> F].
    assert (P : strip_prefix "<p>" ("<p>" ++ content ++ "</p>" ++ LF)
                = Some (content ++ "</p>" ++ LF))
      by now apply strip_prefix_app.
    rewrite P.
    assert (S : strip_prefix (rev ("</p>" ++ LF))
                             (rev (content ++ "</p>" ++ LF))
                = Some (rev content))
      by (apply strip_prefix_app, rev_app).
    rewrite S, forallb_rev, F. now rewrite rev_involutive.
Qed.

(** X6: [ast2html] returns the caption when pandoc prints one paragraph on
    one line, [<p>], the caption, [</p>] and a line feed, and throws for
    every other output of pandoc, as for a paragraph that pandoc has wrapped
    over several lines. *)
Theorem X6_ast2html_one_line (env : Env) (inlineAST : list inline) :
  let html :=
    Utils.pandoc env "json" "html" (stringifyCaption env inlineAST) "" in
  match Utils.ast2html env inlineAST with
  | inr content =>
      html = "<p>" ++ content ++ "</p>" ++ LF /\ one_line content = true
  | inl _ =>
      forall content,
        html = "<p>" ++ content ++ "</p>" ++ LF -> one_line content = false
  end.
Proof.
  intros html. unfold Utils.ast2html. fold html.
  destruct (Utils.paragraph_content html) as [c|] eqn:E; cbn [groups].
  - now apply paragraph_content_Some.
  - intros content H. destruct (one_line content) eqn:L; [|reflexivity].
    assert (S : Utils.paragraph_content html = Some content)
      by (apply paragraph_content_Some; auto).
    congruence.
Qed.

(* ================================================================== *)
(** * Further properties: flattening (utils.js) *)
(* ================================================================== *)

Lemma elements_flattened (ns : list node) :
  elements
    (map (fun n => match n with
                   | Elem child => Text (innerHTML child)
                   | _ => n
                   end) ns) = [].
Proof. induction ns as [|[d|d|e] ns IH]; simpl; assumption || reflexivity. Qed.

(** X7: after [flattenTextChildren] the element has no element among its
    children any more, and as many child nodes as before; its content holds
    the content of every child element as text, with its markup escaped, and
    the other child nodes as they were; to flatten it again changes
    nothing. *)
Theorem X7_flattenTextChildren_flat (textElt : element) :
  children (Utils.flattenTextChildren textElt) = []
  /\ List.length (childNodes_of (Utils.flattenTextChildren textElt))
     = List.length (childNodes_of textElt)
  /\ innerHTML (Utils.flattenTextChildren textElt)
     = String.concat "" (map flattened_content (childNodes_of textElt))
  /\ Utils.flattenTextChildren (Utils.flattenTextChildren textElt)
     = Utils.flattenTextChildren textElt.
Proof.
  destruct textElt as [t a s cs].
  assert (C : children (Utils.flattenTextChildren (El t a s cs)) = [])
    by apply elements_flattened.
  split; [exact C|]. split; [|split].
  - cbn. apply length_map.
  - unfold innerHTML, serialize_nodes, Utils.flattenTextChildren.
    cbn [childNodes_of]. rewrite map_map. f_equal.
    apply map_ext. intros [d|d|e]; reflexivity.
  - unfold Utils.flattenTextChildren at 1. rewrite C.
    unfold Utils.flattenTextChildren.
    cbn [tagName attributes style_attr childNodes_of fold_left].
    f_equal. rewrite map_map. apply map_ext_in.
    intros [d|d|e] _; reflexivity.
Qed.

(* ================================================================== *)
(** * Further properties: the version of Inkscape (utils.js) *)
(* ================================================================== *)

Lemma span_run (p : ascii -> bool) (a s : string) :
  forallb p a = true ->
  span p (a ++ s) = (a ++ fst (span p s), snd (span p s)).
Proof.
  induction a as [|c a IH]; simpl; intros H.
  - now destruct (span p s).
  - apply andb_true_iff in H as [Hc H]. rewrite Hc, (IH H). reflexivity.
Qed.

Lemma stops_span (p q : ascii -> bool) (s : string) :
  stops q s -> stops q (fst (span p s)).
Proof.
  destruct s as [|c s]; simpl; [trivial|]. intros H.
  destruct (p c); [|exact I]. now destruct (span p s).
Qed.

Lemma stops_digit (s : string) : stops is_digit_or_dot s -> stops is_digit s.
Proof.
  destruct s as [|c s]; simpl; [trivial|]. unfold is_digit_or_dot.
  intros H. now apply orb_false_iff in H.
Qed.

Lemma version_exec_run (version rest : string) :
  version <> "" -> forallb is_digit_or_dot version = true ->
  Utils.version_exec ("Inkscape " ++ version ++ rest)
  = Some (version ++ fst (span is_digit_or_dot rest)).
Proof.
  intros N F. unfold Utils.version_exec.
  assert (P : strip_prefix "Inkscape " ("Inkscape " ++ version ++ rest)
              = Some (version ++ rest)) by now apply strip_prefix_app.
  rewrite P, (span_run _ _ _ F).
  destruct version; [congruence|reflexivity].
Qed.

Lemma major_minor_exec_run (major minor tail : string) :
  major <> "" -> forallb is_digit major = true ->
  minor <> "" -> forallb is_digit minor = true ->
  Utils.major_minor_exec (major ++ String "." (minor ++ tail))
  = Some (major, minor ++ fst (span is_digit tail)).
Proof.
  intros N F N' F'. unfold Utils.major_minor_exec.
  rewrite (span_stop is_digit major (String "." (minor ++ tail)) F eq_refl).
  apply is_empty_false in N. rewrite N, (span_run _ _ _ F').
  destruct minor; [congruence|reflexivity].
Qed.

Lemma minor_below_1000 (n : Z) :
  (0 <= n < 1000)%Z ->
  Z_to_string n <> ""
  /\ forallb is_digit (Z_to_string n) = true
  /\ ge (Number (Z_to_string n)) (of_Z 49) = (49 <=? n)%Z.
Proof.
  intros H.
  assert (A : List.forallb
                (fun k =>
                   let m := Z_to_string (Z.of_nat k) in
                   negb (is_empty m) && forallb is_digit m
                   && Bool.eqb (ge (Number m) (of_Z 49))
                               (49 <=? Z.of_nat k)%Z)
                (seq 0 1000) = true) by (vm_compute; reflexivity).
  rewrite forallb_forall in A.
  specialize (A (Z.to_nat n)).
  rewrite Z2Nat.id in A by apply H.
  assert (I : In (Z.to_nat n) (seq 0 1000)).
  { apply in_seq. split; [apply Nat.le_0_l|].
    change (0 + 1000)%nat with (Z.to_nat 1000).
    apply Z2Nat.inj_lt; try apply H. discriminate. }
  specialize (A I). cbv zeta in A.
  apply andb_true_iff in A as [A C]. apply andb_true_iff in A as [A B].
  apply negb_true_iff, is_empty_false in A.
  apply Bool.eqb_prop in C. auto.
Qed.

Lemma report_twice (msg : string) (st : Utils.console) :
  Utils.report msg (Utils.report msg st) = Utils.report msg st.
Proof.
  unfold Utils.report.
  destruct (Utils.printedInkscapeVersionErrorMsg st) eqn:E; simpl.
  - now rewrite E.
  - reflexivity.
Qed.

(** X9: with an Inkscape of version [0.n] ([n] below 1000),
    [validInkscapeVersion] answers [true] from [0.49] on and nothing
    printed; for an older one, [0.48] too, it answers [false] and reports
    that the version must be at least 0.48. *)
Theorem X9_validInkscapeVersion_minimum
  (commandExists : string -> bool) (env : Env) (st : Utils.console)
  (n : Z) (rest : string) :
  commandExists "inkscape" = true ->
  (0 <= n < 1000)%Z ->
  stops is_digit rest ->
  execSync env "inkscape --version" ""
  = "Inkscape " ++ ("0." ++ Z_to_string n) ++ rest ->
  Utils.validInkscapeVersion commandExists env st
  = inr (if (49 <=? n)%Z then (true, st)
         else (false,
               Utils.report
                 (Utils.old_inkscape_message
                    (("0." ++ Z_to_string n)
                       ++ fst (span is_digit_or_dot rest))) st)).
Proof.
  intros C B S E. destruct (minor_below_1000 n B) as (N & F & G).
  unfold Utils.validInkscapeVersion. rewrite C, E. cbn [negb].
  rewrite version_exec_run;
    [|discriminate|cbn [append forallb]; now rewrite digits_or_dots].
  cbn [groups bind ret].
  set (tail := fst (span is_digit_or_dot rest)).
  assert (M : Utils.major_minor_exec (("0." ++ Z_to_string n) ++ tail)
              = Some ("0", Z_to_string n)).
  { change (("0." ++ Z_to_string n) ++ tail)
      with ("0" ++ String "." (Z_to_string n ++ tail)).
    rewrite major_minor_exec_run by (discriminate || trivial).
    assert (T : span is_digit tail = ("", tail)).
    { pose proof (stops_span is_digit_or_dot is_digit rest S) as Q.
      fold tail in Q. destruct tail as [|c t]; [reflexivity|].
      simpl in Q |- *. now rewrite Q. }
    rewrite T. cbn [fst]. now rewrite append_empty_r. }
  rewrite M. cbn [groups bind ret String.eqb Ascii.eqb Bool.eqb]. rewrite G.
  now destruct (49 <=? n)%Z.
Qed.

Lemma X9_validInkscapeVersion_minimum_witness :
  Utils.validInkscapeVersion
    (fun _ => true) (inkscape_prints "Inkscape 0.48.5 r10040")
    {| Utils.printedInkscapeVersionErrorMsg := false; Utils.stderr := [] |}
  = inr (false,
         {| Utils.printedInkscapeVersionErrorMsg := true;
            Utils.stderr := [Utils.old_inkscape_message "0.48.5"] |}).
Proof.
  apply (X9_validInkscapeVersion_minimum
           (fun _ => true) (inkscape_prints "Inkscape 0.48.5 r10040")
           {| Utils.printedInkscapeVersionErrorMsg := false;
              Utils.stderr := [] |}
           48 ".5 r10040");
    [reflexivity|split; [intros H; discriminate H|reflexivity]
    |reflexivity|reflexivity].
Defined.

(** X10: with an Inkscape whose major version is not [0],
    [validInkscapeVersion] answers [true] and prints nothing. *)
Theorem X10_validInkscapeVersion_major
  (commandExists : string -> bool) (env : Env) (st : Utils.console)
  (major minor rest : string) :
  commandExists "inkscape" = true ->
  major <> "" -> forallb is_digit major = true -> major <> "0" ->
  minor <> "" -> forallb is_digit minor = true ->
  execSync env "inkscape --version" ""
  = "Inkscape " ++ (major ++ "." ++ minor) ++ rest ->
  Utils.validInkscapeVersion commandExists env st = inr (true, st).
Proof.
  intros C N F Z N' F' E.
  unfold Utils.validInkscapeVersion. rewrite C, E. cbn [negb].
  rewrite version_exec_run.
  - cbn [groups bind ret]. rewrite append_assoc.
    change (("." ++ minor) ++ ?t) with (String "." (minor ++ t)).
    rewrite major_minor_exec_run by assumption. cbn [groups bind ret].
    apply String.eqb_neq in Z. now rewrite Z.
  - destruct major; [congruence|discriminate].
  - rewrite forallb_append, (digits_or_dots _ F). cbn [append forallb].
    now rewrite (digits_or_dots _ F').
Qed.

Lemma X10_validInkscapeVersion_major_witness :
  Utils.validInkscapeVersion
    (fun _ => true) (inkscape_prints "Inkscape 1.2.2 (b0a8486541, 2022-12-01)")
    {| Utils.printedInkscapeVersionErrorMsg := false; Utils.stderr := [] |}
  = inr (true,
         {| Utils.printedInkscapeVersionErrorMsg := false;
            Utils.stderr := [] |}).
Proof.
  apply (X10_validInkscapeVersion_major
           (fun _ => true)
           (inkscape_prints "Inkscape 1.2.2 (b0a8486541, 2022-12-01)")
           _ "1" "2" ".2 (b0a8486541, 2022-12-01)");
    (reflexivity || discriminate).
Defined.

(** X11: when Inkscape prints a version without a minor number, as in
    [Inkscape 1 (...)], or no number after its name,
    [validInkscapeVersion] throws a TypeError and gives no answer. *)
Theorem X11_validInkscapeVersion_no_minor
  (commandExists : string -> bool) (env : Env) (st : Utils.console)
  (major rest : string) :
  commandExists "inkscape" = true ->
  forallb is_digit major = true -> stops is_digit_or_dot rest ->
  execSync env "inkscape --version" "" = "Inkscape " ++ major ++ rest ->
  throws (Utils.validInkscapeVersion commandExists env st).
Proof.
  intros C F S E. unfold Utils.validInkscapeVersion.
  rewrite C, E. cbn [negb].
  assert (T : span is_digit_or_dot rest = ("", rest))
    by (destruct rest as [|c r]; [reflexivity|]; simpl in S |- *;
        now rewrite S).
  destruct major as [|c major].
  - unfold Utils.version_exec.
    assert (P : strip_prefix "Inkscape " ("Inkscape " ++ "" ++ rest)
                = Some rest) by now apply strip_prefix_app.
    rewrite P, T. cbn. now eexists.
  - rewrite version_exec_run by (discriminate || now apply digits_or_dots).
    rewrite T. cbn [fst groups bind ret]. rewrite append_empty_r.
    unfold Utils.major_minor_exec.
    rewrite <- (append_empty_r (String c major)) at 1.
    rewrite (span_stop is_digit (String c major) "" F I).
    cbn. now eexists.
Qed.

Lemma X11_validInkscapeVersion_no_minor_witness :
  throws (Utils.validInkscapeVersion
            (fun _ => true) (inkscape_prints "Inkscape 1 (abc)")
            {| Utils.printedInkscapeVersionErrorMsg := false;
               Utils.stderr := [] |}).
Proof.
  apply (X11_validInkscapeVersion_no_minor
           (fun _ => true) (inkscape_prints "Inkscape 1 (abc)") _
           "1" " (abc)"); reflexivity.
Defined.

(** X12: [validInkscapeVersion] reports at most once: when it has
    answered, a second call gives the same answer and prints nothing more;
    the answer [true] prints nothing, and the answer [false] leaves the flag
    set and at most one more message. *)
Theorem X12_validInkscapeVersion_reports_once
  (commandExists : string -> bool) (env : Env) (st st' : Utils.console)
  (b : bool) :
  Utils.validInkscapeVersion commandExists env st = inr (b, st') ->
  Utils.validInkscapeVersion commandExists env st' = inr (b, st')
  /\ (b = true -> st' = st)
  /\ (b = false -> Utils.printedInkscapeVersionErrorMsg st' = true)
  /\ List.length (Utils.stderr st') <= S (List.length (Utils.stderr st)).
Proof.
  assert (R : forall msg,
             Utils.printedInkscapeVersionErrorMsg (Utils.report msg st) = true
             /\ List.length (Utils.stderr (Utils.report msg st))
                <= S (List.length (Utils.stderr st))).
  { intros msg. unfold Utils.report.
    destruct (Utils.printedInkscapeVersionErrorMsg st) eqn:P; cbn.
    - split; [exact P|apply Nat.le_succ_diag_r].
    - split; [reflexivity|]. rewrite length_app, Nat.add_comm.
      apply Nat.le_refl. }
  unfold Utils.validInkscapeVersion.
  destruct (negb (commandExists "inkscape")).
  - intros H. injection H as <- <-. rewrite report_twice.
    repeat split; intros; try discriminate; apply R.
  - destruct (groups (Utils.version_exec _)) as [e|v]; cbn [bind ret];
      [discriminate|].
    destruct (groups (Utils.major_minor_exec v)) as [e|[major minor]];
      cbn [bind ret]; [discriminate|].
    destruct (String.eqb major "0");
      [destruct (negb (ge (Number minor) (of_Z 49)))|];
      intros H; injection H as <- <-;
      try rewrite report_twice;
      repeat split; intros; try discriminate; try apply R;
      try apply Nat.le_succ_diag_r.
Qed.

Lemma X12_validInkscapeVersion_reports_once_witness :
  let st' := {| Utils.printedInkscapeVersionErrorMsg := true;
                Utils.stderr := [Utils.no_inkscape_message] |} in
  Utils.validInkscapeVersion (fun _ => false) (inkscape_prints "") st'
  = inr (false, st').
Proof.
  intros st'.
  apply (X12_validInkscapeVersion_reports_once
           (fun _ => false) (inkscape_prints "")
           {| Utils.printedInkscapeVersionErrorMsg := false;
              Utils.stderr := [] |} st' false).
  reflexivity.
Defined.

(* ================================================================== *)
(** * Further properties: the Resizer (resize.js) *)
(* ================================================================== *)

Lemma resize_cases (svgDOM : element) (d : dimObj) :
  resize svgDOM d = inr svgDOM
  \/ exists w h, resize svgDOM d = inr (applyWidthHeight svgDOM w h).
Proof.
  unfold resize.
  destruct (dimValid (string_of_nullable (getAttribute svgDOM "width"))) eqn:VW;
    [|simpl; auto].
  destruct (dimValid (string_of_nullable (getAttribute svgDOM "height"))) eqn:VH;
    [|simpl; auto].
  destruct (dimValid_exec _ VW) as (wv & wu & EW).
  destruct (dimValid_exec _ VH) as (hv & hu & EH).
  rewrite EW, EH. cbn [negb orb groups bind Exc.ret fst snd].
  destruct (relUnits_has wu || relUnits_has hu); [right; eauto|].
  destruct (width d) as [w|], (height d) as [h|].
  - destruct (negb (pandocDimValid w) || negb (pandocDimValid h));
      [left|right]; eauto.
  - destruct (pandocDimValid w) eqn:V; cbn [negb]; [|auto].
    destruct (pandocDimValid_exec_normalized w V) as (v & u & E).
    rewrite E. cbn [groups bind Exc.ret]. right; eauto.
  - destruct (pandocDimValid h) eqn:V; cbn [negb]; [|auto].
    destruct (pandocDimValid_exec_normalized h V) as (v & u & E).
    rewrite E. cbn [groups bind Exc.ret]. right; eauto.
  - right; eauto.
Qed.

(** X13: [resize] never throws, and the tree it leaves differs from the
    one it was given in the attributes [width] and [height] of the root at
    most: the tag, the style, the child nodes and the other attributes are
    the same. *)
Theorem X13_resize_frame (svgDOM : element) (d : dimObj) :
  exists svgDOM',
    resize svgDOM d = inr svgDOM'
    /\ tagName svgDOM' = tagName svgDOM
    /\ style_attr svgDOM' = style_attr svgDOM
    /\ childNodes_of svgDOM' = childNodes_of svgDOM
    /\ (forall name, name <> "width" -> name <> "height" ->
        getAttribute svgDOM' name = getAttribute svgDOM name).
Proof.
  destruct (resize_cases svgDOM d) as [E|(w & h & E)].
  - exists svgDOM. auto.
  - exists (applyWidthHeight svgDOM w h).
    split; [exact E|]. destruct svgDOM as [t a s cs].
    repeat split. intros name NW NH. unfold applyWidthHeight.
    rewrite !getAttribute_setAttribute_other; auto.
Qed.

Lemma sized_in_absolute_units_exec (svgDOM : element) :
  sized_in_absolute_units svgDOM = true ->
  exists wv wu hv hu,
    dimValid (string_of_nullable (getAttribute svgDOM "width")) = true
    /\ dimValid (string_of_nullable (getAttribute svgDOM "height")) = true
    /\ dimRegex_exec (string_of_nullable (getAttribute svgDOM "width"))
       = Some (wv, wu)
    /\ dimRegex_exec (string_of_nullable (getAttribute svgDOM "height"))
       = Some (hv, hu)
    /\ relUnits_has wu = false /\ relUnits_has hu = false.
Proof.
  unfold sized_in_absolute_units, unit_of. intros S.
  apply andb_true_iff in S as [S RH]. apply andb_true_iff in S as [S RW].
  apply andb_true_iff in S as [VW VH].
  destruct (dimValid_exec _ VW) as (wv & wu & EW).
  destruct (dimValid_exec _ VH) as (hv & hu & EH).
  rewrite EW in RW. rewrite EH in RH.
  apply negb_true_iff in RW, RH.
  exists wv, wu, hv, hu. auto 10.
Qed.

(** X14: when the [width] or the [height] of the root has a relative unit
    (and both are valid), [resize] multiplies the two numbers by the scale
    factor and keeps the two units, each its own; the [width] and [height]
    it is asked for are not used. *)
Theorem X14_resize_relative_source (svgDOM : element) (d : dimObj) :
  let svgWidthStr := string_of_nullable (getAttribute svgDOM "width") in
  let svgHeightStr := string_of_nullable (getAttribute svgDOM "height") in
  dimValid svgWidthStr = true -> dimValid svgHeightStr = true ->
  relUnits_has (unit_of svgWidthStr) || relUnits_has (unit_of svgHeightStr)
  = true ->
  resize svgDOM d
  = inr (applyWidthHeight svgDOM
           (to_string
              (Utils.round (mul (effective_scaleFactor d)
                                (value_of svgWidthStr)))
              ++ unit_of svgWidthStr)
           (to_string
              (Utils.round (mul (effective_scaleFactor d)
                                (value_of svgHeightStr)))
              ++ unit_of svgHeightStr)).
Proof.
  intros W H VW VH R. subst W H. unfold resize, unit_of, value_of in *.
  destruct (dimValid_exec _ VW) as (wv & wu & EW).
  destruct (dimValid_exec _ VH) as (hv & hu & EH).
  rewrite VW, VH, EW, EH in *.
  cbn [negb orb groups bind Exc.ret fst snd]. now rewrite R.
Qed.

Lemma X14_resize_relative_source_witness :
  resize (El "svg" [("width", "10em"); ("height", "5mm")] None [])
         {| scaleFactor := Some (VString "2"); width := Some "3cm";
            height := None |}
  = inr (El "svg" [("width", "20em"); ("height", "10mm")] None []).
Proof.
  exact (X14_resize_relative_source
           (El "svg" [("width", "10em"); ("height", "5mm")] None [])
           {| scaleFactor := Some (VString "2"); width := Some "3cm";
              height := None |} eq_refl eq_refl eq_refl).
Defined.

(** X15: for a root sized in absolute units and one target that pandoc
    allows, [resize] writes the target, with [inch] as [in], on its axis,
    and on the other axis the number of the target times (for the width) or
    divided by (for the height) the aspect ratio, rounded, with the unit of
    the target; a target that pandoc does not allow leaves the root as it
    is. *)
Theorem X15_resize_one_target (svgDOM : element) (d : dimObj) (dim : string) :
  sized_in_absolute_units svgDOM = true ->
  (width d = None /\ height d = Some dim)
  \/ (width d = Some dim /\ height d = None) ->
  let dim' := replace_first "inch" "in" dim in
  resize svgDOM d
  = inr (if negb (pandocDimValid dim) then svgDOM
         else
           match width d with
           | None =>
               applyWidthHeight svgDOM
                 (to_string
                    (Utils.round (mul (value_of dim') (aspectRatio_of svgDOM)))
                    ++ unit_of dim')
                 dim'
           | Some _ =>
               applyWidthHeight svgDOM dim'
                 (to_string
                    (Utils.round (div (value_of dim') (aspectRatio_of svgDOM)))
                    ++ unit_of dim')
           end).
Proof.
  intros S T dim'.
  destruct (sized_in_absolute_units_exec svgDOM S)
    as (wv & wu & hv & hu & VW & VH & EW & EH & RW & RH).
  unfold resize, aspectRatio_of, in_px.
  rewrite VW, VH, EW, EH.
  cbn [negb orb groups bind Exc.ret fst snd]. rewrite RW, RH. cbn [orb].
  destruct T as [[Tw Th]|[Tw Th]]; rewrite Tw, Th;
    (destruct (pandocDimValid dim) eqn:V; cbn [negb]; [|reflexivity]);
    destruct (pandocDimValid_exec_normalized dim V) as (v & u & E);
    unfold value_of, unit_of; fold dim'; fold dim' in E; rewrite E;
    reflexivity.
Qed.

Lemma X15_resize_one_target_witness :
  resize (El "svg" [("width", "200"); ("height", "100px")] None [])
         {| scaleFactor := None; width := None; height := Some "2inch" |}
  = inr (El "svg" [("width", "4in"); ("height", "2in")] None []).
Proof.
  exact (X15_resize_one_target
           (El "svg" [("width", "200"); ("height", "100px")] None [])
           {| scaleFactor := None; width := None; height := Some "2inch" |}
           "2inch" eq_refl (or_introl (conj eq_refl eq_refl))).
Defined.

Lemma update_present (k v : string) (a : list (string * string)) :
  lookup k a = Some v -> update k v a = a.
Proof.
  induction a as [|[k' v'] a IH]; simpl; [discriminate|].
  destruct (String.eqb k' k).
  - intros H. now injection H as ->.
  - intros H. now rewrite IH.
Qed.

Lemma setAttribute_present (e : element) (k v : string) :
  getAttribute e k = Some v -> setAttribute e k v = e.
Proof.
  destruct e as [t a s cs]. unfold getAttribute, setAttribute. simpl.
  intros H. now rewrite update_present.
Qed.

Lemma applyWidthHeight_twice (e : element) (w h : string) :
  applyWidthHeight (applyWidthHeight e w h) w h = applyWidthHeight e w h.
Proof.
  destruct (getAttribute_applyWidthHeight e w h) as [W H].
  unfold applyWidthHeight at 1.
  rewrite (setAttribute_present _ _ _ W).
  now apply setAttribute_present.
Qed.

Lemma resize_two_targets (svgDOM : element) (d : dimObj) (w h : string) :
  sized_in_absolute_units svgDOM = true ->
  width d = Some w -> height d = Some h ->
  resize svgDOM d
  = inr (if negb (pandocDimValid w) || negb (pandocDimValid h) then svgDOM
         else applyWidthHeight svgDOM (replace_first "inch" "in" w)
                               (replace_first "inch" "in" h)).
Proof.
  intros S Hw Hh.
  destruct (sized_in_absolute_units_exec svgDOM S)
    as (wv & wu & hv & hu & VW & VH & EW & EH & RW & RH).
  unfold resize. rewrite VW, VH, EW, EH, Hw, Hh.
  cbn [negb orb groups bind Exc.ret fst snd]. rewrite RW, RH. cbn [orb].
  now destruct (negb (pandocDimValid w) || negb (pandocDimValid h)).
Qed.

(** A target that pandoc allows has no relative unit once [inch] is
    replaced. *)
Lemma normalized_target_not_relative (dim : string) :
  pandocDimValid dim = true ->
  relUnits_has (unit_of (replace_first "inch" "in" dim)) = false.
Proof.
  intros V.
  destruct (pandocDimValid_shape dim V) as (val & unit & -> & N & F & U).
  rewrite (replace_inch val unit F U). unfold unit_of.
  assert (E : dimRegex_exec
                (val ++ (if String.eqb unit "inch" then "in" else unit))
              = Some (val, if String.eqb unit "inch" then "in" else unit)).
  { apply dimRegex_exec_Some. repeat split; try assumption.
    simpl in U.
    repeat (destruct U as [<-|U]; [vm_compute; reflexivity|]).
    contradiction. }
  rewrite E. simpl in U.
  repeat (destruct U as [<-|U]; [vm_compute; reflexivity|]).
  contradiction.
Qed.

(** X16: with a [width] and a [height] asked for, to resize a root sized
    in absolute units a second time changes nothing more. *)
Theorem X16_resize_two_targets_twice
  (svgDOM svgDOM' : element) (d : dimObj) (w h : string) :
  sized_in_absolute_units svgDOM = true ->
  width d = Some w -> height d = Some h ->
  resize svgDOM d = inr svgDOM' ->
  resize svgDOM' d = inr svgDOM'.
Proof.
  intros S Hw Hh. rewrite (resize_two_targets svgDOM d w h S Hw Hh).
  destruct (pandocDimValid w) eqn:V1; cbn [negb orb].
  2:{ intros E. injection E as <-.
      rewrite (resize_two_targets svgDOM d w h S Hw Hh), V1. reflexivity. }
  destruct (pandocDimValid h) eqn:V2; cbn [negb].
  2:{ intros E. injection E as <-.
      rewrite (resize_two_targets svgDOM d w h S Hw Hh), V1, V2.
      reflexivity. }
  intros E. injection E as <-.
  set (w' := replace_first "inch" "in" w).
  set (h' := replace_first "inch" "in" h).
  destruct (getAttribute_applyWidthHeight svgDOM w' h') as [GW GH].
  destruct (dimValid w' && dimValid h') eqn:V.
  - apply andb_true_iff in V as [VW VH].
    rewrite (resize_two_targets _ d w h); try assumption.
    + rewrite V1, V2. cbn [negb orb]. fold w' h'.
      now rewrite applyWidthHeight_twice.
    + unfold sized_in_absolute_units. rewrite GW, GH.
      cbn [string_of_nullable]. rewrite VW, VH.
      unfold w', h'.
      now rewrite !normalized_target_not_relative.
  - apply resize_invalid_source. rewrite GW, GH. cbn [string_of_nullable].
    apply andb_false_iff in V. exact V.
Qed.

Lemma X16_resize_two_targets_twice_witness :
  resize (El "svg" [("width", "50%"); ("height", "2in")] None [])
         {| scaleFactor := None; width := Some "50%";
            height := Some "2inch" |}
  = inr (El "svg" [("width", "50%"); ("height", "2in")] None []).
Proof.
  apply (X16_resize_two_targets_twice
           (El "svg" [("width", "200"); ("height", "100px")] None [])
           _ _ "50%" "2inch"); reflexivity.
Defined.

(* ================================================================== *)
(** * Further properties: the optimizer on trees (optimize.js) *)
(* ================================================================== *)

(** Induction on a tree: an element has the property when its child nodes
    have it. *)
Lemma node_tree_ind (P : node -> Prop) :
  (forall d, P (Text d)) -> (forall d, P (Comment d)) ->
  (forall t a s cs, Forall P cs -> P (Elem (El t a s cs))) ->
  forall n, P n.
Proof.
  intros HT HC HE. fix IH 1. intros [d|d|[t a s cs]]; [apply HT|apply HC|].
  apply HE. induction cs as [|c cs IHcs]; constructor; [apply IH|exact IHcs].
Qed.

Lemma map_id_Forall {A : Type} (f : A -> A) (P : A -> Prop) (l : list A) :
  Forall (fun x => P x -> f x = x) l -> Forall P l -> map f l = l.
Proof.
  induction 1 as [|x l H _ IH]; intros F; [reflexivity|].
  inversion F; subst. simpl. now rewrite H, IH.
Qed.

Lemma forallb_Forall {A : Type} (p : A -> bool) (l : list A) :
  List.forallb p l = true <-> Forall (fun x => p x = true) l.
Proof.
  rewrite forallb_forall, Forall_forall. reflexivity.
Qed.

Lemma removeTranslations_node_id (n : node) :
  every_element (fun e => negb (folds e)) n = true ->
  removeTranslations_node None n = n.
Proof.
  induction n as [d|d|t a s cs IH] using node_tree_ind; try reflexivity.
  cbn [every_element removeTranslations_node]. intros H.
  apply andb_true_iff in H as [H C]. apply negb_true_iff in H.
  unfold folds in H. unfold fold_translation. cbn [apply_pending].
  destruct (translation_of (El t a s cs)); [discriminate|].
  cbn [set_childNodes]. do 2 f_equal.
  apply forallb_Forall in C.
  exact (map_id_Forall _ _ cs IH C).
Qed.

(** X17: translation folding leaves a document as it is when its callback
    folds nothing into any element: when no element has a [transform] with
    a translation that the expression matches and an [x] and a [y] on
    itself and on all its children. *)
Theorem X17_removeTranslations_nothing_to_fold (svgDOM : element) :
  every_element (fun e => negb (folds e)) (Elem svgDOM) = true ->
  removeTranslations svgDOM = svgDOM.
Proof.
  intros H. unfold removeTranslations.
  now rewrite (removeTranslations_node_id (Elem svgDOM) H).
Qed.

Lemma X17_removeTranslations_nothing_to_fold_witness :
  let svgDOM :=
    El "svg" [("width", "10")] None
       [Elem (El "g" [("transform", "translate(1 2)")] None
                [Elem (El "text" [("x", "1"); ("y", "2");
                                  ("transform", "rotate(45)")] None
                          [Text "a"])])] in
  removeTranslations svgDOM = svgDOM.
Proof.
  intros svgDOM.
  apply (X17_removeTranslations_nothing_to_fold svgDOM).
  vm_compute. reflexivity.
Defined.

Lemma filter_update_position (k v : string) (a : list (string * string)) :
  is_position_attribute (k, v) = true ->
  List.filter (fun kv => negb (is_position_attribute kv)) (update k v a)
  = List.filter (fun kv => negb (is_position_attribute kv)) a.
Proof.
  intros P. induction a as [|[k' v'] a IH]; simpl.
  - now rewrite P.
  - destruct (String.eqb_spec k' k) as [->|N]; simpl.
    + unfold is_position_attribute in *. cbn [fst] in *. now rewrite P.
    + now rewrite IH.
Qed.

Lemma filter_remove_transform (a : list (string * string)) :
  List.filter (fun kv => negb (is_position_attribute kv))
    (List.filter (fun kv => negb (String.eqb (fst kv) "transform")) a)
  = List.filter (fun kv => negb (is_position_attribute kv)) a.
Proof.
  induction a as [|[k v] a IH]; simpl; [reflexivity|].
  unfold is_position_attribute at 2. cbn [fst].
  destruct (String.eqb k "transform") eqn:E; simpl.
  - rewrite orb_true_r. simpl. exact IH.
  - rewrite orb_false_r.
    unfold is_position_attribute at 1. cbn [fst]. rewrite E, orb_false_r.
    now rewrite IH.
Qed.

Lemma applyTranslation_frame (dx dy : number) (e : element) :
  same_but_position e (applyTranslation dx dy e).
Proof.
  destruct e as [t a s cs]. unfold same_but_position, applyTranslation.
  cbn [setAttribute set_attributes attributes tagName style_attr childNodes_of].
  repeat split. now rewrite !filter_update_position.
Qed.

Lemma set_transform_frame (e : element) (newTransform : string) :
  same_but_position e (set_transform e newTransform).
Proof.
  destruct e as [t a s cs]. unfold same_but_position, set_transform.
  destruct (String.length newTransform =? 0)%nat;
    cbn [setAttribute removeAttribute set_attributes attributes tagName
         style_attr childNodes_of]; repeat split.
  - apply filter_remove_transform.
  - now apply filter_update_position.
Qed.

Lemma same_but_position_trans (e1 e2 e3 : element) :
  same_but_position e1 e2 -> same_but_position e2 e3 ->
  same_but_position e1 e3.
Proof.
  unfold same_but_position. intros (A & B & C & D) (A' & B' & C' & D').
  repeat split; congruence.
Qed.

Lemma fold_translation_frame (pending : option (number * number))
      (e : element) :
  same_but_position e (fst (fold_translation pending e)).
Proof.
  unfold fold_translation.
  assert (P : same_but_position e (apply_pending pending e)).
  { destruct pending as [[dx dy]|]; cbn [apply_pending].
    - apply applyTranslation_frame.
    - unfold same_but_position. auto. }
  destruct (translation_of (apply_pending pending e)) as [[[dx dy] nt]|];
    cbn [fst]; [|exact P].
  eapply same_but_position_trans; [exact P|].
  eapply same_but_position_trans;
    [apply applyTranslation_frame|apply set_transform_frame].
Qed.

Lemma removeTranslations_node_frame (n : node) :
  forall pending,
    without_position (removeTranslations_node pending n) = without_position n.
Proof.
  induction n as [d|d|t a s cs IH] using node_tree_ind; try reflexivity.
  intros pending. cbn [removeTranslations_node].
  pose proof (fold_translation_frame pending (El t a s cs)) as F.
  destruct (fold_translation pending (El t a s cs)) as [[t' a' s' cs'] delta].
  destruct F as (Ft & Fs & Fc & Fa).
  cbn [fst tagName style_attr childNodes_of attributes] in Ft, Fs, Fc, Fa.
  subst t' s' cs'.
  cbn [set_childNodes without_position]. rewrite Fa. do 2 f_equal.
  rewrite map_map. apply map_ext_in. intros c Hc.
  rewrite Forall_forall in IH. now apply IH.
Qed.

(** X18: translation folding changes nothing but attributes [x], [y] and
    [transform]: without these three, the document is as it was, with its
    elements, their other attributes in order, their styles and their
    texts. *)
Theorem X18_removeTranslations_frame (svgDOM : element) :
  without_position (Elem (removeTranslations svgDOM))
  = without_position (Elem svgDOM).
Proof.
  unfold removeTranslations.
  pose proof (removeTranslations_node_frame (Elem svgDOM) None) as F.
  destruct (removeTranslations_node None (Elem svgDOM)) as [d|d|e] eqn:E;
    try (destruct svgDOM; cbn in E;
         destruct (fold_translation None _); discriminate).
  exact F.
Qed.

(* ------------------------------------------------------------------ *)
(** ** [optimizeTspan] *)

Lemma optimizeTspan_node_id (n : node) :
  forall parentNode,
    every_element (fun e => negb (has_tag "tspan" e)) n = true ->
    optimizeTspan_node parentNode n = n.
Proof.
  induction n as [d|d|t a s cs IH] using node_tree_ind; try reflexivity.
  intros parentNode H. cbn [every_element] in H.
  apply andb_true_iff in H as [H C]. apply negb_true_iff in H.
  unfold has_tag in H. cbn [tagName] in H.
  cbn [optimizeTspan_node]. rewrite H. do 2 f_equal.
  apply forallb_Forall in C. rewrite Forall_forall in IH, C.
  transitivity (map (fun c : node => c) cs); [|apply map_id].
  apply map_ext_in. intros c Hc. now apply IH, C.
Qed.

(** X19: [optimizeTspan] leaves a document without [tspan] elements as it
    is. *)
Theorem X19_optimizeTspan_no_tspan (svgDOM : element) :
  List.forallb (every_element (fun e => negb (has_tag "tspan" e)))
               (childNodes_of svgDOM) = true ->
  optimizeTspan svgDOM = svgDOM.
Proof.
  intros H. destruct svgDOM as [t a s cs]. unfold optimizeTspan.
  cbn [childNodes_of set_childNodes] in *. f_equal.
  transitivity (map (fun c : node => c) cs); [|apply map_id].
  apply map_ext_in. intros c Hc.
  apply optimizeTspan_node_id.
  rewrite forallb_forall in H. now apply H.
Qed.

Lemma X19_optimizeTspan_no_tspan_witness :
  let svgDOM :=
    El "svg" [] None
       [Elem (El "text" [("x", "1"); ("y", "2")] None [Text "a"]);
        Comment "c"] in
  optimizeTspan svgDOM = svgDOM.
Proof.
  intros svgDOM. apply (X19_optimizeTspan_no_tspan svgDOM). reflexivity.
Defined.

Lemma filter_xy_nil (a : list (string * string)) :
  (forall kv, In kv a -> fst kv = "x" \/ fst kv = "y") ->
  List.filter (fun kv => negb (String.eqb (fst kv) "y"))
    (List.filter (fun kv => negb (String.eqb (fst kv) "x")) a) = [].
Proof.
  induction a as [|[k v] a IH]; intros H; [reflexivity|].
  assert (IH' := IH (fun kv I => H kv (or_intror I))).
  destruct (H (k, v) (or_introl eq_refl)) as [E|E]; cbn [fst] in E; subst k;
    simpl; exact IH'.
Qed.

Lemma remove_all_properties (e : element) (ps : list string) (ds : css) :
  style_attr e = Some ds ->
  fold_left
    (fun n prop => set_style_attr n (removeProperty (style_attr n) prop))
    ps e
  = set_style_attr e
      (Some (List.filter
               (fun d => negb (existsb (String.eqb (d_property d)) ps)) ds)).
Proof.
  revert e ds. induction ps as [|p ps IH]; intros [t a s cs] ds E;
    cbn [style_attr] in E; subst s.
  - cbn [fold_left existsb negb set_style_attr].
    f_equal. f_equal. symmetry. apply forallb_filter_id.
    apply forallb_forall. reflexivity.
  - cbn [fold_left style_attr set_style_attr removeProperty].
    rewrite (IH (El t a (Some (remove_decl p ds)) cs) (remove_decl p ds)
                eq_refl).
    cbn [set_style_attr]. do 2 f_equal. unfold remove_decl.
    induction ds as [|d ds IHds]; [reflexivity|].
    cbn [List.filter existsb].
    destruct (String.eqb (d_property d) p); cbn [negb orb].
    + exact IHds.
    + cbn [List.filter]. destruct (existsb _ ps); cbn [negb];
        now rewrite IHds.
Qed.

Lemma filter_all (ps : list string) (f : string -> bool) :
  (forall p, In p ps -> f p = true) -> List.filter f ps = ps.
Proof.
  intros H. apply forallb_filter_id. now apply forallb_forall.
Qed.

Lemma filter_own_properties (ds : css) :
  List.filter
    (fun d => negb (existsb (String.eqb (d_property d)) (map d_property ds)))
    ds = [].
Proof.
  assert (G : forall ps,
             (forall d, In d ds -> In (d_property d) ps) ->
             List.filter
               (fun d => negb (existsb (String.eqb (d_property d)) ps)) ds
             = []).
  { intros ps. induction ds as [|d ds IH]; intros H; [reflexivity|].
    cbn [List.filter].
    assert (E : existsb (String.eqb (d_property d)) ps = true).
    { apply existsb_exists. exists (d_property d).
      split; [apply H; now left|apply String.eqb_refl]. }
    rewrite E. cbn [negb]. apply IH. intros d' I. apply H. now right. }
  apply G. intros d I. now apply in_map.
Qed.

(** The callback of [optimizeTspan] on a [tspan] that repeats its parent,
    as the loop hands the parent over. *)
Lemma optimizeTspan_node_unwraps
  (parentNode : element) (a : list (string * string)) (s : option css)
  (cs : list node) :
  (forall kv, In kv a -> fst kv = "x" \/ fst kv = "y") ->
  lookup "x" a = getAttribute parentNode "x" ->
  lookup "y" a = getAttribute parentNode "y" ->
  (forall d, In d (declarations s) ->
     getPropertyValue s (d_property d)
     = getPropertyValue (style_attr parentNode) (d_property d)
     /\ getPropertyPriority s (d_property d)
        = getPropertyPriority (style_attr parentNode) (d_property d)) ->
  optimizeTspan_node parentNode (Elem (El "tspan" a s cs))
  = Text (innerHTML (El "tspan" a s cs)).
Proof.
  intros A X Y S.
  assert (E : strip_tspan parentNode (El "tspan" a s cs)
              = El "tspan" [] None cs).
  { assert (R : forall o, nullable_eqb o o = true)
      by (intros [v|]; [apply String.eqb_refl|reflexivity]).
    assert (C : nullable_eqb (getAttribute (El "tspan" a s cs) "x")
                             (getAttribute parentNode "x")
                && nullable_eqb (getAttribute (El "tspan" a s cs) "y")
                                (getAttribute parentNode "y") = true).
    { change (getAttribute (El "tspan" a s cs) "x") with (lookup "x" a).
      change (getAttribute (El "tspan" a s cs) "y") with (lookup "y" a).
      now rewrite X, Y, !R. }
    unfold strip_tspan. rewrite C.
    cbn [removeAttribute attributes set_attributes].
    rewrite (filter_xy_nil a A). cbn [style_attr].
    rewrite (filter_all (map d_property (declarations s))).
    2:{ intros p I. apply in_map_iff in I as (d & <- & I).
        destruct (S d I) as [V P]. rewrite V, P.
        now rewrite !String.eqb_refl. }
    destruct s as [ds|].
    - cbn [declarations].
      rewrite (remove_all_properties (El "tspan" [] (Some ds) cs) _ ds
                                     eq_refl).
      cbn [declarations set_style_attr style_attr].
      now rewrite filter_own_properties.
    - reflexivity. }
  cbn [optimizeTspan_node String.eqb Ascii.eqb Bool.eqb].
  rewrite E. reflexivity.
Qed.

Lemma optimizeTspan_node_plain
      (grandparent : element) (t : string) (a : list (string * string))
      (s : option css) (cs : list node) :
  t <> "tspan" ->
  optimizeTspan_node grandparent (Elem (El t a s cs))
  = Elem (El t a s (map (optimizeTspan_node (El t a s cs)) cs)).
Proof.
  intros T. apply String.eqb_neq in T. cbn [optimizeTspan_node].
  now rewrite T.
Qed.

Lemma optimizeTspan_node_occurs (e result : element) (n : node) :
  (forall grandparent,
     optimizeTspan_node grandparent (Elem e) = Elem result) ->
  occurs_outside "tspan" e n ->
  forall parentNode, occurs result (optimizeTspan_node parentNode n).
Proof.
  intros R. induction 1 as [T|t a s cs c T I O IH]; intros parentNode.
  - rewrite R. constructor.
  - rewrite optimizeTspan_node_plain by assumption.
    apply occurs_below with (c := optimizeTspan_node (El t a s cs) c).
    + now apply in_map.
    + apply IH.
Qed.

(** X20: when [optimizeTspan] comes to an element that is no [tspan], it
    replaces each [tspan] child of this element that has no attribute but
    an [x] and a [y] which are those of the element, and no declaration in
    its style but those of the element, by one text node that holds the
    [innerHTML] of the [tspan]: the element children of the [tspan] are
    text from then on.  So the document after [optimizeTspan] holds the
    element with this child replaced, when the element is below the root
    and neither it nor an element above it is a [tspan].  The content of
    the [tspan] is taken to hold no element with a [style] attribute.  A
    [tspan] inside a [tspan] is compared with its parent as the loop has
    left it, and is not covered here. *)
Theorem X20_optimizeTspan_unwraps
  (parentNode : element) (before after : list node)
  (a : list (string * string)) (s : option css) (cs : list node) :
  tagName parentNode <> "tspan" ->
  childNodes_of parentNode
  = (before ++ Elem (El "tspan" a s cs) :: after)%list ->
  List.forallb (every_element unstyled) cs = true ->
  (forall kv, In kv a -> fst kv = "x" \/ fst kv = "y") ->
  lookup "x" a = getAttribute parentNode "x" ->
  lookup "y" a = getAttribute parentNode "y" ->
  (forall d, In d (declarations s) ->
     getPropertyValue s (d_property d)
     = getPropertyValue (style_attr parentNode) (d_property d)
     /\ getPropertyPriority s (d_property d)
        = getPropertyPriority (style_attr parentNode) (d_property d)) ->
  let result :=
    set_childNodes parentNode
      (map (optimizeTspan_node parentNode) before
         ++ Text (innerHTML (El "tspan" a s cs))
         :: map (optimizeTspan_node parentNode) after)%list in
  (forall grandparent,
     optimizeTspan_node grandparent (Elem parentNode) = Elem result)
  /\ (forall svgDOM c,
        In c (childNodes_of svgDOM) ->
        occurs_outside "tspan" parentNode c ->
        occurs_below_root result (optimizeTspan svgDOM)).
Proof.
  intros T C _ A X Y S result.
  assert (R : forall grandparent,
             optimizeTspan_node grandparent (Elem parentNode) = Elem result).
  { intros grandparent. unfold result.
    destruct parentNode as [t a0 s0 cs0].
    cbn [tagName childNodes_of] in T, C.
    rewrite optimizeTspan_node_plain by assumption.
    cbn [set_childNodes]. subst cs0. rewrite map_app. cbn [map].
    now rewrite (optimizeTspan_node_unwraps _ a s cs A X Y S). }
  split; [exact R|].
  intros svgDOM c I O. unfold occurs_below_root, optimizeTspan.
  exists (optimizeTspan_node svgDOM c). split.
  - destruct svgDOM as [t0 a0 s0 cs0]. cbn [childNodes_of set_childNodes] in *.
    now apply in_map.
  - now apply (optimizeTspan_node_occurs parentNode result c R O).
Qed.

Lemma X20_optimizeTspan_unwraps_witness :
  let style := Some [Decl "font-size" "16px" ""] in
  let content := [Text "a < b"; Elem (El "tspan" [("dy", "1")] None [Text "c"])] in
  let textElt :=
    El "text" [("x", "1"); ("y", "2")] style
       [Elem (El "tspan" [("x", "1"); ("y", "2")] style content);
        Text "d"] in
  optimizeTspan (El "svg" [] None [Elem textElt])
  = El "svg" [] None
       [Elem (El "text" [("x", "1"); ("y", "2")] style
                 [Text ("a &lt; b<tspan dy=" ++ dquote ++ "1" ++ dquote
                          ++ ">c</tspan>");
                  Text "d"])].
Proof.
  intros style content textElt. unfold optimizeTspan.
  cbn [childNodes_of set_childNodes map].
  destruct (X20_optimizeTspan_unwraps
              textElt [] [Text "d"] [("x", "1"); ("y", "2")] style content)
    as [R _].
  - discriminate.
  - reflexivity.
  - reflexivity.
  - intros kv [<-|[<-|[]]]; auto.
  - reflexivity.
  - reflexivity.
  - intros d [<-|[]]. split; reflexivity.
  - rewrite R. reflexivity.
Defined.

(* ================================================================== *)
(** * Further properties: the compatibility rewrite (svg2to11.js) *)
(* ================================================================== *)

Lemma rewrite_context_stroke_clean (s : option css) :
  String.eqb (getPropertyValue (rewrite_context_stroke s) "fill")
             "context-stroke" = false
  /\ String.eqb (getPropertyValue (rewrite_context_stroke s) "stroke")
                "context-stroke" = false.
Proof.
  unfold rewrite_context_stroke.
  destruct (String.eqb (getPropertyValue s "fill") "context-stroke") eqn:F.
  - destruct (String.eqb (getPropertyValue (setProperty s "fill" "#000")
                                           "stroke") "context-stroke") eqn:S.
    + rewrite getPropertyValue_setProperty_other by discriminate.
      rewrite !getPropertyValue_setProperty_same by discriminate.
      split; reflexivity.
    + rewrite S, getPropertyValue_setProperty_same by discriminate.
      split; reflexivity.
  - destruct (String.eqb (getPropertyValue s "stroke") "context-stroke") eqn:S.
    + rewrite getPropertyValue_setProperty_other by discriminate.
      rewrite getPropertyValue_setProperty_same by discriminate.
      rewrite F. split; reflexivity.
    + rewrite F, S. split; reflexivity.
Qed.

Lemma rewrite_context_stroke_fixed (s : option css) :
  String.eqb (getPropertyValue s "fill") "context-stroke" = false ->
  String.eqb (getPropertyValue s "stroke") "context-stroke" = false ->
  rewrite_context_stroke s = s.
Proof. intros F S. unfold rewrite_context_stroke. now rewrite F, S. Qed.

Lemma rewrite_context_stroke_Some (ds : css) :
  exists ds', rewrite_context_stroke (Some ds) = Some ds'.
Proof.
  unfold rewrite_context_stroke, setProperty. cbn [is_empty].
  repeat match goal with
         | |- context [if ?b then _ else _] => destruct b
         end; eauto.
Qed.

Lemma svg2to11_node_clean (n : node) :
  forall in_marker,
    no_context_stroke in_marker (svg2to11_node in_marker n) = true.
Proof.
  induction n as [d|d|t a s cs IH] using node_tree_ind; try reflexivity.
  intros in_marker. cbn [svg2to11_node no_context_stroke].
  apply andb_true_iff. split.
  - destruct s as [ds|]; [|reflexivity]. destruct in_marker.
    + destruct (rewrite_context_stroke_Some ds) as [ds' E].
      destruct (rewrite_context_stroke_clean (Some ds)) as [F S].
      rewrite E in *. now rewrite F, S.
    + reflexivity.
  - apply forallb_forall. intros c Hc.
    apply in_map_iff in Hc as (c0 & <- & Hc).
    rewrite Forall_forall in IH. now apply IH.
Qed.

Lemma svg2to11_node_twice (n : node) :
  forall in_marker,
    svg2to11_node in_marker (svg2to11_node in_marker n)
    = svg2to11_node in_marker n.
Proof.
  induction n as [d|d|t a s cs IH] using node_tree_ind; try reflexivity.
  intros in_marker. cbn [svg2to11_node]. f_equal. f_equal.
  - destruct s as [ds|]; [|reflexivity]. destruct in_marker; [|reflexivity].
    destruct (rewrite_context_stroke_Some ds) as [ds' E].
    destruct (rewrite_context_stroke_clean (Some ds)) as [F S].
    rewrite E in *. now apply rewrite_context_stroke_fixed.
  - rewrite map_map. apply map_ext_in. intros c Hc.
    rewrite Forall_forall in IH. now apply IH.
Qed.

Lemma svg2to11_root (svgDOM : element) :
  Elem (svg2to11 svgDOM) = svg2to11_node false (Elem svgDOM).
Proof. destruct svgDOM as [t a s cs]. reflexivity. Qed.

Lemma svg2to11_node_id (n : node) :
  every_element (fun e => negb (has_tag "marker" e)) n = true ->
  svg2to11_node false n = n.
Proof.
  induction n as [d|d|t a s cs IH] using node_tree_ind; try reflexivity.
  cbn [every_element svg2to11_node]. intros H.
  apply andb_true_iff in H as [H C]. apply negb_true_iff in H.
  unfold has_tag in H. cbn [tagName] in H. rewrite H. cbn [orb].
  f_equal. f_equal; [now destruct s|].
  apply forallb_Forall in C.
  exact (map_id_Forall _ _ cs IH C).
Qed.

(** X21: after [svg2to11], no element with a [style] attribute below a
    [marker] element has the [fill] or the [stroke] [context-stroke] in its
    style; to run [svg2to11] again changes nothing; and a document without
    [marker] elements is left as it is, whatever its styles hold. *)
Theorem X21_svg2to11_postcondition (svgDOM : element) :
  no_context_stroke false (Elem (svg2to11 svgDOM)) = true
  /\ svg2to11 (svg2to11 svgDOM) = svg2to11 svgDOM
  /\ (every_element (fun e => negb (has_tag "marker" e)) (Elem svgDOM) = true ->
      svg2to11 svgDOM = svgDOM).
Proof.
  split; [|split].
  - rewrite svg2to11_root. apply svg2to11_node_clean.
  - assert (E : Elem (svg2to11 (svg2to11 svgDOM)) = Elem (svg2to11 svgDOM)).
    { rewrite (svg2to11_root (svg2to11 svgDOM)), svg2to11_root.
      apply svg2to11_node_twice. }
    now injection E.
  - intros H.
    assert (E : Elem (svg2to11 svgDOM) = Elem svgDOM)
      by (rewrite svg2to11_root; now apply svg2to11_node_id).
    now injection E.
Qed.

Lemma X21_svg2to11_postcondition_witness :
  let svgDOM :=
    El "svg" [] None
       [Elem (El "path" [("d", "M0 0h1")]
                 (Some [Decl "stroke" "context-stroke" ""]) [])] in
  svg2to11 svgDOM = svgDOM.
Proof.
  intros svgDOM.
  destruct (X21_svg2to11_postcondition svgDOM) as (_ & _ & H).
  apply H. reflexivity.
Defined.

(* ================================================================== *)
(** * Further properties: the text converter (text2foreignObject.js) *)
(* ================================================================== *)

Lemma map_exc_singletons {A : Type} (f : A -> exc (list A)) (xs : list A) :
  (forall x, In x xs -> f x = inr [x]) ->
  exists ys, map_exc f xs = inr ys /\ List.concat ys = xs.
Proof.
  induction xs as [|x xs IH]; intros H.
  - exists []. split; reflexivity.
  - destruct IH as (ys & E & C); [intros y I; apply H; now right|].
    exists ([x] :: ys). cbn [map_exc]. rewrite (H x (or_introl eq_refl)), E.
    split; [reflexivity|]. cbn. now rewrite C.
Qed.

Lemma text2foreignObject_node_id (env : Env) (n : node) :
  every_element (fun e => negb (has_tag "text" e)) n = true ->
  text2foreignObject_node env n = inr [n].
Proof.
  induction n as [d|d|t a s cs IH] using node_tree_ind; try reflexivity.
  cbn [every_element text2foreignObject_node]. intros H.
  apply andb_true_iff in H as [H C]. apply negb_true_iff in H.
  unfold has_tag in H. cbn [tagName] in H. rewrite H.
  rewrite forallb_forall in C. rewrite Forall_forall in IH.
  destruct (map_exc_singletons (text2foreignObject_node env) cs)
    as (ys & E & Y); [intros c I; apply IH; auto|].
  rewrite E. cbn [bind ret]. now rewrite Y.
Qed.

(** X22: [text2foreignObject] returns a document without [text] elements
    as it is, and does not throw, whatever pandoc and the parser do. *)
Theorem X22_text2foreignObject_no_text (env : Env) (svgDOM : element) :
  List.forallb (every_element (fun e => negb (has_tag "text" e)))
               (childNodes_of svgDOM) = true ->
  text2foreignObject env svgDOM = inr svgDOM.
Proof.
  intros H. unfold text2foreignObject. rewrite forallb_forall in H.
  destruct (map_exc_singletons (text2foreignObject_node env)
                               (childNodes_of svgDOM))
    as (ys & E & Y);
    [intros c I; apply text2foreignObject_node_id; auto|].
  rewrite E. cbn [bind ret]. rewrite Y. now destruct svgDOM.
Qed.

Lemma X22_text2foreignObject_no_text_witness :
  let svgDOM :=
    El "svg" [] None
       [Elem (El "g" [] None [Elem (El "path" [("d", "M0 0h1")] None [])]);
        Text "a"] in
  text2foreignObject (fixture svgDOM []) svgDOM = inr svgDOM.
Proof.
  intros svgDOM. apply (X22_text2foreignObject_no_text _ svgDOM).
  reflexivity.
Defined.

Lemma convert_cases (env : Env) (textElt : element) :
  let flat := Utils.flattenTextChildren textElt in
  let content := parseFragment env (Utils.md2html env (innerHTML flat)) in
  convert env textElt
  = if (String.length (innerHTML flat) =? 0)%nat then inr None
    else
      match xTimesFontSize_of (fontSize_of flat) with
      | inl e => inl e
      | inr xTimesFontSize =>
          match elements content with
          | [] =>
              inl (TypeError "Cannot read properties of undefined (reading 'prepend')")
          | _ :: _ =>
              inr (Some (compensate_anchor flat
                           (set_childNodes (new_foreignObject flat)
                              (on_first_element
                                 (compensate_baseline xTimesFontSize)
                                 content))))
          end
      end.
Proof.
  intros flat content. unfold convert. cbv zeta. fold flat.
  destruct (String.length (innerHTML flat) =? 0)%nat; [reflexivity|].
  fold content.
  destruct (xTimesFontSize_of (fontSize_of flat)) as [e|x]; [reflexivity|].
  cbn [bind]. unfold children. rewrite !childNodes_of_set_childNodes.
  destruct (elements content); [reflexivity|].
  now destruct (new_foreignObject flat).
Qed.

(** X23: the callback of [text2foreignObject] returns, instead of
    throwing, exactly when the flattened text is empty, or the font size it
    uses holds a number that [px] follows and the content that was parsed
    for the block has an element. *)
Theorem X23_convert_returns (env : Env) (textElt : element) :
  let flat := Utils.flattenTextChildren textElt in
  let content := parseFragment env (Utils.md2html env (innerHTML flat)) in
  (exists r, convert env textElt = inr r)
  <-> innerHTML flat = ""
      \/ (has_px_size (fontSize_of flat) /\ elements content <> []).
Proof.
  intros flat content. rewrite (convert_cases env textElt).
  fold flat content.
  destruct (String.length (innerHTML flat) =? 0)%nat eqn:L.
  - split; [|eauto]. intros _. left.
    destruct (innerHTML flat); [reflexivity|discriminate].
  - apply length_not_zero in L. unfold xTimesFontSize_of.
    destruct (size_exec (fontSize_of flat)) as [size|] eqn:S;
      cbn [groups bind ret throw].
    + apply size_exec_found in S.
      destruct (elements content) as [|c cs]; split.
      * intros [r E]. discriminate.
      * intros [E|[_ E]]; congruence.
      * intros _. right. split; [exact S|discriminate].
      * eauto.
    + apply size_exec_None in S. split.
      * intros [r E]. discriminate.
      * intros [E|[P _]]; [congruence|contradiction].
Qed.

Lemma convert_Some (env : Env) (textElt foreignObject : element) :
  convert env textElt = inr (Some foreignObject) ->
  let flat := Utils.flattenTextChildren textElt in
  let content := parseFragment env (Utils.md2html env (innerHTML flat)) in
  exists xTimesFontSize,
    elements content <> []
    /\ foreignObject
       = compensate_anchor flat
           (set_childNodes (new_foreignObject flat)
              (on_first_element (compensate_baseline xTimesFontSize)
                                content)).
Proof.
  intros E flat content. rewrite (convert_cases env textElt) in E.
  fold flat content in E.
  destruct (String.length (innerHTML flat) =? 0)%nat; [discriminate|].
  destruct (xTimesFontSize_of (fontSize_of flat)) as [e|x]; [discriminate|].
  exists x. destruct (elements content); [discriminate|].
  split; [discriminate|]. now injection E as <-.
Qed.

Lemma attributes_style_setProperty (e : element) (p v : string) :
  attributes (style_setProperty e p v) = attributes e.
Proof. now destruct e. Qed.

Lemma attributes_setProperty_if (e : element) (p v : string) :
  attributes (setProperty_if e p v) = attributes e.
Proof.
  unfold setProperty_if. destruct (is_empty v); [reflexivity|].
  apply attributes_style_setProperty.
Qed.

Lemma attributes_set_childNodes (e : element) (cs : list node) :
  attributes (set_childNodes e cs) = attributes e.
Proof. now destruct e. Qed.

Lemma tagName_style_setProperty (e : element) (p v : string) :
  tagName (style_setProperty e p v) = tagName e.
Proof. now destruct e. Qed.

Lemma tagName_setProperty_if (e : element) (p v : string) :
  tagName (setProperty_if e p v) = tagName e.
Proof.
  unfold setProperty_if. destruct (is_empty v); [reflexivity|].
  apply tagName_style_setProperty.
Qed.

Lemma tagName_set_childNodes (e : element) (cs : list node) :
  tagName (set_childNodes e cs) = tagName e.
Proof. now destruct e. Qed.

Lemma compensate_anchor_frame (textElt foreignObject : element) :
  attributes (compensate_anchor textElt foreignObject)
  = attributes foreignObject
  /\ tagName (compensate_anchor textElt foreignObject)
     = tagName foreignObject.
Proof.
  unfold compensate_anchor.
  destruct (anchor_shift _) as [tx ta].
  destruct (tx =? 0)%Z; [auto|].
  destruct (children foreignObject); [auto|].
  rewrite attributes_style_setProperty, attributes_set_childNodes.
  rewrite tagName_style_setProperty, tagName_set_childNodes. auto.
Qed.

Lemma new_foreignObject_frame (textElt : element) :
  attributes (new_foreignObject textElt) = block_attributes textElt
  /\ tagName (new_foreignObject textElt) = "foreignObject".
Proof.
  unfold new_foreignObject, block_attributes. cbv zeta.
  rewrite !attributes_setProperty_if, attributes_style_setProperty.
  rewrite !tagName_setProperty_if, tagName_style_setProperty.
  destruct (getAttribute textElt "transform") as [tr|];
    [destruct (is_empty tr)|]; split; reflexivity.
Qed.

Lemma flattened_property (textElt : element) (q : string) :
  q <> "font-size" ->
  style_getPropertyValue (Utils.flattenTextChildren textElt) q
  = style_getPropertyValue textElt q.
Proof.
  intros N. unfold style_getPropertyValue.
  rewrite flattenTextChildren_style. now apply promote_other_property.
Qed.

Lemma convert_block_font_size
      (env : Env) (textElt foreignObject : element) :
  convert env textElt = inr (Some foreignObject) ->
  style_getPropertyValue foreignObject "font-size"
  = fontSize_of (Utils.flattenTextChildren textElt).
Proof.
  intros E. destruct (convert_Some env textElt foreignObject E)
    as (x & C & ->).
  set (flat := Utils.flattenTextChildren textElt).
  set (fo := set_childNodes (new_foreignObject flat) _).
  assert (K : children fo <> []).
  { unfold fo, children. rewrite childNodes_of_set_childNodes.
    rewrite elements_on_first_element.
    destruct (elements _); [congruence|discriminate]. }
  assert (S : style_getPropertyValue fo "font-size" = fontSize_of flat).
  { unfold fo, style_getPropertyValue. rewrite style_attr_set_childNodes.
    apply new_foreignObject_font_size. }
  destruct (compensate_anchor_cases flat fo K) as [->|(tx & ta & N & ->)];
    [exact S|].
  rewrite style_setProperty_other by (assumption || discriminate).
  unfold style_getPropertyValue. rewrite style_attr_set_childNodes.
  exact S.
Qed.

(** X24: the [<foreignObject>] that replaces a [<text>] has a [style]
    attribute, which holds the font size that the callback uses, and apart
    from the [style] attribute these attributes and no other, in this
    order: [x] and [y] of the text, which are the word [null] for a text
    without them; the [width], which is the [inline-size] of the style of
    the text, or [1000]; the [height] [1]; the [overflow] [visible]; and the
    [transform] of the text when it has one that is not empty. *)
Theorem X24_convert_block_attributes
  (env : Env) (textElt foreignObject : element) :
  convert env textElt = inr (Some foreignObject) ->
  tagName foreignObject = "foreignObject"
  /\ attributes foreignObject = block_attributes textElt
  /\ (exists declarations, style_attr foreignObject = Some declarations)
  /\ style_getPropertyValue foreignObject "font-size"
     = fontSize_of (Utils.flattenTextChildren textElt).
Proof.
  intros E. pose proof (convert_block_font_size env textElt foreignObject E)
    as F.
  assert (Y : exists declarations,
             style_attr foreignObject = Some declarations).
  { unfold style_getPropertyValue in F.
    destruct (style_attr foreignObject) as [ds|]; [now exists ds|].
    symmetry in F. now apply fontSize_of_not_empty in F. }
  destruct (convert_Some env textElt foreignObject E) as (x & _ & ->).
  destruct (compensate_anchor_frame
              (Utils.flattenTextChildren textElt)
              (set_childNodes
                 (new_foreignObject (Utils.flattenTextChildren textElt))
                 (on_first_element (compensate_baseline x)
                    (parseFragment env
                       (Utils.md2html env
                          (innerHTML (Utils.flattenTextChildren textElt)))))))
    as [A T].
  rewrite A, T, attributes_set_childNodes, tagName_set_childNodes.
  destruct (new_foreignObject_frame (Utils.flattenTextChildren textElt))
    as [A' T'].
  rewrite A', T'. split; [reflexivity|]. split; [|split; assumption].
  unfold block_attributes, getAttribute.
  rewrite (flattened_property textElt "inline-size") by discriminate.
  now destruct textElt.
Qed.

Lemma X24_convert_block_attributes_witness :
  let textElt :=
    El "text" [("y", "2")] (Some [Decl "font-size" "12px" ""]) [Text "$a$"] in
  let content :=
    [Elem (El "p" [] None
              [Elem (El "span" [("class", "math inline")] None
                        [Text "\(a\)"])])] in
  exists foreignObject,
    convert (fixture textElt content) textElt = inr (Some foreignObject)
    /\ tagName foreignObject = "foreignObject"
    /\ attributes foreignObject
       = [("x", "null"); ("y", "2"); ("width", "1000"); ("height", "1");
          ("overflow", "visible")]
    /\ (exists declarations, style_attr foreignObject = Some declarations)
    /\ style_getPropertyValue foreignObject "font-size" = "12px".
Proof.
  intros textElt content. eexists. split; [vm_compute; reflexivity|].
  apply (X24_convert_block_attributes (fixture textElt content) textElt).
  vm_compute. reflexivity.
Defined.

Lemma setProperty_if_same (e : element) (p v : string) :
  style_getPropertyValue (setProperty_if e p v) p
  = if is_empty v then style_getPropertyValue e p else v.
Proof.
  unfold setProperty_if. destruct (is_empty v) eqn:E; [reflexivity|].
  apply style_setProperty_same. now apply is_empty_false.
Qed.

Lemma empty_or_self (v : string) : (if is_empty v then "" else v) = v.
Proof. now destruct v. Qed.

Lemma new_foreignObject_style (textElt : element) :
  style_getPropertyValue (new_foreignObject textElt) "font-family"
  = style_getPropertyValue textElt "font-family"
  /\ style_getPropertyValue (new_foreignObject textElt) "opacity"
     = style_getPropertyValue textElt "opacity"
  /\ style_getPropertyValue (new_foreignObject textElt) "text-align" = "".
Proof.
  unfold new_foreignObject. cbv zeta.
  set (e0 := match getAttribute textElt "transform" with
             | Some transform => _
             | None => _
             end).
  assert (B : forall q, q <> "font-size" ->
              style_getPropertyValue
                (style_setProperty e0 "font-size" (fontSize_of textElt)) q
              = "").
  { intros q N.
    rewrite style_setProperty_other
      by (apply fontSize_of_not_empty || congruence).
    unfold e0, style_getPropertyValue.
    destruct (getAttribute textElt "transform") as [tr|];
      [destruct (is_empty tr)|]; reflexivity. }
  repeat split.
  - rewrite !setProperty_if_other by discriminate.
    rewrite setProperty_if_same, B by discriminate. apply empty_or_self.
  - rewrite setProperty_if_same, !setProperty_if_other by discriminate.
    rewrite B by discriminate. apply empty_or_self.
  - rewrite !setProperty_if_other by discriminate.
    apply B. discriminate.
Qed.

Lemma style_getPropertyValue_set_childNodes
      (e : element) (cs : list node) (q : string) :
  style_getPropertyValue (set_childNodes e cs) q = style_getPropertyValue e q.
Proof. now destruct e. Qed.

Lemma compensate_anchor_shifted
      (textElt foreignObject : element) (translateX : Z) (textAlign : string) :
  anchor_shift (style_getPropertyValue textElt "text-anchor")
  = (translateX, textAlign) ->
  (translateX =? 0)%Z = false -> textAlign <> "" ->
  children foreignObject <> [] ->
  let foreignObject' := compensate_anchor textElt foreignObject in
  style_getPropertyValue foreignObject' "text-align" = textAlign
  /\ (forall q, q <> "text-align" ->
      style_getPropertyValue foreignObject' q
      = style_getPropertyValue foreignObject q)
  /\ children foreignObject'
     = map (translate_child translateX) (children foreignObject).
Proof.
  intros A Z N C fo'. unfold fo', compensate_anchor. rewrite A, Z.
  destruct (children foreignObject) as [|c cs] eqn:E; [congruence|].
  repeat split.
  - now apply style_setProperty_same.
  - intros q Q. rewrite style_setProperty_other by auto.
    apply style_getPropertyValue_set_childNodes.
  - unfold children. rewrite childNodes_of_style_setProperty.
    rewrite childNodes_of_set_childNodes, elements_on_elements.
    fold (children foreignObject). now rewrite E.
Qed.

Lemma translate_child_transform (translateX : Z) (cs : list element) :
  Forall (fun c =>
            style_getPropertyValue c "transform"
            = "translateX(" ++ to_string (of_Z translateX) ++ "%)")
         (map (translate_child translateX) cs).
Proof.
  apply Forall_forall. intros c I. apply in_map_iff in I as (c0 & <- & _).
  apply style_setProperty_same. discriminate.
Qed.

(** X25: the [<foreignObject>] that replaces a [<text>] has the
    [font-family] and the [opacity] of the text.  For the [text-anchor]
    [middle] the block gets the [text-align] [center] and each of its
    children the transform [translateX(-50%)]; for [end], [end] and
    [translateX(-100%)]; for any other anchor the block gets no
    [text-align].  The [color] of the block is left out: the callback sets
    it from the [fill] of the text, and the style object parses a colour
    when it is set, which the model does not. *)
Theorem X25_convert_block_style
  (env : Env) (textElt foreignObject : element) :
  convert env textElt = inr (Some foreignObject) ->
  let textAnchor := style_getPropertyValue textElt "text-anchor" in
  style_getPropertyValue foreignObject "font-family"
  = style_getPropertyValue textElt "font-family"
  /\ style_getPropertyValue foreignObject "opacity"
     = style_getPropertyValue textElt "opacity"
  /\ (textAnchor = "middle" ->
      style_getPropertyValue foreignObject "text-align" = "center"
      /\ Forall (fun c => style_getPropertyValue c "transform"
                          = "translateX(-50%)")
                (children foreignObject))
  /\ (textAnchor = "end" ->
      style_getPropertyValue foreignObject "text-align" = "end"
      /\ Forall (fun c => style_getPropertyValue c "transform"
                          = "translateX(-100%)")
                (children foreignObject))
  /\ (textAnchor <> "middle" -> textAnchor <> "end" ->
      style_getPropertyValue foreignObject "text-align" = "").
Proof.
  intros E textAnchor.
  destruct (convert_Some env textElt foreignObject E) as (x & C & ->).
  set (flat := Utils.flattenTextChildren textElt) in *.
  set (content := parseFragment env (Utils.md2html env (innerHTML flat))) in *.
  set (fo := set_childNodes (new_foreignObject flat)
               (on_first_element (compensate_baseline x) content)).
  assert (A : style_getPropertyValue flat "text-anchor" = textAnchor)
    by (apply flattened_property; discriminate).
  assert (K : children fo <> []).
  { unfold fo, children. rewrite childNodes_of_set_childNodes.
    rewrite elements_on_first_element.
    destruct (elements content); [congruence|discriminate]. }
  destruct (new_foreignObject_style flat) as (F1 & F3 & F4).
  unfold flat in F1, F3.
  rewrite !flattened_property in F1, F3 by discriminate.
  fold flat in F1, F3.
  assert (S : forall q, style_getPropertyValue fo q
                        = style_getPropertyValue (new_foreignObject flat) q)
    by (intros q; apply style_getPropertyValue_set_childNodes).
  assert (G : forall q, q <> "text-align" ->
              style_getPropertyValue (compensate_anchor flat fo) q
              = style_getPropertyValue fo q).
  { intros q Q. destruct (compensate_anchor_cases flat fo K)
      as [->|(tx & ta & N & ->)]; [reflexivity|].
    rewrite style_setProperty_other by auto.
    apply style_getPropertyValue_set_childNodes. }
  rewrite !G, !S, F1, F3 by discriminate.
  split; [reflexivity|]. split; [reflexivity|].
  split; [|split].
  - intros M. rewrite <- A in M.
    destruct (compensate_anchor_shifted flat fo (-50) "center")
      as (T & _ & Ch); try (reflexivity || discriminate || assumption).
    { unfold anchor_shift. now rewrite M. }
    split; [exact T|]. rewrite Ch.
    exact (translate_child_transform (-50) (children fo)).
  - intros M. rewrite <- A in M.
    destruct (compensate_anchor_shifted flat fo (-100) "end")
      as (T & _ & Ch); try (reflexivity || discriminate || assumption).
    { unfold anchor_shift. now rewrite M. }
    split; [exact T|]. rewrite Ch.
    exact (translate_child_transform (-100) (children fo)).
  - intros M1 M2. rewrite <- A in M1, M2.
    apply String.eqb_neq in M1, M2.
    unfold compensate_anchor, anchor_shift. rewrite M1, M2. cbn.
    now rewrite S.
Qed.

Lemma X25_convert_block_style_witness :
  let textElt :=
    El "text" [("x", "1"); ("y", "2")]
       (Some [Decl "font-size" "12px" ""; Decl "font-family" "serif" "";
              Decl "text-anchor" "middle" ""])
       [Text "$a$"] in
  let content :=
    [Elem (El "p" [] None
              [Elem (El "span" [("class", "math inline")] None
                        [Text "\(a\)"])])] in
  exists foreignObject,
    convert (fixture textElt content) textElt = inr (Some foreignObject)
    /\ style_getPropertyValue foreignObject "font-family" = "serif"
    /\ style_getPropertyValue foreignObject "text-align" = "center".
Proof.
  intros textElt content. eexists. split; [vm_compute; reflexivity|].
  match goal with
  | |- style_getPropertyValue ?fo _ = _ /\ _ =>
      destruct (X25_convert_block_style (fixture textElt content) textElt fo)
        as (F & _ & M & _)
  end.
  - vm_compute. reflexivity.
  - split; [exact F|]. now destruct M.
Defined.

Lemma detached_no_text (env : Env) (n : node) :
  every_element (fun e => negb (has_tag "text" e)) n = true ->
  detached env n = inr tt.
Proof.
  induction n as [d|d|t a s cs IH] using node_tree_ind; try reflexivity.
  cbn [every_element detached]. intros H.
  apply andb_true_iff in H as [H C]. apply negb_true_iff in H.
  unfold has_tag in H. cbn [tagName] in H. rewrite H. cbn [bind ret].
  rewrite forallb_forall in C. rewrite Forall_forall in IH.
  clear H. induction cs as [|c cs IHcs]; [reflexivity|].
  cbn [for_each]. rewrite (IH c) by (try apply C; now left).
  cbn [bind]. apply IHcs; intros; [apply IH|apply C]; try now right.
  assumption.
Qed.

Lemma for_each_detached_no_text (env : Env) (cs : list node) :
  List.forallb (every_element (fun e => negb (has_tag "text" e))) cs = true ->
  for_each (detached env) cs = inr tt.
Proof.
  induction cs as [|c cs IH]; [reflexivity|]. cbn [List.forallb for_each].
  intros H. apply andb_true_iff in H as [H C].
  rewrite (detached_no_text env c H). cbn [bind]. now apply IH.
Qed.

(** X26: a [<text>] whose flattened content is empty is removed from the
    document, and nothing takes its place. *)
Theorem X26_empty_text_removed (env : Env) (textElt : element) :
  tagName textElt = "text" ->
  innerHTML (Utils.flattenTextChildren textElt) = "" ->
  List.forallb (every_element (fun e => negb (has_tag "text" e)))
               (childNodes_of textElt) = true ->
  text2foreignObject_node env (Elem textElt) = inr [].
Proof.
  intros T E C. destruct textElt as [t a s cs]. cbn [tagName] in T. subst t.
  cbn [text2foreignObject_node String.eqb Ascii.eqb Bool.eqb].
  rewrite (convert_empty env _ E). cbn [bind ret childNodes_of] in *.
  now rewrite (for_each_detached_no_text env cs C).
Qed.

Lemma X26_empty_text_removed_witness :
  let textElt :=
    El "text" [("x", "1")] None [Elem (El "tspan" [] None []); Text ""] in
  text2foreignObject_node (fixture textElt []) (Elem textElt) = inr [].
Proof.
  intros textElt. apply (X26_empty_text_removed _ textElt); reflexivity.
Defined.

(* ================================================================== *)
(** * Further properties: the filter (filter.js) *)
(* ================================================================== *)

Lemma incompatible_format (format : string) :
  format <> "html" -> Utils.compatibleOutputFormat format = false.
Proof.
  intros N. unfold Utils.compatibleOutputFormat.
  destruct (includes ["html"] format) eqn:E; [|reflexivity].
  apply includes_In in E. destruct E as [E|[]]. congruence.
Qed.

Lemma filter_incompatible_format (env : Env) (elt : astElement)
      (format : string) :
  format <> "html" -> filter env elt format = (inr Undefined, []).
Proof.
  intros N. unfold filter, filter_prelude.
  now rewrite (incompatible_format format N).
Qed.

(** X27: [filter] returns [undefined], and calls no pass, for a format
    other than [html]; for an element that is no image and no paragraph;
    for a paragraph whose first inline is no image with a title that starts
    with [fig:]; for an image, alone or as figure, whose file name does not
    end in [.svg] or [.SVG]; and for one without the class [ignore] whose
    file does not exist or is empty. *)
Theorem X27_filter_returns_undefined (env : Env) (format : string) :
  (forall elt, format <> "html" ->
     filter env elt format = (inr Undefined, []))
  /\ (forall t, filter env (OtherElement t) format = (inr Undefined, []))
  /\ (forall i rest,
        match i with
        | Image _ _ (_, title) => startsWith title "fig:" = false
        | OtherInline _ => True
        end ->
        filter env (ParaElement (i :: rest)) format = (inr Undefined, []))
  /\ (forall elt id classes keyvals caption fname title rest,
        elt = ImageElement (id, classes, keyvals) caption (fname, title)
        \/ elt = ParaElement
                   (Image (id, classes, keyvals) caption (fname, title)
                      :: rest) ->
        Utils.isSVG fname = false
        \/ (includes classes "ignore" = false
            /\ (readFileSync env fname = None
                \/ readFileSync env fname = Some "")) ->
        filter env elt format = (inr Undefined, [])).
Proof.
  split; [intros elt; apply filter_incompatible_format|].
  destruct (String.eqb_spec format "html") as [->|N].
  2:{ repeat split; intros; now apply filter_incompatible_format. }
  split; [reflexivity|]. split.
  - intros [[[id classes] keyvals] caption [fname title]|t] rest H.
    + unfold filter, filter_prelude. cbn. now rewrite H.
    + reflexivity.
  - intros elt id classes keyvals caption fname title rest E H.
    destruct E as [->| ->].
    + unfold filter, filter_prelude. cbn.
      destruct H as [H|[I [H|H]]].
      * now rewrite H.
      * rewrite I. unfold Utils.loadSVG. rewrite H.
        now destruct (negb (Utils.isSVG fname)).
      * rewrite I. unfold Utils.loadSVG. rewrite H.
        now destruct (negb (Utils.isSVG fname)).
    + unfold filter, filter_prelude. cbn.
      destruct (startsWith title "fig:"); cbn; [|reflexivity].
      destruct H as [H|[I [H|H]]].
      * now rewrite H.
      * rewrite I. unfold Utils.loadSVG. rewrite H.
        now destruct (negb (Utils.isSVG fname)).
      * rewrite I. unfold Utils.loadSVG. rewrite H.
        now destruct (negb (Utils.isSVG fname)).
Qed.

Lemma X27_filter_returns_undefined_witness :
  filter (fixture (El "svg" [] None []) [])
         (ParaElement [Image ("", [], []) [] ("a.png", "fig:")]) "html"
  = (inr Undefined, []).
Proof.
  destruct (X27_filter_returns_undefined
              (fixture (El "svg" [] None []) []) "html") as (_ & _ & _ & H).
  apply (H _ "" [] [] [] "a.png" "fig:" []).
  - right. reflexivity.
  - left. reflexivity.
Defined.

(** X28: for an SVG image with the class [ignore], [filter] returns the
    image without the first [ignore] among its classes; it calls no pass and
    does not read the file.  For a figure it returns a paragraph that holds
    that image only: the inlines that followed the image are not part of
    it. *)
Theorem X28_filter_ignore
  (env : Env) (id : string) (classes : list string)
  (keyvals : list (string * string)) (caption rest : list inline)
  (fname title : string) :
  Utils.isSVG fname = true -> includes classes "ignore" = true ->
  let a := (id, remove_first "ignore" classes, keyvals) in
  filter env (ImageElement (id, classes, keyvals) caption (fname, title))
         "html"
  = (inr (Element (ImageElement a caption (fname, title))), [])
  /\ (startsWith title "fig:" = true ->
      filter env
             (ParaElement
                (Image (id, classes, keyvals) caption (fname, title) :: rest))
             "html"
      = (inr (Element (ParaElement [Image a caption (fname, title)])), [])).
Proof.
  intros S I a. split.
  - unfold filter, filter_prelude. cbn. now rewrite S, I.
  - intros F. unfold filter, filter_prelude. cbn. rewrite F. cbn.
    now rewrite S, I.
Qed.

Lemma X28_filter_ignore_witness :
  filter (fixture (El "svg" [] None []) [])
         (ParaElement
            [Image ("f", ["a"; "ignore"], []) [] ("a.svg", "fig:");
             OtherInline "Str"])
         "html"
  = (inr (Element (ParaElement [Image ("f", ["a"], []) [] ("a.svg", "fig:")])),
     []).
Proof.
  apply (X28_filter_ignore (fixture (El "svg" [] None []) [])
           "f" ["a"; "ignore"] [] [] [OtherInline "Str"] "a.svg" "fig:");
    reflexivity.
Defined.

Lemma pipeline_bind_ret {A B C : Type} (c : Pipeline.pipeline A) (b : B)
      (k : B -> Pipeline.pipeline C) (st : Pipeline.state) :
  Pipeline.bind (Pipeline.bind c (fun _ => Pipeline.ret b)) k st
  = Pipeline.bind c (fun _ => k b) st.
Proof.
  unfold Pipeline.bind, Pipeline.ret. now destruct (c st) as [[e|a] st'].
Qed.

Lemma process_image_classes
      (env : Env) (format id : string) (classes1 classes2 : list string)
      (keyvals : list (string * string)) (caption : list inline)
      (st : Pipeline.state) :
  includes classes1 "keep-size" = includes classes2 "keep-size" ->
  process env format false (id, classes1, keyvals) caption st
  = process env format false (id, classes2, keyvals) caption st.
Proof.
  intros K. unfold process, resize_svg. rewrite K.
  destruct (negb (List.length (List.filter is_dim_key keyvals) =? 0)%nat).
  - now rewrite !pipeline_bind_ret.
  - destruct (negb (includes classes2 "keep-size")).
    + now rewrite !pipeline_bind_ret.
    + reflexivity.
Qed.

(** X29: the classes of an SVG image that is no figure do not reach the
    output: but for [ignore], and for [keep-size] when no [width] and no
    [height] is given, what [filter] returns and the passes it calls are the
    same for any two lists of classes. *)
Theorem X29_filter_image_classes
  (env : Env) (id : string) (classes1 classes2 : list string)
  (keyvals : list (string * string)) (caption : list inline)
  (target : string * string) :
  includes classes1 "ignore" = false -> includes classes2 "ignore" = false ->
  includes classes1 "keep-size" = includes classes2 "keep-size" ->
  filter env (ImageElement (id, classes1, keyvals) caption target) "html"
  = filter env (ImageElement (id, classes2, keyvals) caption target) "html".
Proof.
  intros I1 I2 K. destruct target as [fname title].
  assert (P : forall classes,
             filter_prelude
               (ImageElement (id, classes, keyvals) caption (fname, title))
               "html"
             = inr (Load false (id, classes, keyvals) caption (fname, title)))
    by reflexivity.
  unfold filter. rewrite !P. cbv beta iota. rewrite I1, I2.
  destruct (negb (Utils.isSVG fname)); [reflexivity|].
  destruct (Utils.loadSVG env fname) as [svgString|]; [|reflexivity].
  destruct (is_empty svgString); [reflexivity|].
  unfold Pipeline.run.
  now rewrite (process_image_classes env "html" id classes1 classes2
                 keyvals caption _ K).
Qed.

Lemma X29_filter_image_classes_witness :
  let env := fixture (El "svg" [("width", "16"); ("height", "16")] None []) [] in
  filter env (ImageElement ("", ["a"; "b"], []) [] ("a.svg", "")) "html"
  = filter env (ImageElement ("", [], []) [] ("a.svg", "")) "html".
Proof.
  intros env.
  apply (X29_filter_image_classes env "" ["a"; "b"] [] [] [] ("a.svg", ""));
    reflexivity.
Defined.

Lemma fromEntries_get_dims (key : string) (keyvals : list (string * string)) :
  key = "width" \/ key = "height" ->
  fromEntries_get key (List.filter is_dim_key keyvals)
  = fromEntries_get key keyvals.
Proof.
  intros K. unfold fromEntries_get. generalize (@None string).
  induction keyvals as [|[k v] kvs IH]; intros acc; [reflexivity|].
  cbn [List.filter fold_left fst snd]. unfold is_dim_key at 1. cbn [fst].
  destruct (String.eqb_spec k "width") as [->|NW]; cbn [orb fold_left fst snd];
    [apply IH|].
  destruct (String.eqb_spec k "height") as [->|NH]; cbn [fold_left fst snd];
    [apply IH|].
  rewrite IH. f_equal.
  destruct K as [-> | ->]; apply String.eqb_neq in NW, NH.
  - now rewrite NW.
  - now rewrite NH.
Qed.

(** X30: when an image has a [width] or a [height] among its key/value
    pairs, the filter resizes with these (the last of each), and with no
    scale factor: a [scale-factor] pair is not used, and stays among the
    pairs that are left with all the others but [width] and [height]; the
    classes are left as they are, [keep-size] too. *)
Theorem X30_resize_svg_dimensions
  (classes : list string) (keyvals : list (string * string)) (t : element) :
  List.filter is_dim_key keyvals <> [] ->
  exists t',
    resize t {| scaleFactor := None;
                width := fromEntries_get "width" keyvals;
                height := fromEntries_get "height" keyvals |} = inr t'
    /\ Pipeline.run (resize_svg classes keyvals) t
       = (inr (classes,
               List.filter (fun kv => negb (is_dim_key kv)) keyvals),
          {| Pipeline.svgDOM := t'; Pipeline.calls := [(Pipeline.Resizer, t)] |}).
Proof.
  intros D.
  destruct (resize_total t {| scaleFactor := None;
                              width := fromEntries_get "width" keyvals;
                              height := fromEntries_get "height" keyvals |})
    as [t' E].
  exists t'. split; [exact E|].
  unfold Pipeline.run, resize_svg.
  destruct (List.filter is_dim_key keyvals) as [|kv kvs] eqn:F; [congruence|].
  cbn [List.length Nat.eqb negb]. rewrite <- F.
  rewrite !fromEntries_get_dims by auto.
  unfold Pipeline.bind, Pipeline.call, Pipeline.ret.
  cbn [Pipeline.svgDOM Pipeline.calls]. now rewrite E.
Qed.

Lemma X30_resize_svg_dimensions_witness :
  Pipeline.run
    (resize_svg ["keep-size"]
                [("width", "1cm"); ("scale-factor", "2"); ("width", "50%")])
    (El "svg" [("width", "16"); ("height", "8")] None [])
  = (inr (["keep-size"], [("scale-factor", "2")]),
     {| Pipeline.svgDOM :=
          El "svg" [("width", "50%"); ("height", "25%")] None [];
        Pipeline.calls :=
          [(Pipeline.Resizer,
            El "svg" [("width", "16"); ("height", "8")] None [])] |}).
Proof.
  destruct (X30_resize_svg_dimensions
              ["keep-size"]
              [("width", "1cm"); ("scale-factor", "2"); ("width", "50%")]
              (El "svg" [("width", "16"); ("height", "8")] None []))
    as (t' & E & R); [discriminate|].
  rewrite R. vm_compute in E. injection E as <-. reflexivity.
Defined.

Lemma process_figure_caption_throws
      (env : Env) (id : string) (classes : list string)
      (keyvals : list (string * string)) (caption : list inline)
      (st : Pipeline.state) :
  throws (Utils.ast2html env caption) ->
  throws (fst (process env "html" true (id, classes, keyvals) caption st)).
Proof.
  intros [e A]. unfold process. unfold Pipeline.bind at 1.
  destruct (resize_svg_run classes keyvals st) as (ck & t0 & R & _).
  rewrite R. destruct ck as [classes' keyvals'].
  cbn [String.eqb Ascii.eqb Bool.eqb].
  unfold Pipeline.bind at 1. rewrite html_passes_run. cbv zeta.
  destruct (text2foreignObject env _) as [e'|t4].
  - eexists. reflexivity.
  - unfold Pipeline.bind, Pipeline.get, Pipeline.lift. rewrite A.
    eexists. reflexivity.
Qed.

(** X3: for a figure, the filter throws whenever pandoc prints the
    caption as anything but one paragraph on one line: a caption that
    pandoc wraps over several lines makes the whole filter fail. *)
Theorem X3_filter_figure_wrapped_caption
  (env : Env) (id : string) (classes : list string)
  (keyvals : list (string * string)) (caption rest : list inline)
  (fname title svgString : string) :
  startsWith title "fig:" = true ->
  Utils.isSVG fname = true ->
  includes classes "ignore" = false ->
  Utils.loadSVG env fname = Some svgString ->
  svgString <> "" ->
  (forall content,
     Utils.pandoc env "json" "html" (stringifyCaption env caption) ""
     = "<p>" ++ content ++ "</p>" ++ LF ->
     one_line content = false) ->
  throws (fst (filter env
                 (ParaElement
                    (Image (id, classes, keyvals) caption (fname, title)
                       :: rest))
                 "html")).
Proof.
  intros F S I L N W.
  rewrite (filter_processes_figure env id classes keyvals caption rest
             fname title svgString F S I L N).
  cbn [fst]. apply process_figure_caption_throws.
  unfold Utils.ast2html.
  destruct (Utils.paragraph_content _) as [content|] eqn:P.
  - apply paragraph_content_Some in P as [P O].
    rewrite (W content P) in O. discriminate.
  - eexists. reflexivity.
Qed.

Lemma X3_filter_figure_wrapped_caption_witness :
  let root := El "svg" [("width", "16"); ("height", "16")] None [] in
  let env := fixture_printing root ("<p>a" ++ LF ++ "b</p>" ++ LF) in
  throws (fst (filter env
                 (ParaElement [Image ("f", [], []) [] ("a.svg", "fig:")])
                 "html")).
Proof.
  intros root env.
  apply (X3_filter_figure_wrapped_caption
           env "f" [] [] [] [] "a.svg" "fig:" "<svg></svg>");
    try (reflexivity || discriminate).
  intros content H. destruct (one_line content) eqn:O; [|reflexivity].
  assert (P : Utils.paragraph_content
                (Utils.pandoc env "json" "html" (stringifyCaption env []) "")
              = Some content)
    by (apply paragraph_content_Some; split; assumption).
  vm_compute in P. discriminate P.
Defined.

Lemma no_space_span (s : string) :
  no_space s = true -> span is_space s = ("", s).
Proof.
  destruct s as [|c s]; [reflexivity|]. unfold no_space. simpl.
  intros H. apply andb_true_iff in H as [H _].
  apply negb_true_iff in H. now rewrite H.
Qed.

Lemma no_space_snd_span (p : ascii -> bool) (s : string) :
  no_space s = true -> no_space (snd (span p s)) = true.
Proof.
  intros H. rewrite <- (span_app p s) in H. unfold no_space in *.
  rewrite forallb_append in H. now apply andb_true_iff in H.
Qed.

Lemma translateRegex_here_no_space (s : string) :
  no_space s = true -> translateRegex_here s = None.
Proof.
  intros H. unfold translateRegex_here, trim_start.
  rewrite (no_space_span s H). cbn [snd].
  destruct (strip_prefix "translate(" s) as [r|] eqn:P; [|reflexivity].
  apply strip_prefix_app in P. subst s.
  unfold no_space in H. rewrite forallb_append in H.
  apply andb_true_iff in H as [_ H].
  pose proof (no_space_snd_span is_minus_digit_or_dot r H) as H1.
  destruct (span is_minus_digit_or_dot r) as [x r1]. cbn [snd] in H1.
  now rewrite (no_space_span r1 H1).
Qed.

Lemma translateRegex_exec_no_space (s : string) :
  no_space s = true -> translateRegex_exec s = None.
Proof.
  induction s as [|c s IH]; intros H.
  - reflexivity.
  - cbn [translateRegex_exec].
    rewrite (translateRegex_here_no_space _ H).
    unfold no_space in H. simpl in H. apply andb_true_iff in H as [_ H].
    now rewrite (IH H).
Qed.

Lemma every_element_impl (p q : element -> bool) (n : node) :
  (forall e, p e = true -> q e = true) ->
  every_element p n = true -> every_element q n = true.
Proof.
  intros I. induction n as [d|d|t a s cs IH] using node_tree_ind;
    try reflexivity.
  cbn [every_element]. intros H. apply andb_true_iff in H as [H C].
  rewrite (I _ H). cbn [andb].
  rewrite forallb_forall in *. rewrite Forall_forall in IH. auto.
Qed.

Lemma transform_without_space_folds (e : element) :
  transform_without_space e = true -> negb (folds e) = true.
Proof.
  unfold transform_without_space, folds, translation_of.
  destruct (getAttribute e "transform") as [transform|]; [|reflexivity].
  intros H. now rewrite (translateRegex_exec_no_space transform H).
Qed.

Lemma getAttribute_apply_pending
      (pending : option (number * number)) (elt : element) :
  getAttribute (apply_pending pending elt) "transform"
  = getAttribute elt "transform".
Proof.
  destruct pending as [[dx dy]|]; [|reflexivity].
  cbn [apply_pending]. unfold applyTranslation.
  now rewrite !getAttribute_setAttribute_other by discriminate.
Qed.

Lemma removeTranslations_root (svgDOM : element) :
  Elem (removeTranslations svgDOM) = removeTranslations_node None (Elem svgDOM).
Proof.
  unfold removeTranslations. destruct svgDOM as [t a s cs].
  cbn [removeTranslations_node].
  now destruct (fold_translation None (El t a s cs)).
Qed.

Lemma fold_translation_needs_space
      (pending : option (number * number)) (elt : element)
      (transform : string) :
  getAttribute elt "transform" = Some transform ->
  no_space transform = true ->
  fold_translation pending elt = (apply_pending pending elt, None).
Proof.
  intros G H. unfold fold_translation, translation_of.
  rewrite getAttribute_apply_pending, G.
  now rewrite (translateRegex_exec_no_space transform H).
Qed.

Lemma removeTranslations_node_needs_space
      (elt : element) (transform : string) (n : node) :
  getAttribute elt "transform" = Some transform ->
  no_space transform = true ->
  occurs elt n ->
  forall pending,
  exists pending',
    occurs (set_childNodes (apply_pending pending' elt)
              (map (removeTranslations_node None) (childNodes_of elt)))
           (removeTranslations_node pending n).
Proof.
  intros G H. induction 1 as [|t a s cs c I O IH]; intros pending.
  - exists pending. destruct elt as [t a s cs].
    cbn [removeTranslations_node childNodes_of].
    rewrite (fold_translation_needs_space pending _ transform G H).
    constructor.
  - cbn [removeTranslations_node].
    destruct (fold_translation pending (El t a s cs)) as [[t' a' s' cs'] delta].
    destruct (IH delta) as [pending' IH']. exists pending'.
    cbn [set_childNodes].
    apply occurs_below with (c := removeTranslations_node delta c);
      [now apply in_map|exact IH'].
Qed.

(** X8: an element whose [transform] holds no white space is not folded:
    the expression asks for white space between the two numbers, so that
    [translate(1,2)] and [translate(5)] do not match.  The callback of
    [removeTranslations] leaves such an element as the callback on its
    parent has left it, with the translation that a parent which folds has
    applied to its [x] and [y]; it keeps the [transform], and applies
    nothing to the children.  So the document after [removeTranslations]
    holds the element with its [transform], with a translation of its
    parent applied to it at most, and with its children as the loop leaves
    them when nothing is handed down.  A document in which no [transform]
    holds white space is returned as it is. *)
Theorem X8_removeTranslations_needs_space :
  (forall pending elt transform,
     getAttribute elt "transform" = Some transform ->
     no_space transform = true ->
     fold_translation pending elt = (apply_pending pending elt, None)
     /\ getAttribute (apply_pending pending elt) "transform"
        = Some transform)
  /\ (forall svgDOM elt transform,
        occurs elt (Elem svgDOM) ->
        getAttribute elt "transform" = Some transform ->
        no_space transform = true ->
        exists pending,
          occurs (set_childNodes (apply_pending pending elt)
                    (map (removeTranslations_node None) (childNodes_of elt)))
                 (Elem (removeTranslations svgDOM)))
  /\ (forall svgDOM,
        every_element transform_without_space (Elem svgDOM) = true ->
        removeTranslations svgDOM = svgDOM).
Proof.
  split; [|split].
  - intros pending elt transform G H. split.
    + exact (fold_translation_needs_space pending elt transform G H).
    + now rewrite getAttribute_apply_pending.
  - intros svgDOM elt transform O G H. rewrite removeTranslations_root.
    exact (removeTranslations_node_needs_space elt transform _ G H O None).
  - intros svgDOM H. unfold removeTranslations.
    rewrite (removeTranslations_node_id (Elem svgDOM)); [reflexivity|].
    revert H. apply every_element_impl.
    exact transform_without_space_folds.
Qed.

Lemma X8_removeTranslations_needs_space_witness :
  let svgDOM :=
    El "svg" [] None
       [Elem (El "text" [("x", "1"); ("y", "2");
                         ("transform", "translate(1,2)")]
                 None [Text "a"])] in
  removeTranslations svgDOM = svgDOM.
Proof.
  intros svgDOM.
  apply (proj2 (proj2 X8_removeTranslations_needs_space) svgDOM).
  reflexivity.
Defined.
